(** * Single-instance coordination of putty-nd: [CmdLineHandler]

    A shallow embedding of [src/putty_view/CmdLineHandler.cpp]: the
    constructor that derives the per-user object names, the leader election
    of [toBeLeader], the follower's [sendMsgToLeader] and the leader's
    [leaderTimerCallback], run by any number of processes over one model
    of the kernel objects they share (named file mappings and named
    mutexes).

    Each process is a [CmdLineHandler] with a program point; a step of a
    process is one operation on the shared objects, and an execution is an
    interleaving of such steps.  What the system decides (a call that
    fails, the windows that exist) comes with each step as an [Oracle].

    Not in the model: the destructor (lines 39-50), which only a Leader
    that shuts down runs; [CreateMutex] (line 36) returning NULL; and
    whatever [fatalbox], [bringToForeground] and [createNewSession] do
    besides returning: they appear as events. *)

From Stdlib Require Import ZArith String Ascii List Bool Lia.
From stdpp Require Import base tactics option list gmap strings.

Local Open Scope string_scope.
Local Open Scope Z_scope.
Local Open Scope list_scope.

(** ** Platform constants (winbase.h, winerror.h) *)

Definition DWORD := Z.

Definition WAIT_OBJECT_0 : DWORD := 0.
Definition WAIT_ABANDONED : DWORD := 128.
Definition WAIT_TIMEOUT : DWORD := 258.
Definition WAIT_FAILED : DWORD := 4294967295.
Definition INFINITE : DWORD := 4294967295.

Definition ERROR_SUCCESS : DWORD := 0.
Definition ERROR_NOT_ENOUGH_MEMORY : DWORD := 8.
Definition ERROR_ALREADY_EXISTS : DWORD := 183.

(** ** Characters and C strings *)

Definition NUL : ascii := "000"%char.

(** [char] is a signed 8-bit integer for the compiler this code targets;
    a comparison such as [userId[i] >= '0'] is made on the promoted value. *)
Definition char_to_int (c : ascii) : Z :=
  let n := Z.of_N (N_of_ascii c) in
  if n <? 128 then n else n - 256.

(** The string a [%s] conversion reads from a char array: everything before
    the first NUL. *)
Fixpoint c_str (buf : list ascii) : list ascii :=
  match buf with
  | [] => []
  | c :: rest => if Ascii.eqb c NUL then [] else c :: c_str rest
  end.

(** ** The constructor (lines 17-37) *)

(** Lines 14-15. *)
Definition SHARED_MEM_NAME : string := "PuttySharedMem".
Definition SHARED_MEM_MUTEX_NAME : string := "PuttySharedMemMutex".

(** [char userId[128] = {0}]. *)
Definition sizeof_userId : nat := 128.
Definition userId_init : list ascii := replicate sizeof_userId NUL.

(** [GetUserNameExA(NameSamCompatible, lpNameBuffer, &nSize)].  [account] is
    what the system has for the calling thread's user ([None]: the lookup
    itself fails).  On success the name and its terminator overwrite the
    front of the buffer and the length without the terminator comes back; a
    name that does not fit with its terminator makes the call fail. *)
Definition GetUserNameExA (account : option string)
    (lpNameBuffer : list ascii) (nSize : nat) : option (list ascii * nat) :=
  match account with
  | None => None
  | Some name =>
      let chars := list_ascii_of_string name in
      if decide (List.length chars < nSize)%nat
      then Some ((chars ++ NUL :: drop (S (List.length chars)) lpNameBuffer)%list,
                 List.length chars)
      else None
  end.

(** The test of lines 27-29. *)
Definition is_alnum (c : ascii) : bool :=
  let v := char_to_int c in
  ((char_to_int "0" <=? v) && (v <=? char_to_int "9"))
  || ((char_to_int "a" <=? v) && (v <=? char_to_int "z"))
  || ((char_to_int "A" <=? v) && (v <=? char_to_int "Z")).

(** One iteration of the loop of lines 26-32, at index [i]. *)
Definition sanitize_at (userId : list ascii) (i : nat) : list ascii :=
  match userId !! i with
  | Some c => if is_alnum c then userId else <[i := "_"%char]> userId
  | None => userId
  end.

(** [for (int i = 0; i < userIdLength; i++)]. *)
Definition sanitize (userId : list ascii) (userIdLength : nat) : list ascii :=
  foldl sanitize_at userId (seq 0 userIdLength).

(** [_snprintf(dst, count, "%s_%s", prefix, userId)]: the characters it
    stores in [dst], at most [count] of the formatted string.  When the
    formatted string is shorter than [count] a terminator follows them, and
    they are the name that [A2W(dst)] hands to the system at lines 36 and
    78.  When it has [count] characters or more no terminator is stored and
    [A2W] reads on past the array: the name is then not these characters
    alone, and the properties of the names below are stated for arrays that
    the formatted strings fit. *)
Definition _snprintf (count : nat) (prefix : string) (userId : list ascii)
    : string :=
  string_of_list_ascii
    (take count
       (list_ascii_of_string prefix ++ "_"%char :: c_str userId)%list).

Inductive SharedType := SHARED_TYPE_LEADER | SHARED_TYPE_FOLLOWER.

Global Instance SharedType_eq_dec : EqDecision SharedType.
Proof. solve_decision. Defined.

(** Program points of [handleCmd] and of the functions it runs, named by the
    source line about to execute. *)
Inductive PC :=
| L73_CreateFileMapping
| L86_MapViewOfFile
| L97_isLeader
| L56_timer_Start
| L107_read_flag
| L112_WaitForSingleObject
| L113_clear_flag
| L114_createNewSession
| L115_ReleaseMutex
| L124_FindWindowA
| L130_WaitForSingleObject
| L135_set_flag
| L136_ReleaseMutex
| L62_exit
| Exited (status : Z).

Global Instance PC_eq_dec : EqDecision PC.
Proof. solve_decision. Defined.

(** The fields of a [CmdLineHandler], and where its process stands.
    [sharedType_] is not set by the constructor. *)
Record CmdLineHandler := mkCmdLineHandler {
  userShareMemName_ : string;
  userShareMemMutexName_ : string;
  sharedType_ : option SharedType;
  pc : PC
}.

(** The identity the constructor derives: [userId] after the loop, as the
    two [%s] conversions read it. *)
Definition derive_userId (account : option string) : option (list ascii) :=
  match GetUserNameExA account userId_init sizeof_userId with
  | None => None
  | Some (userId, userIdLength) => Some (c_str (sanitize userId userIdLength))
  end.

Section Constructor.

(** [sizeof(userShareMemName_)] and [sizeof(userShareMemMutexName_)]: the
    arrays are declared in CmdLineHandler.h. *)
Variable sizeof_userShareMemName_ : nat.
Variable sizeof_userShareMemMutexName_ : nat.

(** Lines 17-37.  [None]: [ErrorExit("GetUserId")] ended the process.  The
    mutex of line 36 is a kernel object looked up by name (see [mutexes]
    below); [CreateMutex] is taken to return a valid handle. *)
Definition CmdLineHandler_new (account : option string)
    : option CmdLineHandler :=
  match GetUserNameExA account userId_init sizeof_userId with
  | None => None
  | Some (userId, userIdLength) =>
      let userId := sanitize userId userIdLength in
      Some {| userShareMemName_ :=
                _snprintf sizeof_userShareMemName_ SHARED_MEM_NAME userId;
              userShareMemMutexName_ :=
                _snprintf sizeof_userShareMemMutexName_
                  SHARED_MEM_MUTEX_NAME userId;
              sharedType_ := None;
              pc := L73_CreateFileMapping |}
  end.

End Constructor.



(** ** Kernel objects shared by the processes *)

(** A named file mapping backed by the paging file: its bytes, and the
    processes that hold an open handle on it.  The object lives as long as
    some handle is open. *)
Record FileMapping := mkFileMapping {
  fm_bytes : list Z;
  fm_handles : gset nat
}.

(** A named mutex: free, abandoned (its owner ended while owning it), or
    owned by a process, [recursion] times more than once. *)
Inductive Mutex :=
| MutexFree
| MutexAbandoned
| MutexHeld (owner : nat) (recursion : nat).

Global Instance Mutex_eq_dec : EqDecision Mutex.
Proof. solve_decision. Defined.

(** A top-level window of the desktop. *)
Record Window := mkWindow {
  hwnd : Z;
  wnd_class : string;
  wnd_title : string
}.

(** What a process does that others can see, or that the properties below
    speak of. *)
Inductive Event :=
| EvCreateFileMapping (last_error : DWORD)
| EvFatalbox (msg : string)
| EvCloseHandle
| EvExit (status : Z)
| EvMemset
| EvTimerStart
| EvReadFlag (value : Z)
| EvWriteFlag (value : Z)
| EvWaitForSingleObject (dwMilliseconds : DWORD) (result : DWORD)
| EvReleaseMutex
| EvCreateNewSession
| EvBringToForeground (wnd : Z).

Global Instance Event_eq_dec : EqDecision Event.
Proof. solve_decision. Defined.

(** What the system decides for one step of a process: whether the two calls
    that can fail do, and the windows that exist at that moment. *)
Record Oracle := mkOracle {
  CreateFileMapping_fails : bool;
  MapViewOfFile_fails : bool;
  desktop : list Window
}.

(** Processes are numbered by their position in [procs]. *)
Record World := mkWorld {
  mappings : gmap string FileMapping;
  mutexes : gmap string Mutex;
  procs : list CmdLineHandler;
  log : list (nat * Event)
}.

(** [CreateFileMapping(INVALID_HANDLE_VALUE, NULL, PAGE_READWRITE, 0, size,
    name)] by process [self]: whether a handle comes back, the calling
    thread's last error, and the mappings afterwards.  A new mapping is
    zero-filled; an existing one is opened as it is.  (A call that fails
    leaves some error code other than [ERROR_ALREADY_EXISTS]; the program
    does not look at it.) *)
Definition CreateFileMapping (self : nat) (size : nat) (name : string)
    (fails : bool) (ns : gmap string FileMapping)
    : bool * DWORD * gmap string FileMapping :=
  if fails then (false, ERROR_NOT_ENOUGH_MEMORY, ns)
  else match ns !! name with
       | Some fm =>
           (true, ERROR_ALREADY_EXISTS,
            <[name := mkFileMapping (fm_bytes fm) ({[self]} ∪ fm_handles fm)]> ns)
       | None =>
           (true, ERROR_SUCCESS,
            <[name := mkFileMapping (replicate size 0) {[self]}]> ns)
       end.

(** [CloseHandle] on the mapping, also what ending the process does to it. *)
Definition CloseHandle (self : nat) (name : string)
    (ns : gmap string FileMapping) : gmap string FileMapping :=
  match ns !! name with
  | Some fm =>
      let hs := fm_handles fm ∖ {[self]} in
      if decide (hs = ∅) then delete name ns
      else <[name := mkFileMapping (fm_bytes fm) hs]> ns
  | None => ns
  end.

Definition mutex_at (name : string) (ms : gmap string Mutex) : Mutex :=
  default MutexFree (ms !! name).

(** [WaitForSingleObject(mutex, dwMilliseconds)] by [self]: the result and
    the mutex afterwards, or [None] while the call has to wait. *)
Definition WaitForSingleObject (self : nat) (m : Mutex)
    (dwMilliseconds : DWORD) : option (DWORD * Mutex) :=
  match m with
  | MutexFree => Some (WAIT_OBJECT_0, MutexHeld self 0)
  | MutexAbandoned => Some (WAIT_ABANDONED, MutexHeld self 0)
  | MutexHeld owner n =>
      if decide (owner = self) then Some (WAIT_OBJECT_0, MutexHeld self (S n))
      else if dwMilliseconds =? 0 then Some (WAIT_TIMEOUT, m)
      else None
  end.

(** [ReleaseMutex]: without effect for a caller that is not the owner. *)
Definition ReleaseMutex (self : nat) (m : Mutex) : Mutex :=
  match m with
  | MutexHeld owner n =>
      if decide (owner = self)
      then match n with O => MutexFree | S n' => MutexHeld self n' end
      else m
  | _ => m
  end.

(** A mutex whose owner ends becomes abandoned. *)
Definition abandon (self : nat) (m : Mutex) : Mutex :=
  match m with
  | MutexHeld owner _ => if decide (owner = self) then MutexAbandoned else m
  | _ => m
  end.

(** [FindWindowA(lpClassName, lpWindowName)]: the first top-level window
    whose class name and whose title are the ones given; a NULL argument
    ([None]) accepts every window.  (Names are compared as they are; the
    system does not distinguish letter case.) *)
Definition FindWindowA (lpClassName lpWindowName : option string)
    (dt : list Window) : option Z :=
  let accepts (arg : option string) (s : string) : bool :=
    match arg with None => true | Some a => String.eqb a s end in
  hwnd <$> List.find
    (fun wnd => accepts lpClassName (wnd_class wnd)
                && accepts lpWindowName (wnd_title wnd)) dt.

(** ** The program, one shared-state operation at a time *)

Definition at_pc (h : CmdLineHandler) (l : PC) : CmdLineHandler :=
  mkCmdLineHandler (userShareMemName_ h) (userShareMemMutexName_ h)
    (sharedType_ h) l.

(** Modelled from the spec: [isLeader()] is defined in CmdLineHandler.h,
    which is not among the sources; per the role state machine it tells
    whether the role assigned from region creation is Leader. *)
Definition isLeader (h : CmdLineHandler) : bool :=
  bool_decide (sharedType_ h = Some SHARED_TYPE_LEADER).

(** Line 84. *)
Definition sharedType_of (last_error : DWORD) : SharedType :=
  if last_error =? ERROR_ALREADY_EXISTS
  then SHARED_TYPE_FOLLOWER else SHARED_TYPE_LEADER.

(** The flag, [sharedBuffer_[0]], read and written through the view. *)
Definition read_flag (name : string) (ns : gmap string FileMapping)
    : option Z :=
  fm ← ns !! name; fm_bytes fm !! 0%nat.

Definition write_flag (name : string) (v : Z)
    (ns : gmap string FileMapping) : gmap string FileMapping :=
  match ns !! name with
  | Some fm => <[name := mkFileMapping (<[0%nat := v]> (fm_bytes fm))
                           (fm_handles fm)]> ns
  | None => ns
  end.

(** [memset(sharedBuffer_, 0, size)]. *)
Definition memset0 (name : string) (size : nat)
    (ns : gmap string FileMapping) : gmap string FileMapping :=
  match ns !! name with
  | Some fm =>
      <[name := mkFileMapping
                  (replicate size 0 ++ drop size (fm_bytes fm))
                  (fm_handles fm)]> ns
  | None => ns
  end.

(** What one step leaves behind: the handler, the kernel objects, and the
    events of the step in order. *)
Record Outcome := mkOutcome {
  o_self : CmdLineHandler;
  o_mappings : gmap string FileMapping;
  o_mutexes : gmap string Mutex;
  o_events : list Event
}.

(** Modelled from the spec: [checkMemTimer_] is declared in
    CmdLineHandler.h, which is not among the sources; the Leader "runs a
    recurring timer task", so that when the callback returns the next thing
    the Leader does is enter it again, at line 107. *)
Definition timer_fires_again : PC := L107_read_flag.

(** The decision of line 131, and where it leads. *)
Definition after_wait (wait_result : DWORD) : PC :=
  if negb (WAIT_OBJECT_0 =? wait_result) then L62_exit else L135_set_flag.

Section Program.

(** [SHARED_MEM_SIZE], an enumerator of CmdLineHandler.h. *)
Variable SHARED_MEM_SIZE : nat.

(** The end of the process with [status]: its handle on the mapping is
    closed, a mutex it owns is abandoned. *)
Definition exit (self : nat) (status : Z) (h : CmdLineHandler)
    (ns : gmap string FileMapping) (ms : gmap string Mutex)
    (before : list Event) : Outcome :=
  let mname := userShareMemMutexName_ h in
  mkOutcome (at_pc h (Exited status))
    (CloseHandle self (userShareMemName_ h) ns)
    (match ms !! mname with
     | Some m => <[mname := abandon self m]> ms
     | None => ms
     end)
    (before ++ [EvExit status]).

(** [toBeLeader], lines 68-101, entered from line 54. *)
Definition toBeLeader (self : nat) (o : Oracle) (h : CmdLineHandler)
    (ns : gmap string FileMapping) (ms : gmap string Mutex)
    : option Outcome :=
  match pc h with
  | L73_CreateFileMapping =>
      let '(sharedMemHandle_, GetLastError, ns') :=
        CreateFileMapping self SHARED_MEM_SIZE (userShareMemName_ h)
          (CreateFileMapping_fails o) ns in
      if negb sharedMemHandle_
      then Some (exit self (-1) h ns' ms
                   [EvCreateFileMapping GetLastError;
                    EvFatalbox "can't get shared memory handle!"])
      else Some (mkOutcome
                   (mkCmdLineHandler (userShareMemName_ h)
                      (userShareMemMutexName_ h)
                      (Some (sharedType_of GetLastError))
                      L86_MapViewOfFile)
                   ns' ms [EvCreateFileMapping GetLastError])
  | L86_MapViewOfFile =>
      if MapViewOfFile_fails o
      then Some (exit self (-1) h ns ms
                   [EvFatalbox "can't get shared memory!"; EvCloseHandle])
      else Some (mkOutcome (at_pc h L97_isLeader) ns ms [])
  | L97_isLeader =>
      if isLeader h
      then Some (mkOutcome (at_pc h L56_timer_Start)
                   (memset0 (userShareMemName_ h) SHARED_MEM_SIZE ns) ms
                   [EvMemset])
      else Some (mkOutcome (at_pc h L124_FindWindowA) ns ms [])
  | _ => None
  end.

(** [leaderTimerCallback], lines 105-117, entered each time the timer
    started at line 56 fires. *)
Definition leaderTimerCallback (self : nat) (h : CmdLineHandler)
    (ns : gmap string FileMapping) (ms : gmap string Mutex)
    : option Outcome :=
  let name := userShareMemName_ h in
  let mname := userShareMemMutexName_ h in
  match pc h with
  | L107_read_flag =>
      flag ← read_flag name ns;
      if flag =? 0
      then Some (mkOutcome (at_pc h timer_fires_again) ns ms
                   [EvReadFlag flag])
      else Some (mkOutcome (at_pc h L112_WaitForSingleObject) ns ms
                   [EvReadFlag flag])
  | L112_WaitForSingleObject =>
      '(wait_result, m) ← WaitForSingleObject self (mutex_at mname ms) INFINITE;
      Some (mkOutcome (at_pc h L113_clear_flag) ns (<[mname := m]> ms)
              [EvWaitForSingleObject INFINITE wait_result])
  | L113_clear_flag =>
      Some (mkOutcome (at_pc h L114_createNewSession)
              (write_flag name 0 ns) ms [EvWriteFlag 0])
  | L114_createNewSession =>
      Some (mkOutcome (at_pc h L115_ReleaseMutex) ns ms [EvCreateNewSession])
  | L115_ReleaseMutex =>
      Some (mkOutcome (at_pc h timer_fires_again) ns
              (<[mname := ReleaseMutex self (mutex_at mname ms)]> ms)
              [EvReleaseMutex])
  | _ => None
  end.

(** [sendMsgToLeader], lines 121-138; its return leads to line 62. *)
Definition sendMsgToLeader (self : nat) (o : Oracle) (h : CmdLineHandler)
    (ns : gmap string FileMapping) (ms : gmap string Mutex)
    : option Outcome :=
  let name := userShareMemName_ h in
  let mname := userShareMemMutexName_ h in
  match pc h with
  | L124_FindWindowA =>
      match FindWindowA (Some "PuTTY-ND2_ConfigBox") None (desktop o) with
      | Some wnd =>
          Some (mkOutcome (at_pc h L62_exit) ns ms [EvBringToForeground wnd])
      | None =>
          Some (mkOutcome (at_pc h L130_WaitForSingleObject) ns ms [])
      end
  | L130_WaitForSingleObject =>
      '(wait_result, m) ← WaitForSingleObject self (mutex_at mname ms) 0;
      Some (mkOutcome (at_pc h (after_wait wait_result)) ns
              (<[mname := m]> ms) [EvWaitForSingleObject 0 wait_result])
  | L135_set_flag =>
      Some (mkOutcome (at_pc h L136_ReleaseMutex)
              (write_flag name 1 ns) ms [EvWriteFlag 1])
  | L136_ReleaseMutex =>
      Some (mkOutcome (at_pc h L62_exit) ns
              (<[mname := ReleaseMutex self (mutex_at mname ms)]> ms)
              [EvReleaseMutex])
  | _ => None
  end.

(** [handleCmd], lines 52-65: the step of process [self] at its program
    point. *)
Definition handleCmd (self : nat) (o : Oracle) (h : CmdLineHandler)
    (ns : gmap string FileMapping) (ms : gmap string Mutex)
    : option Outcome :=
  match pc h with
  | L73_CreateFileMapping | L86_MapViewOfFile | L97_isLeader =>
      toBeLeader self o h ns ms
  | L56_timer_Start =>
      Some (mkOutcome (at_pc h timer_fires_again) ns ms [EvTimerStart])
  | L107_read_flag | L112_WaitForSingleObject | L113_clear_flag
  | L114_createNewSession | L115_ReleaseMutex =>
      leaderTimerCallback self h ns ms
  | L124_FindWindowA | L130_WaitForSingleObject | L135_set_flag
  | L136_ReleaseMutex =>
      sendMsgToLeader self o h ns ms
  | L62_exit => Some (exit self 0 h ns ms [])
  | Exited _ => None
  end.

(** One step of process [p] in the world; [None] when [p] cannot move. *)
Definition step (p : nat) (o : Oracle) (w : World) : option World :=
  h ← procs w !! p;
  out ← handleCmd p o h (mappings w) (mutexes w);
  Some (mkWorld (o_mappings out) (o_mutexes out)
          (<[p := o_self out]> (procs w))
          (log w ++ (pair p <$> o_events out))).

(** An interleaving: the processes take steps in the order of the schedule;
    a process that cannot move when its turn comes is passed over. *)
Definition exec (sched : list (nat * Oracle)) (w : World) : World :=
  foldl (fun w '(p, o) => default w (step p o w)) w sched.

(** Process [p] running undisturbed, one step per oracle; [None] if it
    cannot make one of them. *)
Fixpoint run (p : nat) (os : list Oracle) (w : World) : option World :=
  match os with
  | [] => Some w
  | o :: os' => w' ← step p o w; run p os' w'
  end.

End Program.

(** ** The identity and the object names *)

(** The characters of [[A-Za-z0-9_]]. *)
Definition identity_alphabet : list ascii :=
  list_ascii_of_string
    "ABCDEFGHIJKLMNOPQRSTUVWXYZabcdefghijklmnopqrstuvwxyz0123456789_".

Definition in_identity_alphabet (c : ascii) : bool :=
  existsb (Ascii.eqb c) identity_alphabet.

(** A string matches [[A-Za-z0-9_]+]. *)
Definition matches_identity (s : list ascii) : bool :=
  match s with
  | [] => false
  | _ => forallb in_identity_alphabet s
  end.

(** What the loop of lines 26-32 makes of one character. *)
Definition sanitize_char (c : ascii) : ascii :=
  if is_alnum c then c else "_"%char.

(** The letters and digits, and a name with every other character replaced
    by [_]: the identity as the specification words it. *)
Definition alphanumeric (c : ascii) : bool :=
  existsb (Ascii.eqb c)
    (list_ascii_of_string
       "ABCDEFGHIJKLMNOPQRSTUVWXYZabcdefghijklmnopqrstuvwxyz0123456789").

Definition replace_non_alphanumeric (name : list ascii) : list ascii :=
  map (fun c => if alphanumeric c then c else "_"%char) name.

(** ** Executions *)

(** The processes at the entry of [handleCmd], no kernel object existing. *)
Definition start (handlers : list CmdLineHandler) : World :=
  mkWorld ∅ ∅ handlers [].

(** One process per account name given; a process whose constructor ended
    it never reaches [handleCmd]. *)
Definition launch (sizeof_mem sizeof_mutex : nat)
    (accounts : list (option string)) : World :=
  start (omap (CmdLineHandler_new sizeof_mem sizeof_mutex) accounts).

Definition live (h : CmdLineHandler) : Prop :=
  forall status, pc h <> Exited status.

(** A running process whose role is Leader. *)
Definition holds_Leader (h : CmdLineHandler) : Prop :=
  sharedType_ h = Some SHARED_TYPE_LEADER /\ live h.

Definition count_role (r : SharedType) (w : World) : nat :=
  List.length (filter (fun h => sharedType_ h = Some r) (procs w)).

(** Neither call fails. *)
Definition oracle_ok (o : Oracle) : Prop :=
  CreateFileMapping_fails o = false /\ MapViewOfFile_fails o = false.

(** No call of the schedule fails. *)
Definition no_failure (sched : list (nat * Oracle)) : Prop :=
  Forall (fun po => oracle_ok po.2) sched.

(** Every process has made its [CreateFileMapping] call. *)
Definition all_elected (w : World) : Prop :=
  Forall (fun h => pc h <> L73_CreateFileMapping) (procs w).

(** The events of process [p] in a log. *)
Definition events_of (p : nat) (l : list (nat * Event)) : list Event :=
  snd <$> filter (fun pe => pe.1 = p) l.

Definition count_event (e : Event) (l : list Event) : nat :=
  List.length (filter (fun e' => e' = e) l).

(** ** Invariants of the executions *)

(** A step of another process leaves the handle of [q] open. *)
Definition keeps_handle (q : nat) (ns ns' : gmap string FileMapping) : Prop :=
  forall n fm, ns !! n = Some fm -> q ∈ fm_handles fm ->
    exists fm', ns' !! n = Some fm' /\ q ∈ fm_handles fm'.

(** What every reachable world satisfies. *)
Record election_inv (w : World) : Prop := {
  inv_fresh : forall p h, procs w !! p = Some h ->
    pc h = L73_CreateFileMapping -> sharedType_ h = None;
  inv_handle : forall p h, procs w !! p = Some h ->
    live h -> pc h <> L73_CreateFileMapping ->
    exists fm, mappings w !! userShareMemName_ h = Some fm
               /\ p ∈ fm_handles fm;
  inv_unique : forall p q hp hq,
    procs w !! p = Some hp -> procs w !! q = Some hq ->
    holds_Leader hp -> holds_Leader hq ->
    userShareMemName_ hp = userShareMemName_ hq -> p = q
}.

(** The program points a Leader passes through when no call fails. *)
Definition leader_pc (l : PC) : bool :=
  match l with
  | L86_MapViewOfFile | L97_isLeader | L56_timer_Start | L107_read_flag
  | L112_WaitForSingleObject | L113_clear_flag | L114_createNewSession
  | L115_ReleaseMutex => true
  | _ => false
  end.

Definition is_Leader_of (n : string) (h : CmdLineHandler) : Prop :=
  userShareMemName_ h = n /\ sharedType_ h = Some SHARED_TYPE_LEADER.

Record nofail_inv (w : World) : Prop := {
  nf_leader_pc : forall p h, procs w !! p = Some h ->
    sharedType_ h = Some SHARED_TYPE_LEADER -> leader_pc (pc h) = true;
  nf_role : forall p h, procs w !! p = Some h ->
    pc h <> L73_CreateFileMapping -> sharedType_ h <> None;
  nf_mapping : forall n fm, mappings w !! n = Some fm ->
    exists p h, procs w !! p = Some h /\ is_Leader_of n h;
  nf_elected : forall q hq, procs w !! q = Some hq ->
    sharedType_ hq <> None ->
    exists p h, procs w !! p = Some h /\ is_Leader_of (userShareMemName_ hq) h
}.

(** The world after a step of [p] that leaves [h'], [ns], [ms] and the
    events [evs]. *)
Definition after (w : World) (p : nat) (h' : CmdLineHandler)
    (ns : gmap string FileMapping) (ms : gmap string Mutex)
    (evs : list Event) : World :=
  mkWorld ns ms (<[p := h']> (procs w)) (log w ++ (pair p <$> evs)).

(** The mutex can be taken by [p] at once: no other process owns it. *)
Definition available_to (p : nat) (m : Mutex) : Prop :=
  match m with
  | MutexHeld owner _ => owner = p
  | _ => True
  end.

Definition owned_by_other (p : nat) (m : Mutex) : Prop :=
  match m with
  | MutexHeld owner _ => owner <> p
  | _ => False
  end.

(** How many times process [p] has run the [memset] of line 98. *)
Definition memsets_of (p : nat) (l : list (nat * Event)) : nat :=
  count_event EvMemset (events_of p l).

(** Program points before the end of the initialisation of line 97. *)
Definition before_init (l : PC) : bool :=
  match l with
  | L73_CreateFileMapping | L86_MapViewOfFile | L97_isLeader => true
  | _ => false
  end.

Record memset_inv (w : World) : Prop := {
  mi_once : forall p, (memsets_of p (log w) <= 1)%nat;
  mi_done : forall p h, procs w !! p = Some h ->
    (1 <= memsets_of p (log w))%nat ->
    sharedType_ h = Some SHARED_TYPE_LEADER /\ before_init (pc h) = false;
  mi_known : forall p, (1 <= memsets_of p (log w))%nat ->
    is_Some (procs w !! p)
}.

(** Two mappings agree on every byte but the flag. *)
Definition same_beyond_flag (fm fm' : FileMapping) : Prop :=
  drop 1 (fm_bytes fm') = drop 1 (fm_bytes fm).

(** The Followers of [fs], one after the other, each from line 124 to the
    end of its process. *)
Fixpoint notify_all (SHARED_MEM_SIZE : nat) (o : Oracle) (fs : list nat)
    (w : World) : option World :=
  match fs with
  | [] => Some w
  | f :: fs' =>
      w' ← run SHARED_MEM_SIZE f [o; o; o; o; o] w;
      notify_all SHARED_MEM_SIZE o fs' w'
  end.

(** Between two polls of Leader [l]: the region is mapped and held by [l],
    the mutex is free, and the Followers of [fs] are about to run
    [sendMsgToLeader]. *)
Record between_polls (name mname : string) (l : nat) (fs : list nat)
    (w : World) : Prop := {
  bp_followers : forall f, f ∈ fs ->
    exists hf, procs w !! f = Some hf /\ pc hf = L124_FindWindowA
               /\ userShareMemName_ hf = name
               /\ userShareMemMutexName_ hf = mname;
  bp_region : exists fm, mappings w !! name = Some fm /\ l ∈ fm_handles fm
                         /\ (0 < List.length (fm_bytes fm))%nat;
  bp_mutex : mutex_at mname (mutexes w) = MutexFree
}.

(** ** Sample executions *)

(** No call fails and the desktop has no window. *)
Definition oracle_quiet : Oracle := mkOracle false false [].

Definition sample_SIZE : nat := 512.

(** Two processes of one account. *)
Definition two_processes : World :=
  launch 64 64 [Some "LAB\amy"; Some "LAB\amy"].

Definition sample_region : string := "PuttySharedMem_LAB_amy".
Definition sample_mutex : string := "PuttySharedMemMutex_LAB_amy".

(** Process 0 creates the region (line 73); process 1 then runs to its end:
    it opens the region as Follower (73, 86, 97), finds no window (124),
    takes the mutex (130), sets the flag (135), releases (136) and exits
    (62); process 0 then maps the region (86). *)
Definition race_before_memset : list (nat * Oracle) :=
  (0%nat, oracle_quiet)
  :: replicate 8 (1%nat, oracle_quiet)
  ++ [(0%nat, oracle_quiet)].

(** ... and then process 0 runs lines 97-98. *)
Definition race_memset : list (nat * Oracle) := [(0%nat, oracle_quiet)].

Definition three_processes : World :=
  launch 64 64 [Some "LAB\amy"; Some "LAB\amy"; Some "LAB\amy"].

(** Process 0 has become Leader and started its timer (lines 73, 86, 97,
    56). *)
Definition leader_up : list (nat * Oracle) := replicate 4 (0%nat, oracle_quiet).

(** Process [f] has become Follower and is about to run [sendMsgToLeader]
    (lines 73, 86, 97). *)
Definition follower_up (f : nat) : list (nat * Oracle) :=
  replicate 3 (f, oracle_quiet).

(** Process [f] runs [sendMsgToLeader] and exits (lines 124, 130, 135, 136,
    62). *)
Definition follower_notifies (f : nat) : list (nat * Oracle) :=
  replicate 5 (f, oracle_quiet).

(** The Leader polling, Followers 1 and 2 about to notify. *)
Definition world_between_polls : World :=
  exec sample_SIZE (leader_up ++ follower_up 1 ++ follower_up 2)
    three_processes.

(** The steps that lead from the start to [world_flag_set] below. *)
Definition flag_set_schedule : list (nat * Oracle) :=
  leader_up ++ follower_up 1 ++ follower_up 2 ++ follower_notifies 1.

(** Follower 1 has notified; the Leader polls. *)
Definition world_flag_set : World :=
  exec sample_SIZE (follower_notifies 1) world_between_polls.

(** The Leader is inside [createNewSession], the mutex in its hands. *)
Definition world_leader_busy : World :=
  exec sample_SIZE (replicate 3 (0%nat, oracle_quiet)) world_flag_set.

(** A world whose mutex was abandoned by a process that ended as its owner;
    Follower 1 is at line 130. *)
Definition world_abandoned : World :=
  mkWorld (mappings world_between_polls)
    (<[sample_mutex := MutexAbandoned]> (mutexes world_between_polls))
    (<[1%nat := mkCmdLineHandler sample_region sample_mutex
                  (Some SHARED_TYPE_FOLLOWER) L130_WaitForSingleObject]>
       (procs world_between_polls))
    (log world_between_polls).

(** A desktop whose only window has the title [PuTTY-ND2_ConfigBox] but
    another class. *)
Definition oracle_titled : Oracle :=
  mkOracle false false [mkWindow 66052 "Notepad" "PuTTY-ND2_ConfigBox"].

(** A desktop with the configuration box of a running instance. *)
Definition oracle_config_box : Oracle :=
  mkOracle false false
    [mkWindow 1312 "Shell_TrayWnd" "";
     mkWindow 66052 "PuTTY-ND2_ConfigBox" "PuTTY Configuration"].

(** The Leader idles with the flag clear, the Follower is gone, and
    [createNewSession] has never been called. *)
Record signal_lost (w : World) : Prop := {
  sl_leader : exists h0, procs w !! 0%nat = Some h0
    /\ userShareMemName_ h0 = sample_region
    /\ (pc h0 = L56_timer_Start \/ pc h0 = L107_read_flag);
  sl_follower : exists h1 status, procs w !! 1%nat = Some h1
    /\ pc h1 = Exited status;
  sl_nobody_else : List.length (procs w) = 2%nat;
  sl_flag : read_flag sample_region (mappings w) = Some 0;
  sl_no_session : count_event EvCreateNewSession (snd <$> log w) = 0%nat
}.

Definition sample_leader_at (l : PC) : CmdLineHandler :=
  mkCmdLineHandler sample_region sample_mutex (Some SHARED_TYPE_LEADER) l.

Definition sample_follower_at (l : PC) : CmdLineHandler :=
  mkCmdLineHandler sample_region sample_mutex (Some SHARED_TYPE_FOLLOWER) l.

Definition sample_fresh : CmdLineHandler :=
  mkCmdLineHandler sample_region sample_mutex None L73_CreateFileMapping.

(** ** The lock discipline *)

(** Program points between an acquisition of the mutex and its release. *)
Definition in_critical (l : PC) : bool :=
  match l with
  | L113_clear_flag | L114_createNewSession | L115_ReleaseMutex
  | L135_set_flag | L136_ReleaseMutex => true
  | _ => false
  end.

(** Program points only a Follower reaches, and only a Leader. *)
Definition follower_pc (l : PC) : bool :=
  match l with
  | L124_FindWindowA | L130_WaitForSingleObject | L135_set_flag
  | L136_ReleaseMutex | L62_exit => true
  | _ => false
  end.

Definition leader_only_pc (l : PC) : bool :=
  match l with
  | L56_timer_Start | L107_read_flag | L112_WaitForSingleObject
  | L113_clear_flag | L114_createNewSession | L115_ReleaseMutex => true
  | _ => false
  end.

Record lock_inv (w : World) : Prop := {
  li_owner : forall p h, procs w !! p = Some h ->
    in_critical (pc h) = true ->
    exists k, mutex_at (userShareMemMutexName_ h) (mutexes w) = MutexHeld p k;
  li_follower : forall p h, procs w !! p = Some h ->
    follower_pc (pc h) = true -> sharedType_ h = Some SHARED_TYPE_FOLLOWER;
  li_leader : forall p h, procs w !! p = Some h ->
    leader_only_pc (pc h) = true -> sharedType_ h = Some SHARED_TYPE_LEADER;
  li_role : forall p h, procs w !! p = Some h ->
    pc h = L86_MapViewOfFile \/ pc h = L97_isLeader -> sharedType_ h <> None
}.

(** A process in the polling of a Leader has run the [memset] of line 98
    once. *)
Definition zeroed_once (w : World) : Prop :=
  forall p h, procs w !! p = Some h ->
    leader_only_pc (pc h) = true -> memsets_of p (log w) = 1%nat.

(** How a step of [p] may change the flag of region [n] to [v']: under the
    mutex, by a Follower setting it or by a Leader clearing it; or by the
    [memset] of a Leader at line 97, which takes no mutex. *)
Inductive flag_change (w : World) (p : nat) (n : string) (v' : Z) : Prop :=
| set_under_lock (h : CmdLineHandler) (k : nat) :
    procs w !! p = Some h -> userShareMemName_ h = n ->
    pc h = L135_set_flag -> v' = 1 ->
    sharedType_ h = Some SHARED_TYPE_FOLLOWER ->
    mutex_at (userShareMemMutexName_ h) (mutexes w) = MutexHeld p k ->
    flag_change w p n v'
| cleared_under_lock (h : CmdLineHandler) (k : nat) :
    procs w !! p = Some h -> userShareMemName_ h = n ->
    pc h = L113_clear_flag -> v' = 0 ->
    sharedType_ h = Some SHARED_TYPE_LEADER ->
    mutex_at (userShareMemMutexName_ h) (mutexes w) = MutexHeld p k ->
    flag_change w p n v'
| cleared_by_memset (h : CmdLineHandler) :
    procs w !! p = Some h -> userShareMemName_ h = n ->
    pc h = L97_isLeader -> v' = 0 ->
    sharedType_ h = Some SHARED_TYPE_LEADER ->
    flag_change w p n v'.

(** Every process uses the region name [n] and the mutex name [m]. *)
Definition all_named (n m : string) (w : World) : Prop :=
  forall p h, procs w !! p = Some h ->
    userShareMemName_ h = n /\ userShareMemMutexName_ h = m.

(** While a Leader is between its write of line 113 and its release the
    flag of its region is 0. *)
Definition clear_in_poll (w : World) : Prop :=
  forall l hl v, procs w !! l = Some hl ->
    pc hl = L114_createNewSession \/ pc hl = L115_ReleaseMutex ->
    read_flag (userShareMemName_ hl) (mappings w) = Some v -> v = 0.

(** ** Further invariants of the executions *)

(** A region as the program keeps it: [size] bytes, the flag 0 or 1, every
    byte beyond the flag 0. *)
Record region_shape (size : nat) (fm : FileMapping) : Prop := {
  rs_size : List.length (fm_bytes fm) = size;
  rs_flag : forall v, fm_bytes fm !! 0%nat = Some v -> v = 0 \/ v = 1;
  rs_reserved : forall i v, fm_bytes fm !! S i = Some v -> v = 0
}.

Definition regions_shaped (size : nat) (w : World) : Prop :=
  forall n fm, mappings w !! n = Some fm -> region_shape size fm.

(** A running process that has made its [CreateFileMapping] call with
    success, for region [n]. *)
Definition running_holder (n : string) (h : CmdLineHandler) : Prop :=
  live h /\ pc h <> L73_CreateFileMapping /\ userShareMemName_ h = n.

(** Every open handle on a region is that of such a process, and a region
    has one at least. *)
Definition handles_of_running (w : World) : Prop :=
  forall n fm, mappings w !! n = Some fm ->
    fm_handles fm <> ∅
    /\ forall p, p ∈ fm_handles fm ->
         exists h, procs w !! p = Some h /\ running_holder n h.

(** Every mutex is free, or owned once by a process between its
    acquisition and its release. *)
Definition mutexes_owned (w : World) : Prop :=
  forall m, mutex_at m (mutexes w) = MutexFree
    \/ exists p h, mutex_at m (mutexes w) = MutexHeld p 0
         /\ procs w !! p = Some h /\ in_critical (pc h) = true
         /\ userShareMemMutexName_ h = m.

(** The role an event tells of the process that made it: the timer, the
    reads of the flag, its clearing, [memset], the blocking wait and
    [createNewSession] are a Leader's; the zero-wait, the setting of the
    flag, [bringToForeground] and [exit(0)] a Follower's. *)
Definition event_role (e : Event) : option SharedType :=
  match e with
  | EvMemset | EvTimerStart | EvReadFlag _ | EvCreateNewSession =>
      Some SHARED_TYPE_LEADER
  | EvWriteFlag v =>
      Some (if v =? 0 then SHARED_TYPE_LEADER else SHARED_TYPE_FOLLOWER)
  | EvWaitForSingleObject dwMilliseconds _ =>
      Some (if dwMilliseconds =? 0
            then SHARED_TYPE_FOLLOWER else SHARED_TYPE_LEADER)
  | EvBringToForeground _ => Some SHARED_TYPE_FOLLOWER
  | EvExit status => if status =? 0 then Some SHARED_TYPE_FOLLOWER else None
  | _ => None
  end.

Definition events_by_role (w : World) : Prop :=
  forall p e r, (p, e) ∈ log w -> event_role e = Some r ->
    exists h, procs w !! p = Some h /\ sharedType_ h = Some r.

(** A read of the flag that found it set. *)
Definition is_observation (e : Event) : bool :=
  match e with
  | EvReadFlag v => negb (v =? 0)
  | _ => false
  end.

Definition is_fatalbox (e : Event) : bool :=
  match e with
  | EvFatalbox _ => true
  | _ => false
  end.

Definition count_if (f : Event -> bool) (l : list Event) : nat :=
  List.length (List.filter f l).

Definition observations (p : nat) (w : World) : nat :=
  count_if is_observation (events_of p (log w)).

Definition clears (p : nat) (w : World) : nat :=
  count_event (EvWriteFlag 0) (events_of p (log w)).

Definition sessions (p : nat) (w : World) : nat :=
  count_event EvCreateNewSession (events_of p (log w)).

Definition fatalboxes (p : nat) (w : World) : nat :=
  count_if is_fatalbox (events_of p (log w)).

(** 1 at the program points of [pcs], 0 elsewhere. *)
Definition at_one_of (pcs : list PC) (h : CmdLineHandler) : nat :=
  if bool_decide (pc h ∈ pcs) then 1%nat else 0%nat.

(** The calls of [createNewSession] of a process against its clearings of
    the flag and the polls in which it found the flag set. *)
Definition sessions_accounted (w : World) : Prop :=
  forall p h, procs w !! p = Some h ->
    clears p w = (sessions p w + at_one_of [L114_createNewSession] h)%nat
    /\ observations p w
       = (clears p w
          + at_one_of [L112_WaitForSingleObject; L113_clear_flag] h)%nat.

(** How a process has ended, against the [fatalbox] it has shown. *)
Definition exits_accounted (w : World) : Prop :=
  forall p h, procs w !! p = Some h ->
    (live h -> fatalboxes p w = 0%nat)
    /\ (forall status, pc h = Exited status ->
          (status = 0 /\ fatalboxes p w = 0%nat
           /\ sharedType_ h = Some SHARED_TYPE_FOLLOWER)
          \/ (status = -1 /\ fatalboxes p w = 1%nat)).

(** Program points from which the mutex is neither owned after a wait that
    returned [WAIT_OBJECT_0] nor about to be waited for without a limit. *)
Definition outside_lock (l : PC) : bool :=
  match l with
  | L112_WaitForSingleObject | L113_clear_flag | L114_createNewSession
  | L115_ReleaseMutex | L135_set_flag | L136_ReleaseMutex => false
  | _ => true
  end.

(** The mutex [m] is abandoned, or owned by a Follower that took it
    abandoned and is about to exit; the flag of region [n], if there is
    one, is 0; and no process is where it could free the mutex. *)
Record locked_out (n m : string) (w : World) : Prop := {
  lo_names : all_named n m w;
  lo_outside : forall p h, procs w !! p = Some h -> outside_lock (pc h) = true;
  lo_mutex : mutex_at m (mutexes w) = MutexAbandoned
             \/ exists f h k, mutex_at m (mutexes w) = MutexHeld f k
                              /\ procs w !! f = Some h /\ pc h = L62_exit;
  lo_flag : forall v, read_flag n (mappings w) = Some v -> v = 0
}.

(** The events of the log that deliver a request: a set flag, or a call of
    [createNewSession]. *)
Definition is_delivery (e : Event) : bool :=
  match e with
  | EvWriteFlag v => negb (v =? 0)
  | EvCreateNewSession => true
  | _ => false
  end.

Definition deliveries (w : World) : nat :=
  count_if is_delivery (snd <$> log w).

(** A schedule whose first steps are: the Leader creates the region and
    fails to map it. *)
Definition oracle_map_fails : Oracle := mkOracle false true [].

Definition leader_fails_to_map : list (nat * Oracle) :=
  [(0%nat, oracle_quiet); (0%nat, oracle_map_fails)].

(** ... and the same with process 1 opening the region in between, as a
    Follower. *)
Definition leader_fails_beside_follower : list (nat * Oracle) :=
  [(0%nat, oracle_quiet); (1%nat, oracle_quiet); (0%nat, oracle_map_fails)].

(** * Properties *)

Example ctor_sample :
  CmdLineHandler_new 64 64 (Some "LAB-7\j.doe") =
  Some {| userShareMemName_ := "PuttySharedMem_LAB_7_j_doe";
          userShareMemMutexName_ := "PuttySharedMemMutex_LAB_7_j_doe";
          sharedType_ := None; pc := L73_CreateFileMapping |}.
Proof. reflexivity. Qed.

Lemma sanitize_char_alphabet (c : ascii) :
  in_identity_alphabet (sanitize_char c) = true.
Proof.
  destruct c as [b0 b1 b2 b3 b4 b5 b6 b7].
  destruct b0, b1, b2, b3, b4, b5, b6, b7; vm_compute; reflexivity.
Qed.

Lemma is_alnum_alphanumeric (c : ascii) : is_alnum c = alphanumeric c.
Proof.
  destruct c as [b0 b1 b2 b3 b4 b5 b6 b7].
  destruct b0, b1, b2, b3, b4, b5, b6, b7; vm_compute; reflexivity.
Qed.

Lemma sanitize_replaces (chars : list ascii) :
  map sanitize_char chars = replace_non_alphanumeric chars.
Proof.
  unfold replace_non_alphanumeric, sanitize_char.
  apply map_ext. intros c. rewrite is_alnum_alphanumeric. reflexivity.
Qed.

Lemma sanitize_char_not_NUL (c : ascii) : Ascii.eqb (sanitize_char c) NUL = false.
Proof.
  destruct c as [b0 b1 b2 b3 b4 b5 b6 b7].
  destruct b0, b1, b2, b3, b4, b5, b6, b7; vm_compute; reflexivity.
Qed.

Lemma sanitize_at_middle (done : list ascii) (c : ascii) (rest : list ascii) :
  sanitize_at (done ++ c :: rest) (List.length done)
  = (done ++ sanitize_char c :: rest)%list.
Proof.
  unfold sanitize_at, sanitize_char.
  rewrite list_lookup_middle by reflexivity.
  destruct (is_alnum c); [reflexivity|].
  rewrite insert_app_r_alt by lia.
  replace (List.length done - List.length done)%nat with 0%nat by lia.
  reflexivity.
Qed.

Lemma sanitize_loop_from (todo done rest : list ascii) :
  foldl sanitize_at (done ++ todo ++ rest)
    (seq (List.length done) (List.length todo))
  = (done ++ map sanitize_char todo ++ rest)%list.
Proof.
  revert done. induction todo as [|c todo IH]; intros done; [reflexivity|].
  cbn [List.length seq foldl app map].
  rewrite sanitize_at_middle.
  specialize (IH (done ++ [sanitize_char c])%list).
  rewrite length_app in IH. cbn [List.length] in IH.
  replace (List.length done + 1)%nat with (S (List.length done)) in IH by lia.
  rewrite <- !app_assoc in IH. exact IH.
Qed.

Lemma sanitize_name (chars rest : list ascii) :
  sanitize (chars ++ rest) (List.length chars)
  = (map sanitize_char chars ++ rest)%list.
Proof. exact (sanitize_loop_from chars [] rest). Qed.

Lemma c_str_sanitized (chars rest : list ascii) :
  c_str (map sanitize_char chars ++ NUL :: rest) = map sanitize_char chars.
Proof.
  induction chars as [|c chars IH]; [reflexivity|].
  cbn [map app c_str]. rewrite sanitize_char_not_NUL, IH. reflexivity.
Qed.

Lemma matches_identity_sanitized (chars : list ascii) :
  chars <> [] -> matches_identity (map sanitize_char chars) = true.
Proof.
  intros Hne. destruct chars as [|c chars]; [congruence|].
  unfold matches_identity. cbn [map].
  apply forallb_forall. intros x Hx.
  change (sanitize_char c :: map sanitize_char chars)
    with (map sanitize_char (c :: chars)) in Hx.
  apply in_map_iff in Hx. destruct Hx as [y [<- _]].
  apply sanitize_char_alphabet.
Qed.

Lemma string_of_list_ascii_app (l1 l2 : list ascii) :
  string_of_list_ascii (l1 ++ l2)
  = String.append (string_of_list_ascii l1) (string_of_list_ascii l2).
Proof. induction l1 as [|c l1 IH]; cbn; [reflexivity|]. now rewrite IH. Qed.

Lemma length_list_ascii_of_string (s : string) :
  List.length (list_ascii_of_string s) = String.length s.
Proof. induction s as [|c s IH]; cbn; [reflexivity|]. now rewrite IH. Qed.

Lemma _snprintf_fits (count : nat) (prefix : string) (chars rest : list ascii) :
  (String.length prefix + 1 + List.length chars < count)%nat ->
  _snprintf count prefix (map sanitize_char chars ++ NUL :: rest)
  = String.append prefix
      (String.append "_" (string_of_list_ascii (map sanitize_char chars))).
Proof.
  intros Hfit. unfold _snprintf. rewrite c_str_sanitized.
  rewrite take_ge.
  - rewrite string_of_list_ascii_app, string_of_list_ascii_of_string.
    reflexivity.
  - rewrite length_app, length_list_ascii_of_string. cbn [List.length].
    rewrite length_map. lia.
Qed.

(** C9.  For an account name the system reports (not empty, and short enough
    for [userId]), the identity the constructor derives is the name with
    every character that is not a letter or digit replaced by [_]; it
    matches [[A-Za-z0-9_]+]; and, the two name arrays being large enough
    for them, the region name and the lock name are the two distinct
    prefixes followed by [_] and the identity: the same for every process
    of that account. *)
Theorem resource_names_from_identity
    (sizeof_mem sizeof_mutex : nat) (account : string) :
  let chars := list_ascii_of_string account in
  let identity := replace_non_alphanumeric chars in
  chars <> [] ->
  (List.length chars < sizeof_userId)%nat ->
  (String.length SHARED_MEM_NAME + 1 + List.length chars < sizeof_mem)%nat ->
  (String.length SHARED_MEM_MUTEX_NAME + 1 + List.length chars
   < sizeof_mutex)%nat ->
  derive_userId (Some account) = Some identity
  /\ matches_identity identity = true
  /\ SHARED_MEM_NAME <> SHARED_MEM_MUTEX_NAME
  /\ CmdLineHandler_new sizeof_mem sizeof_mutex (Some account)
     = Some {| userShareMemName_ :=
                 String.append SHARED_MEM_NAME
                   (String.append "_" (string_of_list_ascii identity));
               userShareMemMutexName_ :=
                 String.append SHARED_MEM_MUTEX_NAME
                   (String.append "_" (string_of_list_ascii identity));
               sharedType_ := None;
               pc := L73_CreateFileMapping |}.
Proof.
  intros chars identity Hne Hlen Hmem Hmutex.
  unfold identity. rewrite <- sanitize_replaces.
  assert (Hget : GetUserNameExA (Some account) userId_init sizeof_userId
                 = Some ((chars ++ NUL :: drop (S (List.length chars)) userId_init)%list,
                         List.length chars)).
  { unfold GetUserNameExA. fold chars.
    destruct (decide (List.length chars < sizeof_userId)%nat); [reflexivity|lia]. }
  assert (Hsan : sanitize (chars ++ NUL :: drop (S (List.length chars)) userId_init)
                   (List.length chars)
                 = (map sanitize_char chars
                      ++ NUL :: drop (S (List.length chars)) userId_init)%list).
  { apply sanitize_name. }
  split; [|split; [|split]].
  - unfold derive_userId. rewrite Hget, Hsan. f_equal. apply c_str_sanitized.
  - apply matches_identity_sanitized; assumption.
  - discriminate.
  - unfold CmdLineHandler_new. rewrite Hget. cbv zeta. rewrite Hsan.
    rewrite !_snprintf_fits by assumption. reflexivity.
Qed.

Lemma resource_names_from_identity_witness :
  derive_userId (Some "LAB-7\j.doe")
  = Some (list_ascii_of_string "LAB_7_j_doe")
  /\ matches_identity (list_ascii_of_string "LAB_7_j_doe") = true
  /\ SHARED_MEM_NAME <> SHARED_MEM_MUTEX_NAME
  /\ CmdLineHandler_new 64 64 (Some "LAB-7\j.doe")
     = Some {| userShareMemName_ := "PuttySharedMem_LAB_7_j_doe";
               userShareMemMutexName_ := "PuttySharedMemMutex_LAB_7_j_doe";
               sharedType_ := None;
               pc := L73_CreateFileMapping |}.
Proof.
  apply (resource_names_from_identity 64 64 "LAB-7\j.doe");
    [discriminate | vm_compute; lia ..].
Defined.

(** ** Steps and executions *)

Section Executions.

Variable SHARED_MEM_SIZE : nat.

Lemma step_inv (p : nat) (o : Oracle) (w w' : World) :
  step SHARED_MEM_SIZE p o w = Some w' ->
  exists h out,
    procs w !! p = Some h
    /\ handleCmd SHARED_MEM_SIZE p o h (mappings w) (mutexes w) = Some out
    /\ w' = mkWorld (o_mappings out) (o_mutexes out)
              (<[p := o_self out]> (procs w))
              (log w ++ (pair p <$> o_events out)).
Proof.
  unfold step. intros H.
  destruct (procs w !! p) as [h|] eqn:Hh; [|discriminate].
  cbn in H.
  destruct (handleCmd SHARED_MEM_SIZE p o h (mappings w) (mutexes w))
    as [out|] eqn:Hout; [|discriminate].
  cbn in H. injection H as <-. eauto.
Qed.

Lemma exec_app (s1 s2 : list (nat * Oracle)) (w : World) :
  exec SHARED_MEM_SIZE (s1 ++ s2) w
  = exec SHARED_MEM_SIZE s2 (exec SHARED_MEM_SIZE s1 w).
Proof. unfold exec. apply foldl_app. Qed.

Lemma exec_cons (p : nat) (o : Oracle) (s : list (nat * Oracle)) (w : World) :
  exec SHARED_MEM_SIZE ((p, o) :: s) w
  = exec SHARED_MEM_SIZE s (default w (step SHARED_MEM_SIZE p o w)).
Proof. reflexivity. Qed.

(** A property of the start that every step keeps holds after every
    schedule; [good] restricts the oracles the schedule may use. *)
Lemma exec_invariant (good : nat * Oracle -> Prop) (P : World -> Prop) :
  (forall w p o w',
      good (p, o) -> P w -> step SHARED_MEM_SIZE p o w = Some w' -> P w') ->
  forall sched w,
    Forall good sched -> P w -> P (exec SHARED_MEM_SIZE sched w).
Proof.
  intros Hstep sched. induction sched as [|[p o] sched IH]; intros w Hg Hw.
  - exact Hw.
  - rewrite exec_cons. inversion Hg as [|? ? Hpo Hrest]; subst.
    apply IH; [assumption|].
    destruct (step SHARED_MEM_SIZE p o w) as [w'|] eqn:Hs; cbn; [|assumption].
    eapply Hstep; eassumption.
Qed.

Lemma exec_invariant_any (P : World -> Prop) :
  (forall w p o w', P w -> step SHARED_MEM_SIZE p o w = Some w' -> P w') ->
  forall sched w, P w -> P (exec SHARED_MEM_SIZE sched w).
Proof.
  intros Hstep sched w Hw.
  apply (exec_invariant (fun _ => True)); eauto.
  apply Forall_forall. intros ? _. exact I.
Qed.

End Executions.

(** ** Leader election *)

Ltac handle_cases H :=
  unfold handleCmd, toBeLeader, leaderTimerCallback, sendMsgToLeader in H;
  repeat (first [ progress simplify_option_eq | case_match ]; simplify_eq/=).

Lemma keeps_handle_refl q ns : keeps_handle q ns ns.
Proof. intros n fm ? ?. eauto. Qed.

Lemma keeps_handle_CreateFileMapping q self size name fails ns :
  keeps_handle q ns (CreateFileMapping self size name fails ns).2.
Proof.
  intros n fm Hn Hq. unfold CreateFileMapping.
  destruct fails; cbn; [eauto|].
  destruct (ns !! name) as [fm0|] eqn:E; cbn.
  - destruct (decide (name = n)) as [->|Hne].
    + rewrite lookup_insert_eq. simplify_eq. eexists; split; [reflexivity|].
      cbn. set_solver.
    + rewrite lookup_insert_ne by done. eauto.
  - destruct (decide (name = n)) as [->|Hne]; [congruence|].
    rewrite lookup_insert_ne by done. eauto.
Qed.

Lemma keeps_handle_CloseHandle q self name ns :
  q <> self -> keeps_handle q ns (CloseHandle self name ns).
Proof.
  intros Hqs n fm Hn Hq. unfold CloseHandle.
  destruct (ns !! name) as [fm0|] eqn:E; [|eauto].
  destruct (decide (name = n)) as [->|Hne].
  - simplify_eq. case_decide as Hempty; [set_solver|].
    rewrite lookup_insert_eq. eexists; split; [reflexivity|]. cbn. set_solver.
  - case_decide.
    + rewrite lookup_delete_ne by done. eauto.
    + rewrite lookup_insert_ne by done. eauto.
Qed.

Lemma keeps_handle_write_flag q name v ns :
  keeps_handle q ns (write_flag name v ns).
Proof.
  intros n fm Hn Hq. unfold write_flag.
  destruct (ns !! name) as [fm0|] eqn:E; [|eauto].
  destruct (decide (name = n)) as [->|Hne].
  - simplify_eq. rewrite lookup_insert_eq. eauto.
  - rewrite lookup_insert_ne by done. eauto.
Qed.

Lemma keeps_handle_memset0 q name size ns :
  keeps_handle q ns (memset0 name size ns).
Proof.
  intros n fm Hn Hq. unfold memset0.
  destruct (ns !! name) as [fm0|] eqn:E; [|eauto].
  destruct (decide (name = n)) as [->|Hne].
  - simplify_eq. rewrite lookup_insert_eq. eauto.
  - rewrite lookup_insert_ne by done. eauto.
Qed.

Lemma keeps_handle_trans q ns1 ns2 ns3 :
  keeps_handle q ns1 ns2 -> keeps_handle q ns2 ns3 -> keeps_handle q ns1 ns3.
Proof.
  intros H12 H23 n fm Hn Hq.
  destruct (H12 n fm Hn Hq) as (fm' & Hn' & Hq'). eauto.
Qed.

Lemma CreateFileMapping_cases self size name fails ns b d g :
  CreateFileMapping self size name fails ns = (b, d, g) ->
  (fails = true /\ b = false /\ g = ns)
  \/ (fails = false /\ b = true /\ d = ERROR_ALREADY_EXISTS
      /\ exists fm, ns !! name = Some fm
         /\ g = <[name := mkFileMapping (fm_bytes fm)
                             ({[self]} ∪ fm_handles fm)]> ns)
  \/ (fails = false /\ b = true /\ d = ERROR_SUCCESS
      /\ ns !! name = None
      /\ g = <[name := mkFileMapping (replicate size 0) {[self]}]> ns).
Proof.
  unfold CreateFileMapping. destruct fails.
  - intros [= <- <- <-]. auto.
  - destruct (ns !! name) as [fm|] eqn:E; intros [= <- <- <-].
    + right; left. eauto 10.
    + right; right. eauto 10.
Qed.

Ltac cfm_cases :=
  match goal with
  | E : CreateFileMapping _ _ _ _ _ = (_, _, _) |- _ =>
      apply CreateFileMapping_cases in E
        as [(? & ? & ?)|[(? & ? & ? & ? & ? & ?)|(? & ? & ? & ? & ?)]];
      simplify_eq/=
  end.

Lemma CreateFileMapping_keeps_handle q self size name fails ns b d g :
  CreateFileMapping self size name fails ns = (b, d, g) -> keeps_handle q ns g.
Proof.
  intros E. replace g with (CreateFileMapping self size name fails ns).2
    by (rewrite E; reflexivity).
  apply keeps_handle_CreateFileMapping.
Qed.

Lemma handleCmd_keeps_handle SZ p q o h ns ms out :
  handleCmd SZ p o h ns ms = Some out -> q <> p ->
  keeps_handle q ns (o_mappings out).
Proof.
  intros H Hq. handle_cases H;
    eauto using keeps_handle_refl, keeps_handle_CloseHandle,
      keeps_handle_write_flag, keeps_handle_memset0,
      CreateFileMapping_keeps_handle.
  eapply keeps_handle_trans; [|apply keeps_handle_CloseHandle; exact Hq].
  eapply CreateFileMapping_keeps_handle; eassumption.
Qed.

(** The process that steps holds its handle afterwards, if it is past
    creation and running. *)
Lemma handleCmd_own_handle SZ p o h ns ms out :
  handleCmd SZ p o h ns ms = Some out ->
  (pc h <> L73_CreateFileMapping ->
   exists fm, ns !! userShareMemName_ h = Some fm /\ p ∈ fm_handles fm) ->
  live (o_self out) ->
  exists fm, o_mappings out !! userShareMemName_ h = Some fm
             /\ p ∈ fm_handles fm.
Proof.
  intros H Hown Hlive.
  handle_cases H.
  all: try (exfalso; eapply Hlive; reflexivity).
  all: try (destruct Hown as (fm & Hfm & Hp); [congruence|]).
  all: try (eexists; split; [eassumption|assumption]).
  - cfm_cases; rewrite lookup_insert_eq; (eexists; split; [reflexivity|]);
      cbn; set_solver.
  - eapply keeps_handle_memset0; eassumption.
  - eapply keeps_handle_write_flag; eassumption.
  - eapply keeps_handle_write_flag; eassumption.
Qed.

(** A process that becomes Leader created the mapping. *)
Lemma handleCmd_becomes_Leader SZ p o h ns ms out :
  handleCmd SZ p o h ns ms = Some out ->
  sharedType_ h = None ->
  sharedType_ (o_self out) = Some SHARED_TYPE_LEADER ->
  ns !! userShareMemName_ h = None.
Proof.
  intros H Hnone Hleader. handle_cases H; try congruence.
  cfm_cases; solve [discriminate|assumption].
Qed.

Lemma handleCmd_sharedType SZ p o h ns ms out :
  handleCmd SZ p o h ns ms = Some out ->
  pc h <> L73_CreateFileMapping ->
  sharedType_ (o_self out) = sharedType_ h.
Proof. intros H Hpc. handle_cases H; congruence. Qed.

Lemma handleCmd_names SZ p o h ns ms out :
  handleCmd SZ p o h ns ms = Some out ->
  userShareMemName_ (o_self out) = userShareMemName_ h
  /\ userShareMemMutexName_ (o_self out) = userShareMemMutexName_ h.
Proof. intros H. handle_cases H; split; reflexivity. Qed.

Lemma handleCmd_pc SZ p o h ns ms out :
  handleCmd SZ p o h ns ms = Some out ->
  pc (o_self out) <> L73_CreateFileMapping.
Proof.
  intros H. handle_cases H; try discriminate; try congruence.
  unfold after_wait. case_match; discriminate.
Qed.

Lemma handleCmd_live SZ p o h ns ms out :
  handleCmd SZ p o h ns ms = Some out -> live (o_self out) -> live h.
Proof.
  intros H Hl s Hs. handle_cases H; try congruence.
  all: try (eapply Hl; cbn; eassumption).
Qed.

Lemma lookup_after_step (p q : nat) (h h' hq : CmdLineHandler)
    (l : list CmdLineHandler) :
  l !! p = Some h -> <[p := h']> l !! q = Some hq ->
  (q = p /\ hq = h') \/ (q <> p /\ l !! q = Some hq).
Proof.
  intros Hp Hq. destruct (decide (q = p)) as [->|Hne].
  - rewrite list_lookup_insert_eq in Hq by (eapply lookup_lt_Some; eassumption).
    left. split; congruence.
  - rewrite list_lookup_insert_ne in Hq by congruence. auto.
Qed.

Lemma election_inv_step SZ w p o w' :
  election_inv w -> step SZ p o w = Some w' -> election_inv w'.
Proof.
  intros [Hfresh Hhandle Huniq] Hstep.
  apply step_inv in Hstep as (h & out & Hh & Hout & ->).
  pose proof (handleCmd_names _ _ _ _ _ _ _ Hout) as [Hname _].
  split; cbn.
  - intros q hq Hq Hpc.
    destruct (lookup_after_step _ _ _ _ _ _ Hh Hq) as [[-> ->]|[Hne Hq']].
    + exfalso. eapply handleCmd_pc; eassumption.
    + eauto.
  - intros q hq Hq Hlive Hpc.
    destruct (lookup_after_step _ _ _ _ _ _ Hh Hq) as [[-> ->]|[Hne Hq']].
    + rewrite Hname. eapply handleCmd_own_handle; [eassumption| |assumption].
      intros Hpc'. eapply Hhandle; [eassumption| |assumption].
      eapply handleCmd_live; eassumption.
    + destruct (Hhandle q hq Hq' Hlive Hpc) as (fm & Hfm & Hin).
      eapply handleCmd_keeps_handle; eassumption.
  - assert (Hnew : forall q hq, q <> p -> procs w !! q = Some hq ->
              holds_Leader hq -> holds_Leader (o_self out) ->
              userShareMemName_ hq = userShareMemName_ h -> False).
    { intros q hq Hne Hq [Hql Hqlive] [Hpl Hplive] Hsame.
      destruct (decide (pc h = L73_CreateFileMapping)) as [Hpc|Hpc].
      - pose proof (handleCmd_becomes_Leader _ _ _ _ _ _ _ Hout
                      (Hfresh _ _ Hh Hpc) Hpl) as Habsent.
        destruct (Hhandle q hq Hq Hqlive) as (fm & Hfm & _).
        + intros Hq73. rewrite (Hfresh _ _ Hq Hq73) in Hql. discriminate.
        + congruence.
      - apply Hne. eapply (Huniq q p hq h); try eassumption.
        + split; assumption.
        + split.
          * rewrite <- (handleCmd_sharedType _ _ _ _ _ _ _ Hout Hpc). exact Hpl.
          * eapply handleCmd_live; eassumption. }
    intros q1 q2 h1 h2 H1 H2 L1 L2 Hsame.
    destruct (lookup_after_step _ _ _ _ _ _ Hh H1) as [[-> ->]|[Hne1 H1']];
    destruct (lookup_after_step _ _ _ _ _ _ Hh H2) as [[-> ->]|[Hne2 H2']].
    + reflexivity.
    + exfalso. eapply (Hnew q2 h2); eauto. congruence.
    + exfalso. eapply (Hnew q1 h1); eauto. congruence.
    + eapply Huniq; eassumption.
Qed.

Lemma handleCmd_leader_pc SZ p o h ns ms out :
  handleCmd SZ p o h ns ms = Some out -> oracle_ok o ->
  (sharedType_ h = Some SHARED_TYPE_LEADER -> leader_pc (pc h) = true) ->
  sharedType_ (o_self out) = Some SHARED_TYPE_LEADER ->
  leader_pc (pc (o_self out)) = true.
Proof.
  intros H [Hc Hm] Hl Hout.
  handle_cases H; try reflexivity; try congruence; auto.
  all: try (specialize (Hl Hout); cbn in Hl; congruence).
  unfold isLeader in *. case_bool_decide; congruence.
Qed.

Lemma handleCmd_role_assigned SZ p o h ns ms out :
  handleCmd SZ p o h ns ms = Some out -> oracle_ok o ->
  (pc h <> L73_CreateFileMapping -> sharedType_ h <> None) ->
  sharedType_ (o_self out) <> None.
Proof.
  intros H [Hc Hm] Hrole.
  handle_cases H; try (apply Hrole; congruence); try discriminate.
  cfm_cases; congruence.
Qed.

(** A mapping that exists after a step existed before it, or was created
    by the step, whose process then is Leader. *)
Lemma handleCmd_mapping_origin SZ p o h ns ms out n fm :
  handleCmd SZ p o h ns ms = Some out ->
  o_mappings out !! n = Some fm ->
  (exists fm0, ns !! n = Some fm0)
  \/ (pc h = L73_CreateFileMapping /\ is_Leader_of n (o_self out)).
Proof.
  assert (Hclose : forall self name (m : gmap string FileMapping),
            CloseHandle self name m !! n = Some fm ->
            exists fm0, m !! n = Some fm0).
  { intros self name m. unfold CloseHandle.
    destruct (m !! name) as [fm0|] eqn:E; [|eauto].
    case_decide.
    - destruct (decide (name = n)) as [->|Hne].
      + rewrite lookup_delete_eq. discriminate.
      + rewrite lookup_delete_ne by done. eauto.
    - destruct (decide (name = n)) as [->|Hne]; [eauto|].
      rewrite lookup_insert_ne by done. eauto. }
  assert (Hwrite : forall name v (m : gmap string FileMapping),
            write_flag name v m !! n = Some fm ->
            exists fm0, m !! n = Some fm0).
  { intros name v m. unfold write_flag.
    destruct (m !! name) as [fm0|] eqn:E; [|eauto].
    destruct (decide (name = n)) as [->|Hne]; [eauto|].
    rewrite lookup_insert_ne by done. eauto. }
  assert (Hmemset : forall name size (m : gmap string FileMapping),
            memset0 name size m !! n = Some fm ->
            exists fm0, m !! n = Some fm0).
  { intros name size m. unfold memset0.
    destruct (m !! name) as [fm0|] eqn:E; [|eauto].
    destruct (decide (name = n)) as [->|Hne]; [eauto|].
    rewrite lookup_insert_ne by done. eauto. }
  intros H Hn. handle_cases H; eauto.
  - apply Hclose in Hn as [fm0 Hn]. cfm_cases. eauto.
  - cfm_cases.
    + destruct (decide (userShareMemName_ h = n)) as [<-|Hne]; [eauto|].
      rewrite lookup_insert_ne in Hn by done. eauto.
    + destruct (decide (userShareMemName_ h = n)) as [<-|Hne].
      * right. split; [reflexivity|]. split; reflexivity.
      * rewrite lookup_insert_ne in Hn by done. eauto.
Qed.

Lemma Leader_persists SZ w p o w' n p0 h0 :
  election_inv w -> step SZ p o w = Some w' ->
  procs w !! p0 = Some h0 -> is_Leader_of n h0 ->
  exists h0', procs w' !! p0 = Some h0' /\ is_Leader_of n h0'.
Proof.
  intros Hinv Hstep H0 [Hn Hl].
  apply step_inv in Hstep as (h & out & Hh & Hout & ->). cbn.
  destruct (decide (p0 = p)) as [->|Hne].
  - rewrite list_lookup_insert_eq by (eapply lookup_lt_Some; eassumption).
    eexists; split; [reflexivity|]. simplify_eq.
    pose proof (handleCmd_names _ _ _ _ _ _ _ Hout) as [Hname _].
    split; [assumption|].
    rewrite (handleCmd_sharedType _ _ _ _ _ _ _ Hout); [assumption|].
    intros Hpc. rewrite (inv_fresh _ Hinv _ _ Hh Hpc) in Hl. discriminate.
  - rewrite list_lookup_insert_ne by congruence. eexists; split; [eassumption|].
    split; assumption.
Qed.

Lemma nofail_inv_step SZ w p o w' :
  election_inv w -> nofail_inv w -> oracle_ok o ->
  step SZ p o w = Some w' -> nofail_inv w'.
Proof.
  intros Hinv [Hlpc Hrole Hmap Helec] Hok Hstep.
  pose proof Hstep as Hstep0.
  apply step_inv in Hstep as (h & out & Hh & Hout & ->).
  pose proof (handleCmd_names _ _ _ _ _ _ _ Hout) as [Hname _].
  assert (Hmap' : forall n fm, o_mappings out !! n = Some fm ->
            exists p0 h0, <[p := o_self out]> (procs w) !! p0 = Some h0
                          /\ is_Leader_of n h0).
  { intros n fm Hn.
    destruct (handleCmd_mapping_origin _ _ _ _ _ _ _ _ _ Hout Hn)
      as [[fm0 Hfm0]|[Hpc Hnew]].
    - destruct (Hmap _ _ Hfm0) as (p0 & h0 & Hp0 & Hl0).
      destruct (Leader_persists _ _ _ _ _ _ _ _ Hinv Hstep0 Hp0 Hl0)
        as (h0' & Hp0' & Hl0').
      eauto.
    - exists p, (o_self out). split; [|assumption].
      apply list_lookup_insert_eq. eapply lookup_lt_Some; eassumption. }
  split; cbn.
  - intros q hq Hq Hl.
    destruct (lookup_after_step _ _ _ _ _ _ Hh Hq) as [[-> ->]|[Hne Hq']].
    + eapply handleCmd_leader_pc; eauto.
    + eauto.
  - intros q hq Hq Hpc.
    destruct (lookup_after_step _ _ _ _ _ _ Hh Hq) as [[-> ->]|[Hne Hq']].
    + eapply handleCmd_role_assigned; eauto.
    + eauto.
  - exact Hmap'.
  - intros q hq Hq Hsome.
    destruct (lookup_after_step _ _ _ _ _ _ Hh Hq) as [[-> ->]|[Hne Hq']].
    + assert (Hlive_or : leader_pc (pc (o_self out)) = true
                        \/ leader_pc (pc (o_self out)) = false) by
        (destruct (leader_pc _); auto).
      destruct (decide (pc h = L73_CreateFileMapping)) as [Hpc|Hpc].
      * (* the creation step just made: the mapping exists now *)
        assert (exists fm, o_mappings out !! userShareMemName_ h = Some fm)
          as [fm Hfm].
        { clear -Hout Hpc Hok. destruct Hok as [Hc Hm].
          handle_cases Hout; try congruence.
          all: cfm_cases; try congruence; rewrite lookup_insert_eq; eauto. }
        rewrite Hname. eapply Hmap'. eassumption.
      * rewrite Hname.
        destruct (Helec p h Hh) as (p0 & h0 & Hp0 & Hl0).
        { rewrite <- (handleCmd_sharedType _ _ _ _ _ _ _ Hout Hpc). exact Hsome. }
        destruct (Leader_persists _ _ _ _ _ _ _ _ Hinv Hstep0 Hp0 Hl0)
          as (h0' & Hp0' & Hl0').
        eauto.
    + destruct (Helec q hq Hq' Hsome) as (p0 & h0 & Hp0 & Hl0).
      destruct (Leader_persists _ _ _ _ _ _ _ _ Hinv Hstep0 Hp0 Hl0)
        as (h0' & Hp0' & Hl0').
      eauto.
Qed.

(** *** Counting *)

Lemma filter_none {A} (P : A -> Prop) `{!forall x, Decision (P x)}
    (l : list A) :
  (forall j y, l !! j = Some y -> ~ P y) -> filter P l = [].
Proof.
  induction l as [|a l IH]; intros Hno; [reflexivity|].
  rewrite filter_cons_False by (apply (Hno 0%nat); reflexivity).
  apply IH. intros j y Hj. apply (Hno (S j)). exact Hj.
Qed.

Lemma filter_length_one {A} (P : A -> Prop) `{!forall x, Decision (P x)}
    (l : list A) :
  (forall i j x y, l !! i = Some x -> l !! j = Some y -> P x -> P y -> i = j) ->
  (exists i x, l !! i = Some x /\ P x) ->
  List.length (filter P l) = 1%nat.
Proof.
  induction l as [|a l IH]; intros Huniq (i & x & Hi & Hx).
  - discriminate.
  - destruct (decide (P a)) as [Ha|Ha].
    + rewrite filter_cons_True by assumption. cbn. f_equal.
      assert (filter P l = []) as ->; [|reflexivity].
      apply filter_none. intros j y Hj Hy.
      specialize (Huniq 0%nat (S j) a y eq_refl Hj Ha Hy). discriminate.
    + rewrite filter_cons_False by assumption.
      apply IH.
      * intros i' j' x' y' Hi' Hj' Hx' Hy'.
        specialize (Huniq (S i') (S j') x' y' Hi' Hj' Hx' Hy'). lia.
      * destruct i as [|i]; [cbn in Hi; congruence|]. eauto.
Qed.

Lemma filter_length_split {A} (P Q : A -> Prop)
    `{!forall x, Decision (P x)} `{!forall x, Decision (Q x)} (l : list A) :
  Forall (fun x => (P x \/ Q x) /\ ~ (P x /\ Q x)) l ->
  (List.length (filter P l) + List.length (filter Q l))%nat = List.length l.
Proof.
  induction 1 as [|a l [Hor Hnot] _ IH]; [reflexivity|].
  rewrite !filter_cons. destruct (decide (P a)), (decide (Q a)); cbn; try lia; tauto.
Qed.

(** *** The start *)

Lemma CmdLineHandler_new_fresh s1 s2 account h :
  CmdLineHandler_new s1 s2 account = Some h ->
  pc h = L73_CreateFileMapping /\ sharedType_ h = None.
Proof.
  unfold CmdLineHandler_new.
  destruct (GetUserNameExA _ _ _) as [[userId n]|]; [|discriminate].
  intros [= <-]. split; reflexivity.
Qed.

Lemma launch_fresh s1 s2 accounts p h :
  procs (launch s1 s2 accounts) !! p = Some h ->
  pc h = L73_CreateFileMapping /\ sharedType_ h = None.
Proof.
  unfold launch, start. cbn. intros Hp.
  apply list_elem_of_lookup_2 in Hp. apply list_elem_of_omap in Hp as (a & _ & Ha).
  eapply CmdLineHandler_new_fresh; eassumption.
Qed.

Lemma election_inv_launch s1 s2 accounts : election_inv (launch s1 s2 accounts).
Proof.
  split.
  - intros p h Hp _. eapply launch_fresh; eassumption.
  - intros p h Hp _ Hpc. apply launch_fresh in Hp as [? _]. contradiction.
  - intros p q hp hq Hp _ [Hl _] _ _.
    apply launch_fresh in Hp as [_ Hn]. congruence.
Qed.

Lemma nofail_inv_launch s1 s2 accounts : nofail_inv (launch s1 s2 accounts).
Proof.
  split.
  - intros p h Hp Hl. apply launch_fresh in Hp as [_ Hn]. congruence.
  - intros p h Hp Hpc. apply launch_fresh in Hp as [? _]. contradiction.
  - intros n fm. unfold launch, start. cbn. rewrite lookup_empty. discriminate.
  - intros q hq Hq Hs. apply launch_fresh in Hq as [_ Hn]. contradiction.
Qed.

Lemma election_inv_exec SZ s1 s2 accounts sched :
  election_inv (exec SZ sched (launch s1 s2 accounts)).
Proof.
  apply exec_invariant_any; [|apply election_inv_launch].
  intros w p o w' Hinv Hstep. eapply election_inv_step; eassumption.
Qed.

Lemma nofail_inv_exec SZ s1 s2 accounts sched :
  no_failure sched ->
  nofail_inv (exec SZ sched (launch s1 s2 accounts)).
Proof.
  intros Hnf.
  cut (election_inv (exec SZ sched (launch s1 s2 accounts))
       /\ nofail_inv (exec SZ sched (launch s1 s2 accounts))); [tauto|].
  apply (exec_invariant SZ
           (fun po => CreateFileMapping_fails po.2 = false
                      /\ MapViewOfFile_fails po.2 = false)
           (fun w => election_inv w /\ nofail_inv w)).
  - intros w p o w' Hok [Hinv Hnofail] Hstep. split.
    + eapply election_inv_step; eassumption.
    + eapply nofail_inv_step; eassumption.
  - exact Hnf.
  - split; [apply election_inv_launch|apply nofail_inv_launch].
Qed.

(** The names of a process never change, nor does the number of processes. *)
Lemma names_exec SZ sched w0 (n : string) :
  Forall (fun h => userShareMemName_ h = n) (procs w0) ->
  Forall (fun h => userShareMemName_ h = n) (procs (exec SZ sched w0)).
Proof.
  apply (exec_invariant_any SZ
           (fun w => Forall (fun h => userShareMemName_ h = n) (procs w))).
  intros w p o w' Hall Hstep.
  apply step_inv in Hstep as (h & out & Hh & Hout & ->). cbn.
  apply Forall_insert; [assumption|].
  destruct (handleCmd_names _ _ _ _ _ _ _ Hout) as [-> _].
  exact (Forall_lookup_1 _ _ _ _ Hall Hh).
Qed.

Lemma length_procs_exec SZ sched w0 :
  List.length (procs (exec SZ sched w0)) = List.length (procs w0).
Proof.
  apply (exec_invariant_any SZ
           (fun w => List.length (procs w) = List.length (procs w0)));
    [|reflexivity].
  intros w p o w' Hlen Hstep.
  apply step_inv in Hstep as (h & out & Hh & Hout & ->). cbn.
  rewrite length_insert. exact Hlen.
Qed.

Lemma launch_same s1 s2 N account h :
  CmdLineHandler_new s1 s2 (Some account) = Some h ->
  procs (launch s1 s2 (replicate N (Some account))) = replicate N h.
Proof.
  intros Hh. unfold launch, start. cbn.
  induction N as [|N IH]; [reflexivity|].
  cbn. rewrite Hh. cbn. f_equal. exact IH.
Qed.

(** C1.  Whatever the interleaving of the processes' steps, two running
    processes that use the same region name are never both Leader.  And
    when N >= 2 processes are started under one account, no call fails and
    each has made its [CreateFileMapping] call, [toBeLeader] has made
    exactly one of them Leader and the N - 1 others Follower. *)
Theorem election_one_Leader
    (SHARED_MEM_SIZE sizeof_mem sizeof_mutex : nat)
    (accounts : list (option string)) (sched : list (nat * Oracle)) :
  let w := exec SHARED_MEM_SIZE sched
             (launch sizeof_mem sizeof_mutex accounts) in
  (forall p q hp hq,
      procs w !! p = Some hp -> procs w !! q = Some hq ->
      holds_Leader hp -> holds_Leader hq ->
      userShareMemName_ hp = userShareMemName_ hq -> p = q)
  /\ (forall N account,
        accounts = replicate N (Some account) -> (2 <= N)%nat ->
        is_Some (CmdLineHandler_new sizeof_mem sizeof_mutex (Some account)) ->
        no_failure sched -> all_elected w ->
        count_role SHARED_TYPE_LEADER w = 1%nat
        /\ count_role SHARED_TYPE_FOLLOWER w = (N - 1)%nat).
Proof.
  intros w. split.
  - apply (inv_unique _ (election_inv_exec _ _ _ _ _)).
  - intros N account -> HN [h0 Hh0] Hnf Hall.
    pose proof (election_inv_exec SHARED_MEM_SIZE sizeof_mem sizeof_mutex
                  (replicate N (Some account)) sched) as Hinv.
    pose proof (nofail_inv_exec SHARED_MEM_SIZE sizeof_mem sizeof_mutex
                  (replicate N (Some account)) sched Hnf) as Hnofail.
    fold w in Hinv, Hnofail.
    assert (Hnames : Forall (fun h => userShareMemName_ h = userShareMemName_ h0)
                       (procs w)).
    { apply names_exec. rewrite (launch_same _ _ _ _ _ Hh0).
      apply Forall_replicate. reflexivity. }
    assert (Hlen : List.length (procs w) = N).
    { unfold w. rewrite length_procs_exec, (launch_same _ _ _ _ _ Hh0).
      apply length_replicate. }
    assert (Hone : count_role SHARED_TYPE_LEADER w = 1%nat).
    { unfold count_role. apply filter_length_one.
      - intros i j x y Hi Hj Hx Hy.
        eapply (inv_unique _ Hinv i j x y); try eassumption.
        + split; [assumption|]. intros s Hs.
          pose proof (nf_leader_pc _ Hnofail _ _ Hi Hx) as Hpc.
          rewrite Hs in Hpc. discriminate.
        + split; [assumption|]. intros s Hs.
          pose proof (nf_leader_pc _ Hnofail _ _ Hj Hy) as Hpc.
          rewrite Hs in Hpc. discriminate.
        + rewrite (Forall_lookup_1 _ _ _ _ Hnames Hi).
          rewrite (Forall_lookup_1 _ _ _ _ Hnames Hj). reflexivity.
      - destruct (lookup_lt_is_Some_2 (procs w) 0%nat) as [hq Hq]; [lia|].
        destruct (nf_elected _ Hnofail 0%nat hq Hq) as (p & h & Hp & _ & Hl).
        + eapply nf_role; [eassumption..|].
          eapply (Forall_lookup_1 _ _ _ _ Hall Hq).
        + eauto. }
    split; [exact Hone|].
    assert (Hsplit : (count_role SHARED_TYPE_LEADER w
                      + count_role SHARED_TYPE_FOLLOWER w)%nat = N).
    { rewrite <- Hlen. unfold count_role. apply filter_length_split.
      apply Forall_lookup. intros i h Hi.
      pose proof (nf_role _ Hnofail _ _ Hi (Forall_lookup_1 _ _ _ _ Hall Hi)).
      split; [|intros [? ?]; congruence].
      destruct (sharedType_ h) as [[]|]; [auto..|contradiction]. }
    lia.
Qed.

(** ** The steps, line by line *)

Section Steps.
Variable SHARED_MEM_SIZE : nat.

Lemma step_eq (p : nat) (o : Oracle) (w : World) (h : CmdLineHandler) :
  procs w !! p = Some h ->
  step SHARED_MEM_SIZE p o w
  = out ← handleCmd SHARED_MEM_SIZE p o h (mappings w) (mutexes w);
    Some (after w p (o_self out) (o_mappings out) (o_mutexes out)
            (o_events out)).
Proof. intros Hh. unfold step. rewrite Hh. reflexivity. Qed.

Lemma after_lookup (w : World) (p : nat) (h h' : CmdLineHandler) ns ms evs :
  procs w !! p = Some h -> procs (after w p h' ns ms evs) !! p = Some h'.
Proof.
  intros Hh. cbn. apply list_lookup_insert_eq. eapply lookup_lt_Some; eassumption.
Qed.

Lemma after_after (w : World) (p : nat) h1 h2 ns1 ns2 ms1 ms2 evs1 evs2 :
  after (after w p h1 ns1 ms1 evs1) p h2 ns2 ms2 evs2
  = after w p h2 ns2 ms2 (evs1 ++ evs2).
Proof.
  unfold after. cbn. rewrite list_insert_insert_eq, fmap_app, app_assoc.
  reflexivity.
Qed.

Lemma at_pc_same (h : CmdLineHandler) : at_pc h (pc h) = h.
Proof. destruct h. reflexivity. Qed.

Lemma at_pc_at_pc (h : CmdLineHandler) l1 l2 : at_pc (at_pc h l1) l2 = at_pc h l2.
Proof. reflexivity. Qed.

Lemma read_flag_write_flag name v ns flag :
  read_flag name ns = Some flag -> read_flag name (write_flag name v ns) = Some v.
Proof.
  unfold read_flag, write_flag.
  destruct (ns !! name) as [fm|] eqn:E; [|discriminate]. cbn.
  intros Hflag. rewrite lookup_insert_eq. cbn.
  apply list_lookup_insert_eq. eapply lookup_lt_Some; eassumption.
Qed.


Ltac step_rule Hh Hpc :=
  rewrite (step_eq _ _ _ _ Hh);
  unfold handleCmd, toBeLeader, leaderTimerCallback, sendMsgToLeader;
  rewrite Hpc; cbn [mbind option_bind].

Lemma step_L107 (w : World) (p : nat) (o : Oracle) (h : CmdLineHandler)
    (flag : Z) :
  procs w !! p = Some h -> pc h = L107_read_flag ->
  read_flag (userShareMemName_ h) (mappings w) = Some flag ->
  step SHARED_MEM_SIZE p o w
  = Some (after w p
            (if flag =? 0 then h else at_pc h L112_WaitForSingleObject)
            (mappings w) (mutexes w) [EvReadFlag flag]).
Proof.
  intros Hh Hpc Hflag. step_rule Hh Hpc. rewrite Hflag. cbn.
  destruct (flag =? 0); [|reflexivity].
  unfold timer_fires_again. rewrite <- Hpc, at_pc_same. reflexivity.
Qed.

Lemma step_L112 (w : World) (p : nat) (o : Oracle) (h : CmdLineHandler) :
  procs w !! p = Some h -> pc h = L112_WaitForSingleObject ->
  step SHARED_MEM_SIZE p o w
  = '(wait_result, m) ←
      WaitForSingleObject p
        (mutex_at (userShareMemMutexName_ h) (mutexes w)) INFINITE;
    Some (after w p (at_pc h L113_clear_flag) (mappings w)
            (<[userShareMemMutexName_ h := m]> (mutexes w))
            [EvWaitForSingleObject INFINITE wait_result]).
Proof.
  intros Hh Hpc. step_rule Hh Hpc.
  destruct (WaitForSingleObject _ _ _) as [[r m]|]; reflexivity.
Qed.

Lemma step_L113 (w : World) (p : nat) (o : Oracle) (h : CmdLineHandler) :
  procs w !! p = Some h -> pc h = L113_clear_flag ->
  step SHARED_MEM_SIZE p o w
  = Some (after w p (at_pc h L114_createNewSession)
            (write_flag (userShareMemName_ h) 0 (mappings w)) (mutexes w)
            [EvWriteFlag 0]).
Proof. intros Hh Hpc. step_rule Hh Hpc. reflexivity. Qed.

Lemma step_L114 (w : World) (p : nat) (o : Oracle) (h : CmdLineHandler) :
  procs w !! p = Some h -> pc h = L114_createNewSession ->
  step SHARED_MEM_SIZE p o w
  = Some (after w p (at_pc h L115_ReleaseMutex) (mappings w) (mutexes w)
            [EvCreateNewSession]).
Proof. intros Hh Hpc. step_rule Hh Hpc. reflexivity. Qed.

Lemma step_L115 (w : World) (p : nat) (o : Oracle) (h : CmdLineHandler) :
  procs w !! p = Some h -> pc h = L115_ReleaseMutex ->
  step SHARED_MEM_SIZE p o w
  = Some (after w p (at_pc h L107_read_flag) (mappings w)
            (<[userShareMemMutexName_ h :=
                 ReleaseMutex p
                   (mutex_at (userShareMemMutexName_ h) (mutexes w))]>
               (mutexes w))
            [EvReleaseMutex]).
Proof. intros Hh Hpc. step_rule Hh Hpc. reflexivity. Qed.

Lemma step_L124 (w : World) (p : nat) (o : Oracle) (h : CmdLineHandler) :
  procs w !! p = Some h -> pc h = L124_FindWindowA ->
  step SHARED_MEM_SIZE p o w
  = Some (match FindWindowA (Some "PuTTY-ND2_ConfigBox") None (desktop o) with
          | Some wnd => after w p (at_pc h L62_exit) (mappings w) (mutexes w)
                          [EvBringToForeground wnd]
          | None => after w p (at_pc h L130_WaitForSingleObject) (mappings w)
                      (mutexes w) []
          end).
Proof.
  intros Hh Hpc. step_rule Hh Hpc.
  destruct (FindWindowA _ _ _); reflexivity.
Qed.

Lemma step_L130 (w : World) (p : nat) (o : Oracle) (h : CmdLineHandler) :
  procs w !! p = Some h -> pc h = L130_WaitForSingleObject ->
  step SHARED_MEM_SIZE p o w
  = '(wait_result, m) ←
      WaitForSingleObject p
        (mutex_at (userShareMemMutexName_ h) (mutexes w)) 0;
    Some (after w p (at_pc h (after_wait wait_result)) (mappings w)
            (<[userShareMemMutexName_ h := m]> (mutexes w))
            [EvWaitForSingleObject 0 wait_result]).
Proof.
  intros Hh Hpc. step_rule Hh Hpc.
  destruct (WaitForSingleObject _ _ _) as [[r m]|]; reflexivity.
Qed.

Lemma step_L135 (w : World) (p : nat) (o : Oracle) (h : CmdLineHandler) :
  procs w !! p = Some h -> pc h = L135_set_flag ->
  step SHARED_MEM_SIZE p o w
  = Some (after w p (at_pc h L136_ReleaseMutex)
            (write_flag (userShareMemName_ h) 1 (mappings w)) (mutexes w)
            [EvWriteFlag 1]).
Proof. intros Hh Hpc. step_rule Hh Hpc. reflexivity. Qed.

Lemma step_L136 (w : World) (p : nat) (o : Oracle) (h : CmdLineHandler) :
  procs w !! p = Some h -> pc h = L136_ReleaseMutex ->
  step SHARED_MEM_SIZE p o w
  = Some (after w p (at_pc h L62_exit) (mappings w)
            (<[userShareMemMutexName_ h :=
                 ReleaseMutex p
                   (mutex_at (userShareMemMutexName_ h) (mutexes w))]>
               (mutexes w))
            [EvReleaseMutex]).
Proof. intros Hh Hpc. step_rule Hh Hpc. reflexivity. Qed.

Lemma step_L62 (w : World) (p : nat) (o : Oracle) (h : CmdLineHandler) :
  procs w !! p = Some h -> pc h = L62_exit ->
  step SHARED_MEM_SIZE p o w
  = Some (let out := exit p 0 h (mappings w) (mutexes w) [] in
          after w p (o_self out) (o_mappings out) (o_mutexes out)
            (o_events out)).
Proof. intros Hh Hpc. step_rule Hh Hpc. reflexivity. Qed.

Lemma run_cons (p : nat) (o : Oracle) (os : list Oracle) (w w1 : World) :
  step SHARED_MEM_SIZE p o w = Some w1 ->
  run SHARED_MEM_SIZE p (o :: os) w = run SHARED_MEM_SIZE p os w1.
Proof. intros Hs. cbn. rewrite Hs. reflexivity. Qed.

Lemma WaitForSingleObject_available (p : nat) (m : Mutex) (timeout : DWORD) :
  available_to p m ->
  exists wait_result m',
    WaitForSingleObject p m timeout = Some (wait_result, m')
    /\ (m = MutexFree -> wait_result = WAIT_OBJECT_0 /\ m' = MutexHeld p 0).
Proof.
  destruct m as [| |owner n]; cbn; intros Havail.
  - eexists _, _. split; [reflexivity|]. auto.
  - eexists _, _. split; [reflexivity|]. discriminate.
  - destruct (decide (owner = p)); [|contradiction].
    eexists _, _. split; [reflexivity|]. discriminate.
Qed.

(** The poll that finds the flag set, from the read to the release. *)
Lemma poll_signalled (w : World) (p : nat) (h : CmdLineHandler) (o : Oracle)
    (flag wait_result : Z) (m : Mutex) :
  let name := userShareMemName_ h in
  let mname := userShareMemMutexName_ h in
  procs w !! p = Some h ->
  pc h = L107_read_flag ->
  read_flag name (mappings w) = Some flag ->
  flag <> 0 ->
  WaitForSingleObject p (mutex_at mname (mutexes w)) INFINITE
  = Some (wait_result, m) ->
  run SHARED_MEM_SIZE p [o; o; o; o; o] w
  = Some (after w p h
            (write_flag name 0 (mappings w))
            (<[mname := ReleaseMutex p m]> (<[mname := m]> (mutexes w)))
            [EvReadFlag flag;
             EvWaitForSingleObject INFINITE wait_result;
             EvWriteFlag 0;
             EvCreateNewSession;
             EvReleaseMutex]).
Proof.
  intros name mname Hh Hpc Hflag Hnz Hwait.
  erewrite run_cons.
  2:{ rewrite (step_L107 _ _ _ _ _ Hh Hpc Hflag).
      destruct (Z.eqb_spec flag 0); [contradiction|reflexivity]. }
  erewrite run_cons.
  2:{ rewrite (step_L112 _ _ _ (at_pc h L112_WaitForSingleObject)
                 (after_lookup _ _ _ _ _ _ _ Hh) eq_refl).
      cbn [after mutexes at_pc userShareMemMutexName_].
      fold mname. rewrite Hwait. cbn [mbind option_bind].
      rewrite after_after. reflexivity. }
  erewrite run_cons.
  2:{ rewrite (step_L113 _ _ _ (at_pc h L113_clear_flag)
                 (after_lookup _ _ _ _ _ _ _ Hh) eq_refl).
      rewrite after_after. reflexivity. }
  erewrite run_cons.
  2:{ rewrite (step_L114 _ _ _ (at_pc h L114_createNewSession)
                 (after_lookup _ _ _ _ _ _ _ Hh) eq_refl).
      rewrite after_after. reflexivity. }
  erewrite run_cons.
  2:{ rewrite (step_L115 _ _ _ (at_pc h L115_ReleaseMutex)
                 (after_lookup _ _ _ _ _ _ _ Hh) eq_refl).
      rewrite after_after. reflexivity. }
  cbn [run after mappings mutexes at_pc userShareMemName_
       userShareMemMutexName_ sharedType_ app].
  fold name mname.
  unfold mutex_at at 1. rewrite lookup_insert_eq. cbn [default].
  rewrite at_pc_at_pc, <- Hpc, at_pc_same. reflexivity.
Qed.

(** C2.  A poll of the Leader first reads the flag, with no lock operation.
    If the flag is zero the poll is over: nothing but the read has happened,
    the mappings, the mutexes and the handler are as before.  If it is not
    zero, the poll goes on to [WaitForSingleObject(..., INFINITE)]: it
    cannot move while another process owns the mutex, and when the mutex
    can be taken the events of the poll are, in this order, the read, the
    acquisition, the write of 0 to the flag, [createNewSession] and
    [ReleaseMutex], after which the flag is 0 and the handler is back where
    it was. *)
Theorem leaderTimerCallback_protocol (w : World) (p : nat)
    (h : CmdLineHandler) (o : Oracle) (flag : Z) :
  let name := userShareMemName_ h in
  let mname := userShareMemMutexName_ h in
  procs w !! p = Some h ->
  pc h = L107_read_flag ->
  read_flag name (mappings w) = Some flag ->
  (flag = 0 ->
   step SHARED_MEM_SIZE p o w
   = Some (after w p h (mappings w) (mutexes w) [EvReadFlag 0]))
  /\ (flag <> 0 ->
      let w1 := after w p (at_pc h L112_WaitForSingleObject) (mappings w)
                  (mutexes w) [EvReadFlag flag] in
      step SHARED_MEM_SIZE p o w = Some w1
      /\ (owned_by_other p (mutex_at mname (mutexes w)) ->
          step SHARED_MEM_SIZE p o w1 = None)
      /\ (available_to p (mutex_at mname (mutexes w)) ->
          exists wait_result m,
            WaitForSingleObject p (mutex_at mname (mutexes w)) INFINITE
            = Some (wait_result, m)
            /\ run SHARED_MEM_SIZE p [o; o; o; o; o] w
               = Some (after w p h
                         (write_flag name 0 (mappings w))
                         (<[mname := ReleaseMutex p m]>
                            (<[mname := m]> (mutexes w)))
                         [EvReadFlag flag;
                          EvWaitForSingleObject INFINITE wait_result;
                          EvWriteFlag 0;
                          EvCreateNewSession;
                          EvReleaseMutex])
            /\ read_flag name (write_flag name 0 (mappings w)) = Some 0)).
Proof.
  intros name mname Hh Hpc Hflag. split.
  - intros ->. rewrite (step_L107 _ _ _ _ _ Hh Hpc Hflag). reflexivity.
  - intros Hnz w1. split; [|split].
    + rewrite (step_L107 _ _ _ _ _ Hh Hpc Hflag).
      destruct (Z.eqb_spec flag 0); [contradiction|reflexivity].
    + intros Hother. unfold w1.
      rewrite (step_L112 _ _ _ (at_pc h L112_WaitForSingleObject)
                 (after_lookup _ _ _ _ _ _ _ Hh) eq_refl).
      cbn [after mutexes at_pc userShareMemMutexName_]. fold mname.
      destruct (mutex_at mname (mutexes w)) as [| |owner n];
        cbn in Hother; try contradiction.
      cbn. destruct (decide (owner = p)); [contradiction|]. reflexivity.
    + intros Havail.
      destruct (WaitForSingleObject_available p _ INFINITE Havail)
        as (wait_result & m & Hwait & _).
      exists wait_result, m. split; [exact Hwait|].
      split; [|eapply read_flag_write_flag; eassumption].
      apply poll_signalled; assumption.
Qed.

Lemma WaitForSingleObject_busy (p : nat) (m : Mutex) :
  owned_by_other p m -> WaitForSingleObject p m 0 = Some (WAIT_TIMEOUT, m).
Proof.
  destruct m as [| |owner n]; cbn; try contradiction.
  intros Hne. destruct (decide (owner = p)); [contradiction|reflexivity].
Qed.

Lemma abandon_other (p : nat) (m : Mutex) : owned_by_other p m -> abandon p m = m.
Proof.
  destruct m as [| |owner n]; cbn; try contradiction.
  intros Hne. destruct (decide (owner = p)); [contradiction|reflexivity].
Qed.

Lemma CloseHandle_bytes (p : nat) (name n : string)
    (ns : gmap string FileMapping) (fm' : FileMapping) :
  CloseHandle p name ns !! n = Some fm' ->
  exists fm, ns !! n = Some fm /\ fm_bytes fm' = fm_bytes fm.
Proof.
  unfold CloseHandle. destruct (ns !! name) as [fm0|] eqn:E; [|eauto].
  case_decide.
  - destruct (decide (name = n)) as [->|Hne].
    + rewrite lookup_delete_eq. discriminate.
    + rewrite lookup_delete_ne by done. eauto.
  - destruct (decide (name = n)) as [->|Hne].
    + rewrite lookup_insert_eq. intros [= <-]. eauto.
    + rewrite lookup_insert_ne by done. eauto.
Qed.

Lemma mutex_at_insert_same (name n : string) (ms : gmap string Mutex) :
  mutex_at n (<[name := mutex_at name ms]> ms) = mutex_at n ms.
Proof.
  unfold mutex_at. destruct (decide (name = n)) as [->|Hne].
  - rewrite lookup_insert_eq. reflexivity.
  - rewrite lookup_insert_ne by done. reflexivity.
Qed.

(** C6.  A Follower that finds no window and whose zero-wait acquisition
    fails because another process owns the mutex returns from
    [sendMsgToLeader] with the mappings untouched and every mutex as it
    was, its only event being the failed wait: no write, no [fatalbox].
    Its next step is [exit(0)], which leaves the bytes of every mapping
    unchanged. *)
Theorem sendMsgToLeader_lock_busy (w : World) (p : nat) (h : CmdLineHandler)
    (o : Oracle) :
  let mname := userShareMemMutexName_ h in
  procs w !! p = Some h ->
  pc h = L124_FindWindowA ->
  FindWindowA (Some "PuTTY-ND2_ConfigBox") None (desktop o) = None ->
  owned_by_other p (mutex_at mname (mutexes w)) ->
  exists w2 w3,
    run SHARED_MEM_SIZE p [o; o] w = Some w2
    /\ procs w2 !! p = Some (at_pc h L62_exit)
    /\ mappings w2 = mappings w
    /\ (forall n, mutex_at n (mutexes w2) = mutex_at n (mutexes w))
    /\ log w2 = log w ++ [(p, EvWaitForSingleObject 0 WAIT_TIMEOUT)]
    /\ step SHARED_MEM_SIZE p o w2 = Some w3
    /\ procs w3 !! p = Some (at_pc h (Exited 0))
    /\ log w3 = log w ++ [(p, EvWaitForSingleObject 0 WAIT_TIMEOUT);
                          (p, EvExit 0)]
    /\ (forall n, mutex_at n (mutexes w3) = mutex_at n (mutexes w))
    /\ (forall n fm3, mappings w3 !! n = Some fm3 ->
          exists fm, mappings w !! n = Some fm /\ fm_bytes fm3 = fm_bytes fm).
Proof.
  intros mname Hh Hpc Hfind Hbusy.
  pose proof (WaitForSingleObject_busy _ _ Hbusy) as Hwait.
  eexists. eexists.
  split.
  { erewrite run_cons.
    2:{ rewrite (step_L124 _ _ _ _ Hh Hpc), Hfind. reflexivity. }
    erewrite run_cons.
    2:{ rewrite (step_L130 _ _ _ (at_pc h L130_WaitForSingleObject)
                   (after_lookup _ _ _ _ _ _ _ Hh) eq_refl).
        cbn [after mutexes at_pc userShareMemMutexName_]. fold mname.
        rewrite Hwait. cbn [mbind option_bind]. rewrite after_after.
        reflexivity. }
    reflexivity. }
  split; [apply (after_lookup _ _ _ _ _ _ _ Hh)|].
  split; [reflexivity|].
  split; [intros n; apply mutex_at_insert_same|].
  split; [reflexivity|].
  split.
  { rewrite (step_L62 _ _ _ (at_pc h L62_exit)
               (after_lookup _ _ _ _ _ _ _ Hh) eq_refl).
    cbv zeta. unfold exit. cbn [o_self o_mappings o_mutexes o_events].
    rewrite after_after. reflexivity. }
  split; [apply (after_lookup _ _ _ _ _ _ _ Hh)|].
  split; [reflexivity|].
  split.
  - intros n. cbn [after mutexes at_pc userShareMemMutexName_]. fold mname.
    rewrite lookup_insert_eq. rewrite abandon_other by assumption.
    rewrite insert_insert_eq. apply mutex_at_insert_same.
  - intros n fm3. cbn [after mappings at_pc userShareMemName_].
    apply CloseHandle_bytes.
Qed.

(** C7, the lookup being by class name.  When [FindWindowA] finds a window
    of class [PuTTY-ND2_ConfigBox] (whatever its title), [sendMsgToLeader]
    brings that window to the foreground and returns: its single event is
    [bringToForeground]; mappings and mutexes are untouched, the flag is
    neither read nor written, and no wait is made. *)
Theorem sendMsgToLeader_window_found (w : World) (p : nat)
    (h : CmdLineHandler) (o : Oracle) (wnd : Z) :
  procs w !! p = Some h ->
  pc h = L124_FindWindowA ->
  FindWindowA (Some "PuTTY-ND2_ConfigBox") None (desktop o) = Some wnd ->
  step SHARED_MEM_SIZE p o w
  = Some (after w p (at_pc h L62_exit) (mappings w) (mutexes w)
            [EvBringToForeground wnd]).
Proof.
  intros Hh Hpc Hfind. rewrite (step_L124 _ _ _ _ Hh Hpc), Hfind. reflexivity.
Qed.

Lemma after_wait_spec (wait_result : DWORD) :
  (wait_result = WAIT_OBJECT_0 /\ after_wait wait_result = L135_set_flag)
  \/ (wait_result <> WAIT_OBJECT_0 /\ after_wait wait_result = L62_exit).
Proof.
  unfold after_wait. destruct (Z.eqb_spec WAIT_OBJECT_0 wait_result); cbn; auto.
Qed.

(** C10.  After the zero-wait acquisition of line 130 the Follower goes on
    to set the flag exactly when the result is [WAIT_OBJECT_0]; it then
    writes 1 and releases the mutex.  For every other result it returns at
    once: the mutex is what the wait left (owned by the Follower itself
    when the wait found it abandoned and returned [WAIT_ABANDONED]), and
    the only step left is [exit(0)], with no write of the flag and no
    [ReleaseMutex]. *)
Theorem sendMsgToLeader_wait_result (w : World) (p : nat)
    (h : CmdLineHandler) (o : Oracle) :
  let name := userShareMemName_ h in
  let mname := userShareMemMutexName_ h in
  procs w !! p = Some h ->
  pc h = L130_WaitForSingleObject ->
  (forall wait_result : DWORD,
      after_wait wait_result = L135_set_flag <-> wait_result = WAIT_OBJECT_0)
  /\ (mutex_at mname (mutexes w) = MutexAbandoned ->
      WaitForSingleObject p (mutex_at mname (mutexes w)) 0
      = Some (WAIT_ABANDONED, MutexHeld p 0))
  /\ (forall wait_result m,
        WaitForSingleObject p (mutex_at mname (mutexes w)) 0
        = Some (wait_result, m) ->
        let w1 := after w p (at_pc h (after_wait wait_result)) (mappings w)
                    (<[mname := m]> (mutexes w))
                    [EvWaitForSingleObject 0 wait_result] in
        step SHARED_MEM_SIZE p o w = Some w1
        /\ (wait_result = WAIT_OBJECT_0 ->
            run SHARED_MEM_SIZE p [o; o] w1
            = Some (after w p (at_pc h L62_exit)
                      (write_flag name 1 (mappings w))
                      (<[mname := ReleaseMutex p m]> (<[mname := m]> (mutexes w)))
                      [EvWaitForSingleObject 0 wait_result;
                       EvWriteFlag 1; EvReleaseMutex]))
        /\ (wait_result <> WAIT_OBJECT_0 ->
            procs w1 !! p = Some (at_pc h L62_exit)
            /\ mutex_at mname (mutexes w1) = m
            /\ step SHARED_MEM_SIZE p o w1
               = Some (after w p (at_pc h (Exited 0))
                         (CloseHandle p name (mappings w))
                         (<[mname := abandon p m]> (<[mname := m]> (mutexes w)))
                         [EvWaitForSingleObject 0 wait_result; EvExit 0]))).
Proof.
  intros name mname Hh Hpc. split; [|split].
  - intros r. destruct (after_wait_spec r) as [[-> ->]|[Hne ->]]; [tauto|].
    split; [discriminate|contradiction].
  - intros ->. reflexivity.
  - intros r m Hwait w1.
    assert (Hstep : step SHARED_MEM_SIZE p o w = Some w1).
    { rewrite (step_L130 _ _ _ _ Hh Hpc). fold mname. rewrite Hwait.
      reflexivity. }
    split; [exact Hstep|]. split.
    + intros ->. unfold w1. change (after_wait WAIT_OBJECT_0) with L135_set_flag.
      erewrite run_cons.
      2:{ rewrite (step_L135 _ _ _ (at_pc h L135_set_flag)
                     (after_lookup _ _ _ _ _ _ _ Hh) eq_refl).
          rewrite after_after. reflexivity. }
      erewrite run_cons.
      2:{ rewrite (step_L136 _ _ _ (at_pc h L136_ReleaseMutex)
                     (after_lookup _ _ _ _ _ _ _ Hh) eq_refl).
          rewrite after_after. reflexivity. }
      cbn [run after mappings mutexes at_pc userShareMemName_
           userShareMemMutexName_ app].
      fold name mname. unfold mutex_at at 1. rewrite lookup_insert_eq.
      reflexivity.
    + intros Hne. unfold w1.
      destruct (after_wait_spec r) as [[-> _]|[_ ->]]; [contradiction|].
      split; [apply (after_lookup _ _ _ _ _ _ _ Hh)|].
      split.
      { cbn [after mutexes]. unfold mutex_at. rewrite lookup_insert_eq.
        reflexivity. }
      rewrite (step_L62 _ _ _ (at_pc h L62_exit)
                 (after_lookup _ _ _ _ _ _ _ Hh) eq_refl).
      cbv zeta. unfold exit. cbn [o_self o_mappings o_mutexes o_events].
      rewrite after_after.
      cbn [after mappings mutexes at_pc userShareMemName_
           userShareMemMutexName_ app].
      fold name mname. rewrite lookup_insert_eq. reflexivity.
Qed.
End Steps.

(** ** The role *)

Lemma sharedType_of_spec (last_error : DWORD) :
  sharedType_of last_error = SHARED_TYPE_FOLLOWER
  <-> last_error = ERROR_ALREADY_EXISTS.
Proof.
  unfold sharedType_of.
  destruct (Z.eqb_spec last_error ERROR_ALREADY_EXISTS); split;
    intros; congruence.
Qed.

Lemma role_kept_step SZ w p o w' p0 h0 r :
  election_inv w -> step SZ p o w = Some w' ->
  procs w !! p0 = Some h0 -> sharedType_ h0 = Some r ->
  exists h0', procs w' !! p0 = Some h0' /\ sharedType_ h0' = Some r.
Proof.
  intros Hinv Hstep H0 Hr.
  apply step_inv in Hstep as (h & out & Hh & Hout & ->). cbn.
  destruct (decide (p0 = p)) as [->|Hne].
  - rewrite list_lookup_insert_eq by (eapply lookup_lt_Some; eassumption).
    eexists; split; [reflexivity|]. simplify_eq.
    rewrite (handleCmd_sharedType _ _ _ _ _ _ _ Hout); [assumption|].
    intros Hpc. rewrite (inv_fresh _ Hinv _ _ Hh Hpc) in Hr. discriminate.
  - rewrite list_lookup_insert_ne by congruence. eauto.
Qed.

Lemma role_kept_exec SZ sched w p0 h0 r :
  election_inv w ->
  procs w !! p0 = Some h0 -> sharedType_ h0 = Some r ->
  exists h0', procs (exec SZ sched w) !! p0 = Some h0'
              /\ sharedType_ h0' = Some r.
Proof.
  intros Hinv H0 Hr.
  cut (election_inv (exec SZ sched w)
       /\ exists h0', procs (exec SZ sched w) !! p0 = Some h0'
                      /\ sharedType_ h0' = Some r); [tauto|].
  apply (exec_invariant_any SZ
           (fun w' => election_inv w'
                      /\ exists h0', procs w' !! p0 = Some h0'
                                     /\ sharedType_ h0' = Some r)).
  - intros w1 p o w2 [Hinv1 (h1 & H1 & Hr1)] Hstep. split.
    + eapply election_inv_step; eassumption.
    + eapply role_kept_step; eassumption.
  - eauto.
Qed.

(** C5.  In every reachable world a process that has not yet made its
    [CreateFileMapping] call has no role.  When the call succeeds, the role
    it is given is Follower if and only if the last error is
    [ERROR_ALREADY_EXISTS], which is the case exactly when a mapping of that
    name existed, and Leader otherwise.  A role once given is the role of
    the process in every later world. *)
Theorem toBeLeader_role (SHARED_MEM_SIZE sizeof_mem sizeof_mutex : nat)
    (accounts : list (option string)) (sched : list (nat * Oracle))
    (p : nat) (h : CmdLineHandler) :
  let w := exec SHARED_MEM_SIZE sched
             (launch sizeof_mem sizeof_mutex accounts) in
  let name := userShareMemName_ h in
  procs w !! p = Some h ->
  (pc h = L73_CreateFileMapping -> sharedType_ h = None)
  /\ (forall o, pc h = L73_CreateFileMapping ->
        CreateFileMapping_fails o = false ->
        exists last_error ns',
          CreateFileMapping p SHARED_MEM_SIZE name false (mappings w)
          = (true, last_error, ns')
          /\ (last_error = ERROR_ALREADY_EXISTS
              <-> is_Some (mappings w !! name))
          /\ step SHARED_MEM_SIZE p o w
             = Some (after w p
                       (mkCmdLineHandler name (userShareMemMutexName_ h)
                          (Some (sharedType_of last_error)) L86_MapViewOfFile)
                       ns' (mutexes w) [EvCreateFileMapping last_error])
          /\ (sharedType_of last_error = SHARED_TYPE_FOLLOWER
              <-> last_error = ERROR_ALREADY_EXISTS)
          /\ (sharedType_of last_error = SHARED_TYPE_LEADER
              <-> last_error <> ERROR_ALREADY_EXISTS))
  /\ (forall r sched', sharedType_ h = Some r ->
        exists h', procs (exec SHARED_MEM_SIZE sched' w) !! p = Some h'
                   /\ sharedType_ h' = Some r).
Proof.
  intros w name Hh.
  pose proof (election_inv_exec SHARED_MEM_SIZE sizeof_mem sizeof_mutex
                accounts sched) as Hinv. fold w in Hinv.
  split; [|split].
  - intros Hpc. eapply inv_fresh; eassumption.
  - intros o Hpc Hok.
    destruct (CreateFileMapping p SHARED_MEM_SIZE name false (mappings w))
      as [[b e] ns'] eqn:Hc.
    pose proof Hc as Hc'.
    apply CreateFileMapping_cases in Hc'
        as [(? & ? & ?)|[(? & ? & ? & fm & Hfm & ?)|(? & ? & ? & Hnone & ?)]];
      [discriminate| |]; subst b e.
    + exists ERROR_ALREADY_EXISTS, ns'. split; [reflexivity|].
      split; [split; [eauto|reflexivity]|].
      split.
      { rewrite (step_eq _ _ _ _ _ Hh). unfold handleCmd, toBeLeader.
        rewrite Hpc, Hok. fold name. rewrite Hc. reflexivity. }
      split; [apply sharedType_of_spec|].
      split; [discriminate|intros Hne; contradiction].
    + exists ERROR_SUCCESS, ns'. split; [reflexivity|].
      split.
      { split; [discriminate|]. rewrite Hnone. intros [? ?]. discriminate. }
      split.
      { rewrite (step_eq _ _ _ _ _ Hh). unfold handleCmd, toBeLeader.
        rewrite Hpc, Hok. fold name. rewrite Hc. reflexivity. }
      split; [apply sharedType_of_spec|].
      split; [discriminate|reflexivity].
  - intros r sched' Hr. eapply role_kept_exec; eassumption.
Qed.

(** ** The region beyond the flag *)

Lemma memsets_of_app p l1 l2 :
  memsets_of p (l1 ++ l2) = (memsets_of p l1 + memsets_of p l2)%nat.
Proof.
  unfold memsets_of, count_event, events_of.
  rewrite filter_app, fmap_app, filter_app, length_app. reflexivity.
Qed.

Lemma memsets_of_other p q evs :
  q <> p -> memsets_of q (pair p <$> evs) = 0%nat.
Proof.
  intros Hne. unfold memsets_of, count_event, events_of.
  induction evs as [|e evs IH]; [reflexivity|].
  cbn [fmap list_fmap]. rewrite filter_cons_False by (cbn; congruence).
  exact IH.
Qed.

Lemma memsets_of_self p evs :
  memsets_of p (pair p <$> evs) = count_event EvMemset evs.
Proof.
  unfold memsets_of, events_of. f_equal.
  induction evs as [|e evs IH]; [reflexivity|].
  cbn [fmap list_fmap]. rewrite filter_cons_True by reflexivity.
  cbn [fmap list_fmap]. f_equal. exact IH.
Qed.

(** The [memset] events of one step: one at line 97 for a Leader, none
    otherwise. *)
Lemma handleCmd_memset SZ p o h ns ms out :
  handleCmd SZ p o h ns ms = Some out ->
  (count_event EvMemset (o_events out) = 0%nat
   /\ (before_init (pc h) = false -> before_init (pc (o_self out)) = false))
  \/ (count_event EvMemset (o_events out) = 1%nat
      /\ pc h = L97_isLeader
      /\ sharedType_ h = Some SHARED_TYPE_LEADER
      /\ before_init (pc (o_self out)) = false).
Proof.
  intros H. handle_cases H.
  all: try (left; split; [reflexivity|cbn; congruence]).
  all: try (left; split; [reflexivity|]; intros _;
            match goal with
            | E : pc ?h = _ |- context [pc ?h] => rewrite E; reflexivity
            end).
  all: try (left; split; [reflexivity|]; intros _;
            match goal with
            | |- context [after_wait ?r] =>
                destruct (after_wait_spec r) as [[_ ->]|[_ ->]]; reflexivity
            end).
  right. unfold isLeader in *. case_bool_decide; [|discriminate].
  repeat split; assumption.
Qed.

Lemma memset_inv_step SZ w p o w' :
  election_inv w -> memset_inv w -> step SZ p o w = Some w' -> memset_inv w'.
Proof.
  intros Hinv [Honce Hdone Hknown] Hstep.
  apply step_inv in Hstep as (h & out & Hh & Hout & ->).
  assert (Hrole : pc h <> L73_CreateFileMapping ->
                  sharedType_ (o_self out) = sharedType_ h)
    by (apply (handleCmd_sharedType _ _ _ _ _ _ _ Hout)).
  assert (Hp : memsets_of p (log w ++ (pair p <$> o_events out))
               = (memsets_of p (log w) + count_event EvMemset (o_events out))%nat)
    by (rewrite memsets_of_app, memsets_of_self; reflexivity).
  assert (Hq : forall q, q <> p ->
               memsets_of q (log w ++ (pair p <$> o_events out))
               = memsets_of q (log w)).
  { intros q Hne. rewrite memsets_of_app, memsets_of_other by assumption. lia. }
  assert (Hzero : pc h = L97_isLeader -> memsets_of p (log w) = 0%nat).
  { intros Hpc. pose proof (Honce p) as Hle.
    destruct (memsets_of p (log w)) as [|n] eqn:E; [reflexivity|].
    destruct (Hdone p h Hh) as [_ Hb]; [rewrite E; lia|].
    rewrite Hpc in Hb. discriminate. }
  destruct (handleCmd_memset _ _ _ _ _ _ _ Hout)
    as [[Hcount Hkeep]|(Hcount & Hpc & Hl & Hafter)].
  - split; cbn [log procs].
    + intros q. destruct (decide (q = p)) as [->|Hne].
      * rewrite Hp, Hcount. pose proof (Honce p). lia.
      * rewrite (Hq q Hne). apply Honce.
    + intros q hq Hlook Hge.
      destruct (lookup_after_step _ _ _ _ _ _ Hh Hlook) as [[-> ->]|[Hne Hlook']].
      * rewrite Hp, Hcount in Hge.
        destruct (Hdone p h Hh) as [Hl Hb]; [lia|].
        split; [|auto].
        rewrite Hrole; [assumption|]. intros Hpc. rewrite Hpc in Hb. discriminate.
      * rewrite (Hq q Hne) in Hge. eauto.
    + intros q Hge. destruct (decide (q = p)) as [->|Hne].
      * rewrite list_lookup_insert_eq by (eapply lookup_lt_Some; eassumption). eauto.
      * rewrite list_lookup_insert_ne by congruence.
        rewrite (Hq q Hne) in Hge. auto.
  - split; cbn [log procs].
    + intros q. destruct (decide (q = p)) as [->|Hne].
      * rewrite Hp, Hcount, (Hzero Hpc). lia.
      * rewrite (Hq q Hne). apply Honce.
    + intros q hq Hlook Hge.
      destruct (lookup_after_step _ _ _ _ _ _ Hh Hlook) as [[-> ->]|[Hne Hlook']].
      * split; [|assumption]. rewrite Hrole; [assumption|]. congruence.
      * rewrite (Hq q Hne) in Hge. eauto.
    + intros q Hge. destruct (decide (q = p)) as [->|Hne].
      * rewrite list_lookup_insert_eq by (eapply lookup_lt_Some; eassumption). eauto.
      * rewrite list_lookup_insert_ne by congruence.
        rewrite (Hq q Hne) in Hge. auto.
Qed.

Lemma memset_inv_launch s1 s2 accounts : memset_inv (launch s1 s2 accounts).
Proof.
  split; cbn [launch start log procs]; unfold memsets_of; cbn.
  - intros p. lia.
  - intros p h _ Hge. lia.
  - intros p Hge. lia.
Qed.

Lemma memset_inv_exec SZ s1 s2 accounts sched :
  memset_inv (exec SZ sched (launch s1 s2 accounts)).
Proof.
  cut (election_inv (exec SZ sched (launch s1 s2 accounts))
       /\ memset_inv (exec SZ sched (launch s1 s2 accounts))); [tauto|].
  apply (exec_invariant_any SZ (fun w => election_inv w /\ memset_inv w)).
  - intros w p o w' [Hinv Hm] Hstep. split.
    + eapply election_inv_step; eassumption.
    + eapply memset_inv_step; eassumption.
  - split; [apply election_inv_launch|apply memset_inv_launch].
Qed.

(** What a step does to the bytes of a mapping that exists before and
    after it: only a [memset] touches bytes beyond the flag. *)
Lemma handleCmd_bytes SZ p o h ns ms out n fm fm' :
  handleCmd SZ p o h ns ms = Some out ->
  count_event EvMemset (o_events out) = 0%nat ->
  ns !! n = Some fm -> o_mappings out !! n = Some fm' ->
  same_beyond_flag fm fm'.
Proof.
  assert (Hclose : forall self name (m : gmap string FileMapping) f f',
            m !! n = Some f -> CloseHandle self name m !! n = Some f' ->
            same_beyond_flag f f').
  { intros self name m f f' Hf Hf'.
    apply CloseHandle_bytes in Hf' as (f0 & Hf0 & Hb).
    unfold same_beyond_flag. congruence. }
  assert (Hwrite : forall name v (m : gmap string FileMapping) f f',
            m !! n = Some f -> write_flag name v m !! n = Some f' ->
            same_beyond_flag f f').
  { intros name v m f f'. unfold write_flag, same_beyond_flag.
    destruct (m !! name) as [fm0|] eqn:E; [|congruence].
    destruct (decide (name = n)) as [->|Hne].
    - rewrite E, lookup_insert_eq. intros [= <-] [= <-]. cbn.
      destruct (fm_bytes fm0); reflexivity.
    - rewrite lookup_insert_ne by done. congruence. }
  intros H Hcount Hn Hn'. handle_cases H; eauto.
  all: try (unfold same_beyond_flag; congruence).
  all: try discriminate.
  - cfm_cases; eauto.
  - cfm_cases.
    + destruct (decide (userShareMemName_ h = n)) as [<-|Hne].
      * rewrite lookup_insert_eq in Hn'. unfold same_beyond_flag. simplify_eq.
        reflexivity.
      * rewrite lookup_insert_ne in Hn' by done. unfold same_beyond_flag. congruence.
    + destruct (decide (userShareMemName_ h = n)) as [<-|Hne]; [congruence|].
      rewrite lookup_insert_ne in Hn' by done. unfold same_beyond_flag. congruence.
Qed.

(** ** Coalescing of the signals *)

Section Coalescing.
Variable SHARED_MEM_SIZE : nat.

Lemma read_flag_set (name : string) (v : Z) (ns : gmap string FileMapping)
    (fm : FileMapping) :
  ns !! name = Some fm -> (0 < List.length (fm_bytes fm))%nat ->
  read_flag name (write_flag name v ns) = Some v.
Proof.
  intros Hfm Hlen. unfold read_flag, write_flag. rewrite Hfm, lookup_insert_eq.
  cbn. apply list_lookup_insert_eq. exact Hlen.
Qed.

Lemma mutex_at_insert_eq (n : string) (m : Mutex) (ms : gmap string Mutex) :
  mutex_at n (<[n := m]> ms) = m.
Proof. unfold mutex_at. rewrite lookup_insert_eq. reflexivity. Qed.

Lemma ReleaseMutex_own (p : nat) : ReleaseMutex p (MutexHeld p 0) = MutexFree.
Proof. cbn. rewrite decide_True by reflexivity. reflexivity. Qed.

Lemma region_after_notify (l f : nat) (name : string)
    (ns : gmap string FileMapping) (fm : FileMapping) :
  l <> f -> ns !! name = Some fm -> l ∈ fm_handles fm ->
  (0 < List.length (fm_bytes fm))%nat ->
  exists fm', CloseHandle f name (write_flag name 1 ns) !! name = Some fm'
              /\ l ∈ fm_handles fm'
              /\ fm_bytes fm' = <[0%nat := 1]> (fm_bytes fm).
Proof.
  intros Hne Hfm Hl Hlen.
  assert (Hw : write_flag name 1 ns !! name
               = Some (mkFileMapping (<[0%nat := 1]> (fm_bytes fm)) (fm_handles fm))).
  { unfold write_flag. rewrite Hfm. apply lookup_insert_eq. }
  destruct (keeps_handle_CloseHandle l f name _ Hne _ _ Hw Hl)
    as (fm' & Hfm' & Hl').
  exists fm'. split; [assumption|]. split; [assumption|].
  apply CloseHandle_bytes in Hfm' as (fm0 & Hfm0 & ->).
  rewrite Hw in Hfm0. injection Hfm0 as <-. reflexivity.
Qed.

(** One Follower's [Notify()] between two polls. *)
Lemma notify_one (name mname : string) (l f : nat) (hf : CmdLineHandler)
    (o : Oracle) (w : World) (fm : FileMapping) :
  l <> f ->
  procs w !! f = Some hf -> pc hf = L124_FindWindowA ->
  userShareMemName_ hf = name -> userShareMemMutexName_ hf = mname ->
  mappings w !! name = Some fm -> l ∈ fm_handles fm ->
  (0 < List.length (fm_bytes fm))%nat ->
  mutex_at mname (mutexes w) = MutexFree ->
  FindWindowA (Some "PuTTY-ND2_ConfigBox") None (desktop o) = None ->
  exists w',
    run SHARED_MEM_SIZE f [o; o; o; o; o] w = Some w'
    /\ log w' = log w ++ [(f, EvWaitForSingleObject 0 WAIT_OBJECT_0);
                          (f, EvWriteFlag 1); (f, EvReleaseMutex);
                          (f, EvExit 0)]
    /\ read_flag name (mappings w') = Some 1
    /\ (exists fm', mappings w' !! name = Some fm' /\ l ∈ fm_handles fm'
                    /\ (0 < List.length (fm_bytes fm'))%nat)
    /\ mutex_at mname (mutexes w') = MutexFree
    /\ (forall q, q <> f -> procs w' !! q = procs w !! q).
Proof.
  intros Hne Hf Hpc Hname Hmname Hfm Hl Hlen Hfree Hfind.
  eexists. split.
  { erewrite run_cons.
    2:{ rewrite (step_L124 _ _ _ _ _ Hf Hpc), Hfind. reflexivity. }
    erewrite run_cons.
    2:{ rewrite (step_L130 _ _ _ _ (at_pc hf L130_WaitForSingleObject)
                   (after_lookup _ _ _ _ _ _ _ Hf) eq_refl).
        cbn [after mutexes at_pc userShareMemMutexName_].
        rewrite Hmname, Hfree. cbn [WaitForSingleObject mbind option_bind].
        rewrite after_after. reflexivity. }
    change (after_wait WAIT_OBJECT_0) with L135_set_flag.
    erewrite run_cons.
    2:{ rewrite (step_L135 _ _ _ _ (at_pc hf L135_set_flag)
                   (after_lookup _ _ _ _ _ _ _ Hf) eq_refl).
        rewrite after_after. reflexivity. }
    erewrite run_cons.
    2:{ rewrite (step_L136 _ _ _ _ (at_pc hf L136_ReleaseMutex)
                   (after_lookup _ _ _ _ _ _ _ Hf) eq_refl).
        rewrite after_after. reflexivity. }
    erewrite run_cons.
    2:{ rewrite (step_L62 _ _ _ _ (at_pc hf L62_exit)
                   (after_lookup _ _ _ _ _ _ _ Hf) eq_refl).
        cbv zeta. unfold exit. cbn [o_self o_mappings o_mutexes o_events].
        rewrite after_after. reflexivity. }
    reflexivity. }
  cbn [after log mappings mutexes procs at_pc userShareMemName_
       userShareMemMutexName_ app fmap list_fmap].
  rewrite Hname, Hmname.
  destruct (region_after_notify l f name _ fm Hne Hfm Hl Hlen)
    as (fm' & Hfm' & Hl' & Hbytes).
  split; [reflexivity|].
  split.
  { unfold read_flag. rewrite Hfm'. cbn. rewrite Hbytes.
    apply list_lookup_insert_eq. exact Hlen. }
  split.
  { exists fm'. split; [assumption|]. split; [assumption|].
    rewrite Hbytes, length_insert. exact Hlen. }
  split.
  { rewrite lookup_insert_eq, !mutex_at_insert_eq, ReleaseMutex_own.
    reflexivity. }
  intros q Hq. apply list_lookup_insert_ne. congruence.
Qed.

Lemma count_event_app (e : Event) (l1 l2 : list Event) :
  count_event e (l1 ++ l2) = (count_event e l1 + count_event e l2)%nat.
Proof. unfold count_event. rewrite filter_app, length_app. reflexivity. Qed.

(** Any number of Followers notifying between two polls. *)
Lemma notify_all_between_polls (name mname : string) (l : nat) (o : Oracle)
    (fs : list nat) :
  FindWindowA (Some "PuTTY-ND2_ConfigBox") None (desktop o) = None ->
  forall w,
    NoDup fs -> l ∉ fs -> between_polls name mname l fs w ->
    exists w1 evs,
      notify_all SHARED_MEM_SIZE o fs w = Some w1
      /\ log w1 = log w ++ evs
      /\ count_event (EvWriteFlag 1) (snd <$> evs) = List.length fs
      /\ count_event (EvWriteFlag 0) (snd <$> evs) = 0%nat
      /\ count_event EvCreateNewSession (snd <$> evs) = 0%nat
      /\ (fs <> [] \/ read_flag name (mappings w) = Some 1 ->
          read_flag name (mappings w1) = Some 1)
      /\ mutex_at mname (mutexes w1) = MutexFree
      /\ (forall q, q ∉ fs -> procs w1 !! q = procs w !! q).
Proof.
  intros Hfind. induction fs as [|f fs IH]; intros w Hnd Hl Hbp.
  - exists w, []. cbn. rewrite app_nil_r.
    repeat split; try reflexivity.
    + intros [?|?]; [contradiction|assumption].
    + apply (bp_mutex _ _ _ _ _ Hbp).
  - apply NoDup_cons in Hnd as [Hf Hnd].
    apply not_elem_of_cons in Hl as [Hlf Hl].
    destruct (bp_followers _ _ _ _ _ Hbp f) as (hf & Hhf & Hpc & Hn & Hm);
      [left|].
    destruct (bp_region _ _ _ _ _ Hbp) as (fm & Hfm & Hin & Hlen).
    destruct (notify_one name mname l f hf o w fm Hlf Hhf Hpc Hn Hm Hfm Hin
                Hlen (bp_mutex _ _ _ _ _ Hbp) Hfind)
      as (w' & Hrun & Hlog & Hflag & Hregion & Hfree & Hother).
    destruct (IH w' Hnd Hl) as (w1 & evs & Hall & Hlog1 & Hc1 & Hc0 & Hcn
                                & Hflag1 & Hfree1 & Hother1).
    { split; [|assumption..].
      intros f' Hf'. rewrite Hother by (intros ->; contradiction).
      apply (bp_followers _ _ _ _ _ Hbp). right. assumption. }
    exists w1, ([(f, EvWaitForSingleObject 0 WAIT_OBJECT_0);
                 (f, EvWriteFlag 1); (f, EvReleaseMutex); (f, EvExit 0)]
                ++ evs).
    split; [cbn [notify_all]; rewrite Hrun; exact Hall|].
    split; [rewrite Hlog1, Hlog, <- app_assoc; reflexivity|].
    rewrite fmap_app, !count_event_app, Hc1, Hc0, Hcn.
    split; [reflexivity|]. split; [reflexivity|]. split; [reflexivity|].
    split; [intros _; apply Hflag1; right; assumption|].
    split; [assumption|].
    intros q Hq. apply not_elem_of_cons in Hq as [Hqf Hq].
    rewrite Hother1 by assumption. apply Hother. assumption.
Qed.

(** C4.  Between two polls of the Leader, let any number k >= 1 of
    Followers run [sendMsgToLeader] with success, one after the other: they
    make k writes of 1 to the flag and no call of [createNewSession].  The
    next poll then finds the flag set, calls [createNewSession] exactly
    once, and leaves the flag at 0. *)
Theorem signals_coalesce (w : World) (o : Oracle) (l : nat)
    (hl : CmdLineHandler) (fs : list nat) :
  let name := userShareMemName_ hl in
  let mname := userShareMemMutexName_ hl in
  procs w !! l = Some hl ->
  pc hl = L107_read_flag ->
  NoDup fs -> l ∉ fs -> fs <> [] ->
  between_polls name mname l fs w ->
  FindWindowA (Some "PuTTY-ND2_ConfigBox") None (desktop o) = None ->
  exists w1 w2 evs,
    notify_all SHARED_MEM_SIZE o fs w = Some w1
    /\ log w1 = log w ++ evs
    /\ count_event (EvWriteFlag 1) (snd <$> evs) = List.length fs
    /\ count_event EvCreateNewSession (snd <$> evs) = 0%nat
    /\ read_flag name (mappings w1) = Some 1
    /\ run SHARED_MEM_SIZE l [o; o; o; o; o] w1 = Some w2
    /\ log w2 = log w1 ++ [(l, EvReadFlag 1);
                           (l, EvWaitForSingleObject INFINITE WAIT_OBJECT_0);
                           (l, EvWriteFlag 0);
                           (l, EvCreateNewSession);
                           (l, EvReleaseMutex)]
    /\ read_flag name (mappings w2) = Some 0.
Proof.
  intros name mname Hhl Hpc Hnd Hl Hne Hbp Hfind.
  destruct (notify_all_between_polls name mname l o fs Hfind w Hnd Hl Hbp)
    as (w1 & evs & Hall & Hlog1 & Hc1 & _ & Hcn & Hflag1 & Hfree1 & Hother1).
  specialize (Hflag1 (or_introl Hne)).
  assert (Hhl1 : procs w1 !! l = Some hl) by (rewrite Hother1; assumption).
  assert (Hwait : WaitForSingleObject l (mutex_at mname (mutexes w1)) INFINITE
                  = Some (WAIT_OBJECT_0, MutexHeld l 0))
    by (rewrite Hfree1; reflexivity).
  pose proof (poll_signalled SHARED_MEM_SIZE w1 l hl o 1 WAIT_OBJECT_0
                (MutexHeld l 0) Hhl1 Hpc Hflag1 ltac:(discriminate) Hwait)
    as Hpoll.
  eexists w1, _, evs.
  split; [exact Hall|]. split; [exact Hlog1|]. split; [exact Hc1|].
  split; [exact Hcn|]. split; [exact Hflag1|].
  split; [exact Hpoll|].
  split; [reflexivity|].
  cbn [after mappings]. eapply read_flag_write_flag. exact Hflag1.
Qed.
End Coalescing.

(** ** The lock discipline *)

Lemma WaitForSingleObject_INFINITE_owner (p : nat) (m0 m : Mutex) (r : DWORD) :
  WaitForSingleObject p m0 INFINITE = Some (r, m) -> exists k, m = MutexHeld p k.
Proof.
  destruct m0 as [| |owner n]; cbn.
  - intros [= <- <-]. eauto.
  - intros [= <- <-]. eauto.
  - destruct (decide (owner = p)); [intros [= <- <-]; eauto|discriminate].
Qed.

Lemma WaitForSingleObject_0_owner (p : nat) (m0 m : Mutex) :
  WaitForSingleObject p m0 0 = Some (WAIT_OBJECT_0, m) ->
  exists k, m = MutexHeld p k.
Proof.
  destruct m0 as [| |owner n]; cbn.
  - intros [= <-]. eauto.
  - discriminate.
  - destruct (decide (owner = p)); [intros [= <-]; eauto|discriminate].
Qed.

Lemma WaitForSingleObject_other (p q : nat) (k : nat) (timeout r : DWORD)
    (m : Mutex) :
  q <> p ->
  WaitForSingleObject q (MutexHeld p k) timeout = Some (r, m) ->
  m = MutexHeld p k.
Proof.
  intros Hne. cbn. destruct (decide (p = q)); [congruence|].
  destruct (timeout =? 0); [intros [= <- <-]; reflexivity|discriminate].
Qed.

Lemma ReleaseMutex_other (p q k : nat) :
  q <> p -> ReleaseMutex q (MutexHeld p k) = MutexHeld p k.
Proof. intros Hne. cbn. destruct (decide (p = q)); [congruence|reflexivity]. Qed.

Lemma abandon_held_other (p q k : nat) :
  q <> p -> abandon q (MutexHeld p k) = MutexHeld p k.
Proof. intros Hne. cbn. destruct (decide (p = q)); [congruence|reflexivity]. Qed.

Lemma mutex_at_insert (n n' : string) (m : Mutex) (ms : gmap string Mutex) :
  mutex_at n (<[n' := m]> ms) = if decide (n' = n) then m else mutex_at n ms.
Proof.
  unfold mutex_at. destruct (decide (n' = n)) as [->|Hne].
  - rewrite lookup_insert_eq. reflexivity.
  - rewrite lookup_insert_ne by done. reflexivity.
Qed.

(** A step of another process neither takes nor frees the mutex of its
    owner. *)
Lemma handleCmd_keeps_owner SZ q o hq ns ms out p k n :
  handleCmd SZ q o hq ns ms = Some out -> q <> p ->
  mutex_at n ms = MutexHeld p k ->
  mutex_at n (o_mutexes out) = MutexHeld p k.
Proof.
  intros H Hne Hheld.
  assert (Hexit : forall mname,
            mutex_at n (match ms !! mname with
                        | Some m => <[mname := abandon q m]> ms
                        | None => ms
                        end) = MutexHeld p k).
  { intros mname. destruct (ms !! mname) as [m|] eqn:E; [|assumption].
    rewrite mutex_at_insert. case_decide as Hn; [subst mname|assumption].
    unfold mutex_at in Hheld. rewrite E in Hheld. cbn in Hheld. subst m.
    apply abandon_held_other. assumption. }
  handle_cases H; unfold exit; cbn [o_mutexes]; try assumption; try apply Hexit.
  all: rewrite mutex_at_insert; case_decide as Hn; [subst n|assumption].
  all: try rewrite Hheld in *.
  all: eauto using ReleaseMutex_other, WaitForSingleObject_other.
  all: match goal with
       | E : _ !! _ = Some ?m |- abandon _ ?m = _ =>
           unfold mutex_at in Hheld; rewrite E in Hheld; cbn in Hheld;
           subst m; apply abandon_held_other; assumption
       end.
Qed.

Lemma handleCmd_critical SZ p o h ns ms out :
  handleCmd SZ p o h ns ms = Some out ->
  in_critical (pc (o_self out)) = true ->
  (in_critical (pc h) = true ->
   exists k, mutex_at (userShareMemMutexName_ h) ms = MutexHeld p k) ->
  exists k, mutex_at (userShareMemMutexName_ h) (o_mutexes out) = MutexHeld p k.
Proof.
  intros H Hcrit Hown. handle_cases H; try discriminate.
  all: try (apply Hown;
            try match goal with E : pc _ = _ |- _ => rewrite E end;
            reflexivity).
  all: try (match goal with E : pc _ = _ |- _ => rewrite E in Hcrit end;
            discriminate).
  all: rewrite mutex_at_insert_eq.
  all: try (eapply WaitForSingleObject_INFINITE_owner; eassumption).
  match goal with
  | E : WaitForSingleObject _ _ 0 = Some (?r, _) |- _ =>
      destruct (after_wait_spec r) as [[-> Hw]|[_ Hw]]; rewrite Hw in Hcrit;
      [eapply WaitForSingleObject_0_owner; eassumption|discriminate]
  end.
Qed.

Lemma handleCmd_roles SZ p o h ns ms out :
  handleCmd SZ p o h ns ms = Some out ->
  (follower_pc (pc h) = true -> sharedType_ h = Some SHARED_TYPE_FOLLOWER) ->
  (leader_only_pc (pc h) = true -> sharedType_ h = Some SHARED_TYPE_LEADER) ->
  (pc h = L86_MapViewOfFile \/ pc h = L97_isLeader -> sharedType_ h <> None) ->
  (follower_pc (pc (o_self out)) = true ->
   sharedType_ (o_self out) = Some SHARED_TYPE_FOLLOWER)
  /\ (leader_only_pc (pc (o_self out)) = true ->
      sharedType_ (o_self out) = Some SHARED_TYPE_LEADER)
  /\ (pc (o_self out) = L86_MapViewOfFile \/ pc (o_self out) = L97_isLeader ->
      sharedType_ (o_self out) <> None).
Proof.
  intros H Hf Hl Hr.
  handle_cases H;
    repeat match goal with
           | E : pc _ = _ |- _ => rewrite E in *
           end;
    cbn in *.
  all: try (split; [|split]; intros; try discriminate; try tauto;
            try (intuition discriminate); auto; fail).
  - unfold isLeader in *. case_bool_decide; [|discriminate].
    split; [discriminate|]. split; [auto|]. intros [?|?]; discriminate.
  - unfold isLeader in *. case_bool_decide; [discriminate|].
    split; [|split; [discriminate|intros [?|?]; discriminate]].
    intros _. destruct (sharedType_ h) as [[]|]; [congruence|reflexivity|].
    exfalso. apply Hr; auto.
  - match goal with
    | |- context [after_wait ?r] =>
        destruct (after_wait_spec r) as [[_ ->]|[_ ->]]
    end; cbn; (split; [|split]; intros; try discriminate; auto;
               try (intuition discriminate)).
Qed.

Lemma lock_inv_step SZ w p o w' :
  lock_inv w -> step SZ p o w = Some w' -> lock_inv w'.
Proof.
  intros [Hown Hfol Hlead Hrole] Hstep.
  apply step_inv in Hstep as (h & out & Hh & Hout & ->).
  destruct (handleCmd_names _ _ _ _ _ _ _ Hout) as [_ Hmname].
  destruct (handleCmd_roles _ _ _ _ _ _ _ Hout (Hfol _ _ Hh) (Hlead _ _ Hh)
              (Hrole _ _ Hh)) as (Hfol' & Hlead' & Hrole').
  split; cbn [procs mutexes].
  - intros q hq Hq Hcrit.
    destruct (lookup_after_step _ _ _ _ _ _ Hh Hq) as [[-> ->]|[Hne Hq']].
    + rewrite Hmname. eapply handleCmd_critical; eauto.
    + destruct (Hown q hq Hq' Hcrit) as [k Hk]. exists k.
      eapply handleCmd_keeps_owner; eauto.
  - intros q hq Hq.
    destruct (lookup_after_step _ _ _ _ _ _ Hh Hq) as [[-> ->]|[Hne Hq']]; eauto.
  - intros q hq Hq.
    destruct (lookup_after_step _ _ _ _ _ _ Hh Hq) as [[-> ->]|[Hne Hq']]; eauto.
  - intros q hq Hq.
    destruct (lookup_after_step _ _ _ _ _ _ Hh Hq) as [[-> ->]|[Hne Hq']]; eauto.
Qed.

Lemma lock_inv_launch s1 s2 accounts : lock_inv (launch s1 s2 accounts).
Proof.
  split; intros p h Hp; apply launch_fresh in Hp as [Hpc _]; rewrite Hpc;
    try discriminate.
  intros [?|?]; discriminate.
Qed.

Lemma lock_inv_exec SZ s1 s2 accounts sched :
  lock_inv (exec SZ sched (launch s1 s2 accounts)).
Proof.
  apply exec_invariant_any; [|apply lock_inv_launch].
  intros w p o w' Hinv Hstep. eapply lock_inv_step; eassumption.
Qed.

(** What a step does to the flag of a region that exists before and after
    it. *)
Lemma handleCmd_flag SZ p o h ns ms out n v v' :
  handleCmd SZ p o h ns ms = Some out ->
  read_flag n ns = Some v -> read_flag n (o_mappings out) = Some v' ->
  v <> v' ->
  userShareMemName_ h = n
  /\ ((pc h = L135_set_flag /\ v' = 1)
      \/ (pc h = L113_clear_flag /\ v' = 0)
      \/ (pc h = L97_isLeader /\ v' = 0 /\ isLeader h = true)).
Proof.
  assert (Hclose : forall self name (m : gmap string FileMapping),
            read_flag n m = Some v ->
            read_flag n (CloseHandle self name m) = Some v' -> v = v').
  { intros self name m. unfold read_flag.
    destruct (CloseHandle self name m !! n) as [fm'|] eqn:E; [|discriminate].
    apply CloseHandle_bytes in E as (fm & -> & Hb). cbn. rewrite Hb. congruence. }
  assert (Hwrite : forall name x (m : gmap string FileMapping),
            read_flag n m = Some v ->
            read_flag n (write_flag name x m) = Some v' ->
            v <> v' -> name = n /\ v' = x).
  { intros name x m Hv Hv' Hne. destruct (decide (name = n)) as [->|Hn].
    - split; [reflexivity|].
      rewrite (read_flag_write_flag _ _ _ _ Hv) in Hv'. congruence.
    - exfalso. apply Hne. unfold read_flag, write_flag in *.
      destruct (m !! name); [|congruence].
      rewrite lookup_insert_ne in Hv' by done. congruence. }
  assert (Hmemset : forall name size (m : gmap string FileMapping),
            read_flag n m = Some v ->
            read_flag n (memset0 name size m) = Some v' ->
            v <> v' -> name = n /\ v' = 0).
  { intros name size m Hv Hv' Hne. unfold read_flag, memset0 in *.
    destruct (m !! name) as [fm|] eqn:E; [|congruence].
    destruct (decide (name = n)) as [->|Hn].
    - split; [reflexivity|]. rewrite lookup_insert_eq in Hv'. cbn in Hv'.
      rewrite E in Hv. cbn in Hv.
      destruct size as [|size]; cbn in Hv'; [|congruence].
      rewrite drop_0 in Hv'. congruence.
    - rewrite lookup_insert_ne in Hv' by done. congruence. }
  intros H Hv Hv' Hne.
  handle_cases H; try congruence.
  all: try (exfalso; apply Hne; eapply Hclose; eassumption).
  - exfalso. apply Hne. cfm_cases.
    + eapply Hclose; eassumption.
  - exfalso. apply Hne. cfm_cases.
    + unfold read_flag in *.
      destruct (decide (userShareMemName_ h = n)) as [<-|Hn].
      * rewrite lookup_insert_eq in Hv'. cbn in Hv'.
        match goal with E : ns !! _ = Some _ |- _ => rewrite E in Hv end.
        cbn in Hv. congruence.
      * rewrite lookup_insert_ne in Hv' by done. congruence.
    + unfold read_flag in *.
      destruct (decide (userShareMemName_ h = n)) as [<-|Hn].
      * match goal with E : ns !! _ = None |- _ => rewrite E in Hv end.
        discriminate.
      * rewrite lookup_insert_ne in Hv' by done. congruence.
  - destruct (Hmemset _ _ _ Hv Hv' Hne) as [-> ->]. auto 10.
  - destruct (Hwrite _ _ _ Hv Hv' Hne) as [-> ->]. auto 10.
  - destruct (Hwrite _ _ _ Hv Hv' Hne) as [-> ->]. auto 10.
Qed.

(** In every reachable world, a step that changes the flag of a region is
    one of the three of [flag_change]. *)
Lemma flag_changes SZ s1 s2 accounts sched p o w' n v v' :
  let w := exec SZ sched (launch s1 s2 accounts) in
  step SZ p o w = Some w' ->
  read_flag n (mappings w) = Some v -> read_flag n (mappings w') = Some v' ->
  v <> v' ->
  flag_change w p n v'.
Proof.
  intros w Hstep Hv Hv' Hne.
  pose proof (lock_inv_exec SZ s1 s2 accounts sched) as Hlock. fold w in Hlock.
  apply step_inv in Hstep as (h & out & Hh & Hout & ->). cbn [mappings] in Hv'.
  destruct (handleCmd_flag _ _ _ _ _ _ _ _ _ _ Hout Hv Hv' Hne)
    as [Hn [[Hpc ->]|[[Hpc ->]|(Hpc & -> & Hl)]]].
  - destruct (li_owner _ Hlock _ _ Hh) as [k Hk]; [rewrite Hpc; reflexivity|].
    eapply set_under_lock; eauto.
    apply (li_follower _ Hlock _ _ Hh). rewrite Hpc. reflexivity.
  - destruct (li_owner _ Hlock _ _ Hh) as [k Hk]; [rewrite Hpc; reflexivity|].
    eapply cleared_under_lock; eauto.
    apply (li_leader _ Hlock _ _ Hh). rewrite Hpc. reflexivity.
  - eapply cleared_by_memset; eauto.
    unfold isLeader in Hl. case_bool_decide; [assumption|discriminate].
Qed.

(** The flag of a region that a step brings into being is 0. *)
Lemma handleCmd_flag_new SZ p o h ns ms out n v' :
  handleCmd SZ p o h ns ms = Some out ->
  read_flag n ns = None -> read_flag n (o_mappings out) = Some v' -> v' = 0.
Proof.
  assert (Hclose : forall self name (m : gmap string FileMapping),
            read_flag n m = None ->
            read_flag n (CloseHandle self name m) = Some v' -> v' = 0).
  { intros self name m. unfold read_flag.
    destruct (CloseHandle self name m !! n) as [fm'|] eqn:E; [|discriminate].
    apply CloseHandle_bytes in E as (fm & -> & Hb). cbn. rewrite Hb. congruence. }
  assert (Hwrite : forall name x (m : gmap string FileMapping),
            read_flag n m = None ->
            read_flag n (write_flag name x m) = Some v' -> v' = 0).
  { intros name x m. unfold read_flag, write_flag.
    destruct (m !! name) as [fm|] eqn:E; [|congruence].
    destruct (decide (name = n)) as [->|Hn].
    - rewrite E, lookup_insert_eq. cbn.
      destruct (fm_bytes fm); cbn; congruence.
    - rewrite lookup_insert_ne by done. congruence. }
  assert (Hmemset : forall name size (m : gmap string FileMapping),
            read_flag n m = None ->
            read_flag n (memset0 name size m) = Some v' -> v' = 0).
  { intros name size m. unfold read_flag, memset0.
    destruct (m !! name) as [fm|] eqn:E; [|congruence].
    destruct (decide (name = n)) as [->|Hn].
    - rewrite E, lookup_insert_eq. cbn.
      destruct size as [|size]; cbn; [rewrite drop_0|]; congruence.
    - rewrite lookup_insert_ne by done. congruence. }
  assert (Hcreate : forall self size name fails b d g,
            CreateFileMapping self size name fails ns = (b, d, g) ->
            read_flag n ns = None -> read_flag n g = Some v' -> v' = 0).
  { intros self size name fails b d g E Hv Hv'.
    apply CreateFileMapping_cases in E
      as [(_ & _ & ->)|[(_ & _ & _ & fm & Hfm & ->)|(_ & _ & _ & Hnone & ->)]];
      [congruence| |]; unfold read_flag in *.
    - destruct (decide (name = n)) as [->|Hn].
      + rewrite lookup_insert_eq in Hv'. rewrite Hfm in Hv. cbn in *. congruence.
      + rewrite lookup_insert_ne in Hv' by done. congruence.
    - destruct (decide (name = n)) as [->|Hn].
      + rewrite lookup_insert_eq in Hv'. cbn in Hv'.
        destruct size; cbn in Hv'; congruence.
      + rewrite lookup_insert_ne in Hv' by done. congruence. }
  intros H Hv Hv'. handle_cases H; try congruence; eauto.
  cfm_cases. eauto.
Qed.

Lemma clear_in_poll_step SZ n m w p o w' :
  lock_inv w -> all_named n m w -> clear_in_poll w ->
  step SZ p o w = Some w' -> clear_in_poll w'.
Proof.
  intros Hlock Hnames Hclear Hstep l hl v Hl Hpc Hv.
  apply step_inv in Hstep as (h & out & Hh & Hout & ->).
  cbn [procs mappings] in *.
  destruct (lookup_after_step _ _ _ _ _ _ Hh Hl) as [[-> ->]|[Hne Hl']].
  - (* the Leader itself moved *)
    destruct (handleCmd_names _ _ _ _ _ _ _ Hout) as [Hn _]. rewrite Hn in Hv.
    clear Hl. handle_cases Hout;
      try (destruct Hpc as [Hpc|Hpc]; discriminate Hpc).
    + unfold read_flag, write_flag in Hv.
      destruct (mappings w !! userShareMemName_ h) as [fm|] eqn:E.
      * rewrite lookup_insert_eq in Hv. cbn in Hv.
        destruct (fm_bytes fm); cbn in Hv; congruence.
      * rewrite E in Hv. discriminate.
    + eapply (Hclear p h); eauto.
    + destruct Hpc as [Hpc|Hpc];
        match type of Hpc with
        | after_wait ?r = _ =>
            destruct (after_wait_spec r) as [[_ Hw]|[_ Hw]];
            rewrite Hw in Hpc; discriminate
        end.
  - (* another process moved *)
    destruct (Hnames l hl Hl') as [Hnl Hml].
    destruct (Hnames p h Hh) as [Hnp Hmp].
    destruct (read_flag (userShareMemName_ hl) (mappings w)) as [v0|] eqn:Hv0.
    + assert (v0 = 0) as -> by (eapply Hclear; eauto).
      destruct (decide (0 = v)) as [<-|Hchg]; [reflexivity|].
      destruct (handleCmd_flag _ _ _ _ _ _ _ _ _ _ Hout Hv0 Hv Hchg)
        as [_ [[Hpc' _]|[[_ ->]|(_ & -> & _)]]]; try reflexivity.
      exfalso.
      destruct (li_owner _ Hlock p h Hh) as [k Hk]; [rewrite Hpc'; reflexivity|].
      destruct (li_owner _ Hlock l hl Hl') as [k' Hk'].
      { destruct Hpc as [-> | ->]; reflexivity. }
      rewrite Hmp in Hk. rewrite Hml in Hk'. congruence.
    + eapply handleCmd_flag_new; eassumption.
Qed.

Lemma all_named_step SZ n m w p o w' :
  all_named n m w -> step SZ p o w = Some w' -> all_named n m w'.
Proof.
  intros Hnames Hstep q hq Hq.
  apply step_inv in Hstep as (h & out & Hh & Hout & ->). cbn [procs] in Hq.
  destruct (lookup_after_step _ _ _ _ _ _ Hh Hq) as [[-> ->]|[Hne Hq']].
  - destruct (handleCmd_names _ _ _ _ _ _ _ Hout) as [-> ->]. eauto.
  - eauto.
Qed.

(** In every interleaving of the processes of one account, the flag is 0
    from the Leader's write of line 113 until its release: a poll leaves
    the flag at 0 whatever the Followers attempt meanwhile. *)
Lemma flag_clear_until_release SZ s1 s2 N account sched :
  clear_in_poll (exec SZ sched (launch s1 s2 (replicate N (Some account)))).
Proof.
  destruct (CmdLineHandler_new s1 s2 (Some account)) as [h0|] eqn:Hnew.
  - cut (lock_inv (exec SZ sched (launch s1 s2 (replicate N (Some account))))
         /\ all_named (userShareMemName_ h0) (userShareMemMutexName_ h0)
              (exec SZ sched (launch s1 s2 (replicate N (Some account))))
         /\ clear_in_poll
              (exec SZ sched (launch s1 s2 (replicate N (Some account)))));
      [tauto|].
    apply (exec_invariant_any SZ
             (fun w => lock_inv w
                       /\ all_named (userShareMemName_ h0)
                            (userShareMemMutexName_ h0) w
                       /\ clear_in_poll w)).
    + intros w p o w' (Hlock & Hnames & Hclear) Hstep.
      split; [eapply lock_inv_step; eassumption|].
      split; [eapply all_named_step; eassumption|].
      eapply clear_in_poll_step; eassumption.
    + split; [apply lock_inv_launch|]. split.
      * intros p h Hp. rewrite (launch_same _ _ _ _ _ Hnew) in Hp.
        apply lookup_replicate in Hp as [-> _]. auto.
      * intros l hl v Hl Hpc _. apply launch_fresh in Hl as [Hl _].
        rewrite Hl in Hpc. destruct Hpc; discriminate.
  - intros l hl v Hl.
    assert (Hlen : List.length (procs (exec SZ sched
                     (launch s1 s2 (replicate N (Some account))))) = 0%nat).
    { rewrite length_procs_exec. unfold launch, start. cbn.
      clear Hl. induction N as [|N IH]; [reflexivity|].
      cbn. rewrite Hnew. exact IH. }
    apply lookup_lt_Some in Hl. lia.
Qed.

(** ** The zeroing of the region *)

Lemma region_shape_fresh (size : nat) (hs : gset nat) :
  region_shape size (mkFileMapping (replicate size 0) hs).
Proof.
  split; cbn.
  - apply length_replicate.
  - intros v Hv. apply lookup_replicate in Hv as [-> _]. auto.
  - intros i v Hv. apply lookup_replicate in Hv as [-> _]. reflexivity.
Qed.

Lemma region_shape_handles (size : nat) (fm : FileMapping) (hs : gset nat) :
  region_shape size fm -> region_shape size (mkFileMapping (fm_bytes fm) hs).
Proof. intros [? ? ?]. split; assumption. Qed.

Lemma region_shape_flag (size : nat) (fm : FileMapping) (v : Z) :
  v = 0 \/ v = 1 -> region_shape size fm ->
  region_shape size
    (mkFileMapping (<[0%nat := v]> (fm_bytes fm)) (fm_handles fm)).
Proof.
  intros Hv [Hsize Hflag Hres]. split; cbn.
  - rewrite length_insert. exact Hsize.
  - intros v' Hv'. destruct (fm_bytes fm); [discriminate|].
    cbn in Hv'. congruence.
  - intros i v' Hv'. rewrite list_lookup_insert_ne in Hv' by discriminate.
    eauto.
Qed.

Lemma region_shape_memset (size : nat) (fm : FileMapping) :
  region_shape size fm ->
  region_shape size
    (mkFileMapping (replicate size 0 ++ drop size (fm_bytes fm))
       (fm_handles fm)).
Proof.
  intros [Hsize _ _]. rewrite drop_ge by lia. rewrite app_nil_r.
  apply region_shape_fresh.
Qed.

(** Each operation on the mappings keeps the regions in shape. *)
Lemma handleCmd_shape SZ p o h ns ms out :
  handleCmd SZ p o h ns ms = Some out ->
  (forall n fm, ns !! n = Some fm -> region_shape SZ fm) ->
  forall n fm, o_mappings out !! n = Some fm -> region_shape SZ fm.
Proof.
  assert (Hclose : forall self name (m : gmap string FileMapping),
            (forall n fm, m !! n = Some fm -> region_shape SZ fm) ->
            forall n fm, CloseHandle self name m !! n = Some fm ->
                         region_shape SZ fm).
  { intros self name m Hm n fm. unfold CloseHandle.
    destruct (m !! name) as [fm0|] eqn:E; [|apply Hm].
    case_decide.
    - destruct (decide (name = n)) as [->|Hne].
      + rewrite lookup_delete_eq. discriminate.
      + rewrite lookup_delete_ne by done. apply Hm.
    - destruct (decide (name = n)) as [->|Hne].
      + rewrite lookup_insert_eq. intros [= <-].
        apply region_shape_handles. eauto.
      + rewrite lookup_insert_ne by done. apply Hm. }
  assert (Hwrite : forall name v (m : gmap string FileMapping),
            v = 0 \/ v = 1 ->
            (forall n fm, m !! n = Some fm -> region_shape SZ fm) ->
            forall n fm, write_flag name v m !! n = Some fm ->
                         region_shape SZ fm).
  { intros name v m Hv Hm n fm. unfold write_flag.
    destruct (m !! name) as [fm0|] eqn:E; [|apply Hm].
    destruct (decide (name = n)) as [->|Hne].
    - rewrite lookup_insert_eq. intros [= <-].
      apply region_shape_flag; eauto.
    - rewrite lookup_insert_ne by done. apply Hm. }
  assert (Hmemset : forall name (m : gmap string FileMapping),
            (forall n fm, m !! n = Some fm -> region_shape SZ fm) ->
            forall n fm, memset0 name SZ m !! n = Some fm ->
                         region_shape SZ fm).
  { intros name m Hm n fm. unfold memset0.
    destruct (m !! name) as [fm0|] eqn:E; [|apply Hm].
    destruct (decide (name = n)) as [->|Hne].
    - rewrite lookup_insert_eq. intros [= <-].
      apply region_shape_memset; eauto.
    - rewrite lookup_insert_ne by done. apply Hm. }
  assert (Hcreate : forall self name fails b d g,
            CreateFileMapping self SZ name fails ns = (b, d, g) ->
            (forall n fm, ns !! n = Some fm -> region_shape SZ fm) ->
            forall n fm, g !! n = Some fm -> region_shape SZ fm).
  { intros self name fails b d g E Hm n fm.
    apply CreateFileMapping_cases in E
      as [(_ & _ & ->)|[(_ & _ & _ & fm0 & Hfm0 & ->)|(_ & _ & _ & _ & ->)]];
      [apply Hm| |].
    - destruct (decide (name = n)) as [->|Hne].
      + rewrite lookup_insert_eq. intros [= <-].
        apply region_shape_handles. eauto.
      + rewrite lookup_insert_ne by done. apply Hm.
    - destruct (decide (name = n)) as [->|Hne].
      + rewrite lookup_insert_eq. intros [= <-]. apply region_shape_fresh.
      + rewrite lookup_insert_ne by done. apply Hm. }
  intros H Hns. handle_cases H; eauto.
Qed.

Lemma regions_shaped_exec SZ s1 s2 accounts sched :
  regions_shaped SZ (exec SZ sched (launch s1 s2 accounts)).
Proof.
  apply exec_invariant_any.
  - intros w p o w' Hw Hstep.
    apply step_inv in Hstep as (h & out & Hh & Hout & ->).
    intros n fm Hn. cbn [mappings] in Hn.
    eapply handleCmd_shape; eassumption.
  - intros n fm Hn. cbn in Hn. rewrite lookup_empty in Hn. discriminate.
Qed.

(** A step that leads to a program point of the Leader's polling comes from
    such a point and runs no [memset], or is the [memset] of line 97. *)
Lemma handleCmd_leader_only SZ p o h ns ms out :
  handleCmd SZ p o h ns ms = Some out ->
  leader_only_pc (pc (o_self out)) = true ->
  (leader_only_pc (pc h) = true
   /\ count_event EvMemset (o_events out) = 0%nat)
  \/ (pc h = L97_isLeader
      /\ count_event EvMemset (o_events out) = 1%nat).
Proof.
  intros H Hpc.
  handle_cases H; try discriminate Hpc; auto.
  all: unfold after_wait in Hpc; case_match; discriminate.
Qed.

Lemma zeroed_once_step SZ w p o w' :
  memset_inv w -> zeroed_once w -> step SZ p o w = Some w' ->
  zeroed_once w'.
Proof.
  intros Hm Hz Hstep q hq Hq Hpc.
  apply step_inv in Hstep as (h & out & Hh & Hout & ->).
  cbn [procs log] in *. rewrite memsets_of_app.
  destruct (lookup_after_step _ _ _ _ _ _ Hh Hq) as [[-> ->]|[Hne Hq']].
  - rewrite memsets_of_self.
    destruct (handleCmd_leader_only _ _ _ _ _ _ _ Hout Hpc)
      as [[Hpc0 ->]|[Hpc0 ->]].
    + rewrite (Hz p h Hh Hpc0). reflexivity.
    + destruct (memsets_of p (log w)) as [|k] eqn:E; [reflexivity|].
      destruct (mi_done _ Hm p h Hh) as [_ Hb]; [rewrite E; lia|].
      rewrite Hpc0 in Hb. discriminate.
  - rewrite memsets_of_other by assumption. rewrite (Hz q hq Hq' Hpc). lia.
Qed.

Lemma zeroed_once_exec SZ s1 s2 accounts sched :
  zeroed_once (exec SZ sched (launch s1 s2 accounts)).
Proof.
  cut (election_inv (exec SZ sched (launch s1 s2 accounts))
       /\ memset_inv (exec SZ sched (launch s1 s2 accounts))
       /\ zeroed_once (exec SZ sched (launch s1 s2 accounts))); [tauto|].
  apply (exec_invariant_any SZ
           (fun w => election_inv w /\ memset_inv w /\ zeroed_once w)).
  - intros w p o w' (Hinv & Hm & Hz) Hstep.
    split; [eapply election_inv_step; eassumption|].
    split; [eapply memset_inv_step; eassumption|].
    eapply zeroed_once_step; eassumption.
  - split; [apply election_inv_launch|]. split; [apply memset_inv_launch|].
    intros p h Hh Hpc. apply launch_fresh in Hh as [Hl _].
    rewrite Hl in Hpc. discriminate.
Qed.

(** Where a running Leader stands: at line 86 or 97, or in its polling. *)
Lemma Leader_stands SZ s1 s2 accounts sched p h :
  let w := exec SZ sched (launch s1 s2 accounts) in
  procs w !! p = Some h -> sharedType_ h = Some SHARED_TYPE_LEADER ->
  live h ->
  pc h = L86_MapViewOfFile \/ pc h = L97_isLeader
  \/ leader_only_pc (pc h) = true.
Proof.
  intros w Hh Hrole Hlive.
  pose proof (election_inv_exec SZ s1 s2 accounts sched) as Hinv.
  pose proof (lock_inv_exec SZ s1 s2 accounts sched) as Hlock.
  fold w in Hinv, Hlock.
  pose proof (inv_fresh _ Hinv p h Hh) as Hfresh.
  pose proof (li_follower _ Hlock p h Hh) as Hfol.
  destruct (pc h) eqn:Hpc; auto.
  - specialize (Hfresh eq_refl). congruence.
  - specialize (Hfol eq_refl). congruence.
  - specialize (Hfol eq_refl). congruence.
  - specialize (Hfol eq_refl). congruence.
  - specialize (Hfol eq_refl). congruence.
  - specialize (Hfol eq_refl). congruence.
  - destruct (Hlive status Hpc).
Qed.

(** C8.  In every reachable world a process has run the [memset] of the
    region at most once, and only a Leader has run it; the step that runs
    it is the one at line 97, made by a Leader, and it leaves the whole
    region zero.  The Leader does run it: at line 97 its next step is the
    [memset], which zeroes all [SHARED_MEM_SIZE] bytes; and a running Leader
    either has not run it yet and stands at line 86 or 97, with nothing but
    the mapping of the view between its election and the [memset], or has
    run it exactly once and is in its polling.  No step of a Follower is a
    [memset], and none changes a byte of a mapping other than the flag at
    offset 0. *)
Theorem only_Leader_zeroes_region
    (SHARED_MEM_SIZE sizeof_mem sizeof_mutex : nat)
    (accounts : list (option string)) (sched : list (nat * Oracle))
    (p : nat) (h : CmdLineHandler) (o : Oracle) :
  let w := exec SHARED_MEM_SIZE sched
             (launch sizeof_mem sizeof_mutex accounts) in
  procs w !! p = Some h ->
  (memsets_of p (log w) <= 1)%nat
  /\ ((1 <= memsets_of p (log w))%nat ->
      sharedType_ h = Some SHARED_TYPE_LEADER)
  /\ (forall w', step SHARED_MEM_SIZE p o w = Some w' ->
        memsets_of p (log w') = S (memsets_of p (log w)) ->
        pc h = L97_isLeader /\ sharedType_ h = Some SHARED_TYPE_LEADER
        /\ fm_bytes <$> mappings w' !! userShareMemName_ h
           = Some (replicate SHARED_MEM_SIZE 0))
  /\ (sharedType_ h = Some SHARED_TYPE_FOLLOWER ->
      forall w', step SHARED_MEM_SIZE p o w = Some w' ->
        memsets_of p (log w') = 0%nat
        /\ forall n fm fm', mappings w !! n = Some fm ->
             mappings w' !! n = Some fm' -> same_beyond_flag fm fm')
  /\ (sharedType_ h = Some SHARED_TYPE_LEADER -> pc h = L97_isLeader ->
      exists w', step SHARED_MEM_SIZE p o w = Some w'
        /\ memsets_of p (log w) = 0%nat
        /\ memsets_of p (log w') = 1%nat
        /\ fm_bytes <$> mappings w' !! userShareMemName_ h
           = Some (replicate SHARED_MEM_SIZE 0))
  /\ (sharedType_ h = Some SHARED_TYPE_LEADER -> live h ->
      (memsets_of p (log w) = 0%nat
       /\ (pc h = L86_MapViewOfFile \/ pc h = L97_isLeader))
      \/ (memsets_of p (log w) = 1%nat /\ leader_only_pc (pc h) = true)).
Proof.
  intros w Hh.
  pose proof (memset_inv_exec SHARED_MEM_SIZE sizeof_mem sizeof_mutex
                accounts sched) as Hm. fold w in Hm.
  pose proof (election_inv_exec SHARED_MEM_SIZE sizeof_mem sizeof_mutex
                accounts sched) as Hinv. fold w in Hinv.
  pose proof (regions_shaped_exec SHARED_MEM_SIZE sizeof_mem sizeof_mutex
                accounts sched) as Hshape. fold w in Hshape.
  pose proof (zeroed_once_exec SHARED_MEM_SIZE sizeof_mem sizeof_mutex
                accounts sched) as Hz. fold w in Hz.
  assert (Hbefore : before_init (pc h) = true ->
                    memsets_of p (log w) = 0%nat).
  { intros Hb. destruct (memsets_of p (log w)) as [|k] eqn:E; [reflexivity|].
    destruct (mi_done _ Hm p h Hh) as [_ Hb']; [rewrite E; lia|]. congruence. }
  assert (Hzeroes : pc h = L97_isLeader ->
            sharedType_ h = Some SHARED_TYPE_LEADER ->
            step SHARED_MEM_SIZE p o w
            = Some (after w p (at_pc h L56_timer_Start)
                      (memset0 (userShareMemName_ h) SHARED_MEM_SIZE
                         (mappings w))
                      (mutexes w) [EvMemset])
            /\ fm_bytes <$> memset0 (userShareMemName_ h) SHARED_MEM_SIZE
                              (mappings w) !! userShareMemName_ h
               = Some (replicate SHARED_MEM_SIZE 0)).
  { intros Hpc Hl. split.
    - rewrite (step_eq _ _ _ _ _ Hh). unfold handleCmd, toBeLeader.
      rewrite Hpc. unfold isLeader.
      rewrite bool_decide_eq_true_2 by assumption. reflexivity.
    - destruct (inv_handle _ Hinv p h Hh) as (fm & Hfm & _).
      + intros s. rewrite Hpc. discriminate.
      + rewrite Hpc. discriminate.
      + unfold memset0. rewrite Hfm, lookup_insert_eq. cbn.
        rewrite drop_ge by (rewrite (rs_size _ _ (Hshape _ fm Hfm)); lia).
        rewrite app_nil_r. reflexivity. }
  split; [apply (mi_once _ Hm)|].
  split; [intros Hge; apply (mi_done _ Hm _ _ Hh Hge)|].
  split; [|split; [|split]].
  - intros w' Hstep Hcount.
    pose proof Hstep as Hstep'.
    apply step_inv in Hstep' as (h0 & out & Hh0 & Hout & Hw').
    assert (h0 = h) as -> by congruence.
    rewrite Hw' in Hcount.
    cbn [log] in Hcount. rewrite memsets_of_app, memsets_of_self in Hcount.
    destruct (handleCmd_memset _ _ _ _ _ _ _ Hout)
      as [[Hc _]|(_ & Hpc & Hl & _)]; [lia|].
    split; [assumption|]. split; [assumption|].
    destruct (Hzeroes Hpc Hl) as [Hs Hz0].
    rewrite Hs in Hstep. injection Hstep as <-. exact Hz0.
  - intros Hf w' Hstep.
    apply step_inv in Hstep as (h0 & out & Hh0 & Hout & ->).
    assert (h0 = h) as -> by congruence.
    assert (Hzero : memsets_of p (log w) = 0%nat).
    { pose proof (mi_once _ Hm p).
      destruct (memsets_of p (log w)) as [|k] eqn:E; [reflexivity|].
      destruct (mi_done _ Hm _ _ Hh) as [Hl _]; [rewrite E; lia|]. congruence. }
    assert (Hnone : count_event EvMemset (o_events out) = 0%nat).
    { destruct (handleCmd_memset _ _ _ _ _ _ _ Hout)
        as [[Hc _]|(_ & _ & Hl & _)]; [assumption|congruence]. }
    split.
    + cbn [log]. rewrite memsets_of_app, memsets_of_self. lia.
    + intros n fm fm' Hn Hn'. cbn [mappings] in Hn'.
      eapply handleCmd_bytes; eassumption.
  - intros Hl Hpc. destruct (Hzeroes Hpc Hl) as [Hs Hz0].
    eexists. split; [exact Hs|].
    assert (H0 : memsets_of p (log w) = 0%nat)
      by (apply Hbefore; rewrite Hpc; reflexivity).
    split; [exact H0|]. split; [|exact Hz0].
    cbn [log after]. rewrite memsets_of_app, memsets_of_self, H0. reflexivity.
  - intros Hl Hlive.
    destruct (Leader_stands SHARED_MEM_SIZE sizeof_mem sizeof_mutex accounts
                sched p h Hh Hl Hlive) as [Hpc|[Hpc|Hpc]].
    + left. split; [apply Hbefore; rewrite Hpc; reflexivity|auto].
    + left. split; [apply Hbefore; rewrite Hpc; reflexivity|auto].
    + right. split; [apply (Hz p h Hh Hpc)|assumption].
Qed.

(** ** The flag and the start of the Leader *)

Lemma signal_lost_step (p : nat) (o : Oracle) (w w' : World) :
  signal_lost w -> step sample_SIZE p o w = Some w' -> signal_lost w'.
Proof.
  intros [(h0 & Hh0 & Hname & Hpc) (h1 & status & Hh1 & Hpc1) Hlen Hflag Hno]
         Hstep.
  apply step_inv in Hstep as (h & out & Hh & Hout & ->).
  destruct p as [|[|p]].
  - assert (h = h0) as -> by congruence.
    assert (Hout' : exists e,
              out = mkOutcome (at_pc h0 L107_read_flag) (mappings w) (mutexes w) [e]
              /\ e <> EvCreateNewSession).
    { unfold handleCmd, leaderTimerCallback in Hout.
      destruct Hpc as [Hpc|Hpc]; rewrite Hpc in Hout.
      - injection Hout as <-. eexists; split; [reflexivity|discriminate].
      - rewrite Hname, Hflag in Hout. cbn in Hout. injection Hout as <-.
        eexists; split; [reflexivity|discriminate]. }
    destruct Hout' as (e & -> & He).
    split; cbn [procs mappings log o_self o_mappings o_events].
    + exists (at_pc h0 L107_read_flag).
      split; [apply list_lookup_insert_eq; eapply lookup_lt_Some; eassumption|].
      split; [assumption|]. right. reflexivity.
    + exists h1, status. rewrite list_lookup_insert_ne by discriminate. auto.
    + rewrite length_insert. assumption.
    + assumption.
    + rewrite fmap_app, count_event_app, Hno.
      cbn [fmap list_fmap snd]. unfold count_event.
      rewrite filter_cons_False by assumption. reflexivity.
  - assert (h = h1) as -> by congruence.
    unfold handleCmd in Hout. rewrite Hpc1 in Hout. discriminate.
  - apply lookup_lt_Some in Hh. lia.
Qed.

(** C3, at the start of the Leader.  Process 0 creates the region; process
    1 opens it as Follower, takes the mutex, sets the flag, releases and
    exits; process 0 then reaches the [memset] of line 98.  Before that
    step the flag is 1 and the mutex is free; the step clears the flag,
    with the mutex still free, and from then on, whatever the schedule, the
    flag stays 0 and [createNewSession] is never called: the Follower's
    signal is lost. *)
Theorem startup_memset_loses_signal :
  let w1 := exec sample_SIZE race_before_memset two_processes in
  let w2 := exec sample_SIZE race_memset w1 in
  events_of 1 (log w1)
  = [EvCreateFileMapping ERROR_ALREADY_EXISTS;
     EvWaitForSingleObject 0 WAIT_OBJECT_0; EvWriteFlag 1; EvReleaseMutex;
     EvExit 0]
  /\ procs w1 !! 0%nat = Some (sample_leader_at L97_isLeader)
  /\ read_flag sample_region (mappings w1) = Some 1
  /\ mutex_at sample_mutex (mutexes w1) = MutexFree
  /\ log w2 = log w1 ++ [(0%nat, EvMemset)]
  /\ read_flag sample_region (mappings w2) = Some 0
  /\ mutex_at sample_mutex (mutexes w2) = MutexFree
  /\ forall sched,
       read_flag sample_region (mappings (exec sample_SIZE sched w2)) = Some 0
       /\ count_event EvCreateNewSession
            (snd <$> log (exec sample_SIZE sched w2)) = 0%nat.
Proof.
  intros w1 w2.
  split; [vm_compute; reflexivity|].
  split; [vm_compute; reflexivity|].
  split; [vm_compute; reflexivity|].
  split; [vm_compute; reflexivity|].
  split; [vm_compute; reflexivity|].
  split; [vm_compute; reflexivity|].
  split; [vm_compute; reflexivity|].
  intros sched.
  assert (Hlost : signal_lost (exec sample_SIZE sched w2)).
  { apply exec_invariant_any.
    - intros w p o w' Hw Hstep. eapply signal_lost_step; eassumption.
    - split.
      + eexists. split; [vm_compute; reflexivity|].
        split; [reflexivity|]. left. reflexivity.
      + eexists _, _. split; [vm_compute; reflexivity|]. reflexivity.
      + vm_compute; reflexivity.
      + vm_compute; reflexivity.
      + vm_compute; reflexivity. }
  split; [apply (sl_flag _ Hlost)|apply (sl_no_session _ Hlost)].
Qed.

(** ** The theorems at sample executions *)

Lemma election_one_Leader_witness :
  let w := exec sample_SIZE
             [(1%nat, oracle_quiet); (0%nat, oracle_quiet); (2%nat, oracle_quiet)]
             three_processes in
  count_role SHARED_TYPE_LEADER w = 1%nat
  /\ count_role SHARED_TYPE_FOLLOWER w = (3 - 1)%nat.
Proof.
  apply (proj2 (election_one_Leader sample_SIZE 64 64
                  (replicate 3 (Some "LAB\amy"))
                  [(1%nat, oracle_quiet); (0%nat, oracle_quiet);
                   (2%nat, oracle_quiet)]) 3%nat "LAB\amy").
  - reflexivity.
  - lia.
  - vm_compute. eauto.
  - repeat constructor.
  - vm_compute. repeat constructor; discriminate.
Defined.

Lemma leaderTimerCallback_protocol_witness :
  exists wait_result m,
    WaitForSingleObject 0 (mutex_at sample_mutex (mutexes world_flag_set))
      INFINITE = Some (wait_result, m)
    /\ run sample_SIZE 0 (replicate 5 oracle_quiet) world_flag_set
       = Some (after world_flag_set 0 (sample_leader_at L107_read_flag)
                 (write_flag sample_region 0 (mappings world_flag_set))
                 (<[sample_mutex := ReleaseMutex 0 m]>
                    (<[sample_mutex := m]> (mutexes world_flag_set)))
                 [EvReadFlag 1;
                  EvWaitForSingleObject INFINITE wait_result;
                  EvWriteFlag 0; EvCreateNewSession; EvReleaseMutex])
    /\ read_flag sample_region
         (write_flag sample_region 0 (mappings world_flag_set)) = Some 0.
Proof.
  refine (proj2 (proj2 (proj2 (leaderTimerCallback_protocol sample_SIZE
            world_flag_set 0 (sample_leader_at L107_read_flag) oracle_quiet 1
            _ _ _) _)) _).
  - vm_compute; reflexivity.
  - reflexivity.
  - vm_compute; reflexivity.
  - discriminate.
  - vm_compute. exact I.
Defined.

Lemma signals_coalesce_witness :
  exists w1 w2 evs,
    notify_all sample_SIZE oracle_quiet [1%nat; 2%nat] world_between_polls
    = Some w1
    /\ log w1 = log world_between_polls ++ evs
    /\ count_event (EvWriteFlag 1) (snd <$> evs) = 2%nat
    /\ count_event EvCreateNewSession (snd <$> evs) = 0%nat
    /\ read_flag sample_region (mappings w1) = Some 1
    /\ run sample_SIZE 0 (replicate 5 oracle_quiet) w1 = Some w2
    /\ log w2 = log w1 ++ [(0%nat, EvReadFlag 1);
                           (0%nat, EvWaitForSingleObject INFINITE WAIT_OBJECT_0);
                           (0%nat, EvWriteFlag 0);
                           (0%nat, EvCreateNewSession);
                           (0%nat, EvReleaseMutex)]
    /\ read_flag sample_region (mappings w2) = Some 0.
Proof.
  apply (signals_coalesce sample_SIZE world_between_polls oracle_quiet 0
           (sample_leader_at L107_read_flag) [1%nat; 2%nat]).
  - vm_compute; reflexivity.
  - reflexivity.
  - compute_done.
  - compute_done.
  - discriminate.
  - split.
    + intros f Hf. exists (sample_follower_at L124_FindWindowA).
      apply elem_of_cons in Hf as [->|Hf];
        [|apply elem_of_cons in Hf as [->|Hf]; [|inversion Hf]];
        (split; [vm_compute; reflexivity|repeat split]).
    + eexists. split; [vm_compute; reflexivity|]. split; [|cbn; lia].
      compute_done.
    + vm_compute; reflexivity.
  - reflexivity.
Defined.

Lemma toBeLeader_role_witness :
  exists last_error ns',
    CreateFileMapping 1 sample_SIZE sample_region false
      (mappings (exec sample_SIZE [(0%nat, oracle_quiet)] two_processes))
    = (true, last_error, ns')
    /\ sharedType_of last_error = SHARED_TYPE_FOLLOWER.
Proof.
  destruct (toBeLeader_role sample_SIZE 64 64 [Some "LAB\amy"; Some "LAB\amy"]
              [(0%nat, oracle_quiet)] 1 sample_fresh)
    as (_ & Hassign & _).
  - vm_compute; reflexivity.
  - destruct (Hassign oracle_quiet eq_refl eq_refl)
      as (last_error & ns' & Hc & Hexists & _ & Hf & _).
    exists last_error, ns'. split; [exact Hc|].
    apply Hf, Hexists. vm_compute. eauto.
Defined.

Lemma sendMsgToLeader_lock_busy_witness :
  exists w2 w3,
    run sample_SIZE 2 [oracle_quiet; oracle_quiet] world_leader_busy = Some w2
    /\ mappings w2 = mappings world_leader_busy
    /\ log w2 = log world_leader_busy
                ++ [(2%nat, EvWaitForSingleObject 0 WAIT_TIMEOUT)]
    /\ step sample_SIZE 2 oracle_quiet w2 = Some w3
    /\ procs w3 !! 2%nat = Some (sample_follower_at (Exited 0)).
Proof.
  destruct (sendMsgToLeader_lock_busy sample_SIZE world_leader_busy 2
              (sample_follower_at L124_FindWindowA) oracle_quiet)
    as (w2 & w3 & Hrun & _ & Hmap & _ & Hlog & Hstep & Hexit & _).
  - vm_compute; reflexivity.
  - reflexivity.
  - reflexivity.
  - vm_compute. discriminate.
  - exists w2, w3. auto.
Defined.

Lemma sendMsgToLeader_window_found_witness :
  step sample_SIZE 1 oracle_config_box world_between_polls
  = Some (after world_between_polls 1 (sample_follower_at L62_exit)
            (mappings world_between_polls) (mutexes world_between_polls)
            [EvBringToForeground 66052]).
Proof.
  apply (sendMsgToLeader_window_found sample_SIZE world_between_polls 1
           (sample_follower_at L124_FindWindowA) oracle_config_box 66052).
  - vm_compute; reflexivity.
  - reflexivity.
  - reflexivity.
Defined.

(** C7, the lookup being by title.  The only window has the well-known
    string as its title, so that a lookup by title finds it, but not as its
    class: the Follower does not bring it to the foreground; it takes the
    mutex and sets the flag. *)
Lemma title_lookup_counterexample :
  FindWindowA None (Some "PuTTY-ND2_ConfigBox") (desktop oracle_titled)
  = Some 66052
  /\ procs world_between_polls !! 1%nat
     = Some (sample_follower_at L124_FindWindowA)
  /\ exists w',
       run sample_SIZE 1 (replicate 3 oracle_titled) world_between_polls
       = Some w'
       /\ log w' = log world_between_polls
                   ++ [(1%nat, EvWaitForSingleObject 0 WAIT_OBJECT_0);
                       (1%nat, EvWriteFlag 1)]
       /\ mutex_at sample_mutex (mutexes w') = MutexHeld 1 0
       /\ read_flag sample_region (mappings w') = Some 1.
Proof.
  split; [reflexivity|]. split; [vm_compute; reflexivity|].
  eexists. split; [vm_compute; reflexivity|].
  split; [vm_compute; reflexivity|].
  split; vm_compute; reflexivity.
Qed.

Lemma only_Leader_zeroes_region_witness :
  let w := exec sample_SIZE flag_set_schedule
             (launch 64 64 (replicate 3 (Some "LAB\amy"))) in
  let w0 := exec sample_SIZE (replicate 2 (0%nat, oracle_quiet))
              (launch 64 64 (replicate 3 (Some "LAB\amy"))) in
  let h0 := sample_leader_at L97_isLeader in
  (memsets_of 0 (log w) = 1%nat)
  /\ (forall w', step sample_SIZE 2 oracle_quiet w = Some w' ->
        memsets_of 2 (log w') = 0%nat
        /\ forall n fm fm', mappings w !! n = Some fm ->
             mappings w' !! n = Some fm' -> same_beyond_flag fm fm')
  /\ (exists w', step sample_SIZE 0 oracle_quiet w0 = Some w'
        /\ memsets_of 0 (log w0) = 0%nat
        /\ memsets_of 0 (log w') = 1%nat
        /\ fm_bytes <$> mappings w' !! userShareMemName_ h0
           = Some (replicate sample_SIZE 0)).
Proof.
  intros w w0 h0. split; [|split].
  - destruct (only_Leader_zeroes_region sample_SIZE 64 64
                (replicate 3 (Some "LAB\amy")) flag_set_schedule
                0 (sample_leader_at L107_read_flag) oracle_quiet)
      as (_ & _ & _ & _ & _ & Hstands); [vm_compute; reflexivity|].
    destruct Hstands as [[_ [Hpc|Hpc]]|[Hone _]];
      [reflexivity|intros s; discriminate|discriminate Hpc|discriminate Hpc
      |exact Hone].
  - apply (only_Leader_zeroes_region sample_SIZE 64 64
             (replicate 3 (Some "LAB\amy")) flag_set_schedule
             2 (sample_follower_at L124_FindWindowA) oracle_quiet).
    + vm_compute; reflexivity.
    + reflexivity.
  - apply (only_Leader_zeroes_region sample_SIZE 64 64
             (replicate 3 (Some "LAB\amy")) (replicate 2 (0%nat, oracle_quiet))
             0 h0 oracle_quiet).
    + vm_compute; reflexivity.
    + reflexivity.
    + reflexivity.
Defined.

Lemma sendMsgToLeader_wait_result_witness :
  WaitForSingleObject 1 (mutex_at sample_mutex (mutexes world_abandoned)) 0
  = Some (WAIT_ABANDONED, MutexHeld 1 0)
  /\ step sample_SIZE 1 oracle_quiet world_abandoned
     = Some (after world_abandoned 1 (sample_follower_at L62_exit)
               (mappings world_abandoned)
               (<[sample_mutex := MutexHeld 1 0]> (mutexes world_abandoned))
               [EvWaitForSingleObject 0 WAIT_ABANDONED]).
Proof.
  destruct (sendMsgToLeader_wait_result sample_SIZE world_abandoned 1
              (sample_follower_at L130_WaitForSingleObject) oracle_quiet)
    as (_ & Hab & Hall).
  - vm_compute; reflexivity.
  - reflexivity.
  - assert (Hm : mutex_at sample_mutex (mutexes world_abandoned)
                 = MutexAbandoned) by (vm_compute; reflexivity).
    split; [exact (Hab Hm)|].
    exact (proj1 (Hall WAIT_ABANDONED (MutexHeld 1 0) (Hab Hm))).
Defined.

(** * Further properties *)

(** ** The mutex *)

(** X1.  In every execution, a process between an acquisition of the mutex
    and its release owns the mutex of its name, and no other process is
    between acquisition and release of a mutex of that name. *)
Theorem mutual_exclusion (SHARED_MEM_SIZE sizeof_mem sizeof_mutex : nat)
    (accounts : list (option string)) (sched : list (nat * Oracle))
    (p : nat) (hp : CmdLineHandler) :
  let w := exec SHARED_MEM_SIZE sched
             (launch sizeof_mem sizeof_mutex accounts) in
  procs w !! p = Some hp ->
  in_critical (pc hp) = true ->
  (exists k, mutex_at (userShareMemMutexName_ hp) (mutexes w) = MutexHeld p k)
  /\ forall q hq, procs w !! q = Some hq ->
       in_critical (pc hq) = true ->
       userShareMemMutexName_ hq = userShareMemMutexName_ hp -> q = p.
Proof.
  intros w Hp Hcp.
  pose proof (lock_inv_exec SHARED_MEM_SIZE sizeof_mem sizeof_mutex accounts
                sched) as Hlock. fold w in Hlock.
  destruct (li_owner _ Hlock p hp Hp Hcp) as [k Hk].
  split; [eauto|].
  intros q hq Hq Hcq Hsame.
  destruct (li_owner _ Hlock q hq Hq Hcq) as [k' Hk'].
  rewrite Hsame, Hk in Hk'. congruence.
Qed.

Lemma mutual_exclusion_witness :
  let w := exec sample_SIZE
             (flag_set_schedule ++ replicate 3 (0%nat, oracle_quiet))
             (launch 64 64 (replicate 3 (Some "LAB\amy"))) in
  (exists k, mutex_at sample_mutex (mutexes w) = MutexHeld 0 k)
  /\ forall q hq, procs w !! q = Some hq ->
       in_critical (pc hq) = true ->
       userShareMemMutexName_ hq = sample_mutex -> q = 0%nat.
Proof.
  apply (mutual_exclusion sample_SIZE 64 64 (replicate 3 (Some "LAB\amy"))
           (flag_set_schedule ++ replicate 3 (0%nat, oracle_quiet)) 0
           (sample_leader_at L114_createNewSession)).
  - vm_compute; reflexivity.
  - reflexivity.
Defined.

(** A step leaves every mutex but the one of its process as it is. *)
Lemma handleCmd_other_mutex SZ p o h ns ms out m :
  handleCmd SZ p o h ns ms = Some out ->
  m <> userShareMemMutexName_ h ->
  mutex_at m (o_mutexes out) = mutex_at m ms.
Proof.
  intros H Hne.
  handle_cases H; try reflexivity;
    rewrite mutex_at_insert; case_decide; congruence.
Qed.

(** What a step makes of the mutex of its process, when the mutex is free
    and the process outside its critical section, or the process inside and
    the owner. *)
Lemma handleCmd_own_mutex SZ p o h ns ms out :
  handleCmd SZ p o h ns ms = Some out ->
  (mutex_at (userShareMemMutexName_ h) ms = MutexHeld p 0
   /\ in_critical (pc h) = true)
  \/ (mutex_at (userShareMemMutexName_ h) ms = MutexFree
      /\ in_critical (pc h) = false) ->
  mutex_at (userShareMemMutexName_ h) (o_mutexes out) = MutexFree
  \/ (mutex_at (userShareMemMutexName_ h) (o_mutexes out) = MutexHeld p 0
      /\ in_critical (pc (o_self out)) = true).
Proof.
  intros H Hown.
  handle_cases H; rewrite ?mutex_at_insert_eq.
  all: destruct Hown as [[Hm Hc]|[Hm Hc]]; try discriminate Hc.
  all: try solve [left; assumption | right; split; [assumption|reflexivity]].
  all: try match goal with
       | E : WaitForSingleObject _ _ _ = Some _ |- _ =>
           rewrite Hm in E; cbn in E; simplify_eq; auto
       end.
  all: try (rewrite Hm; cbn; rewrite ?decide_True by reflexivity; auto).
  all: try match goal with
       | E : _ !! _ = Some ?x |- _ =>
           unfold mutex_at in Hm; rewrite E in Hm; cbn in Hm; subst x; auto
       end.
Qed.

Lemma mutexes_owned_step SZ w p o w' :
  lock_inv w -> mutexes_owned w -> step SZ p o w = Some w' ->
  mutexes_owned w'.
Proof.
  intros Hlock Hinv Hstep m.
  apply step_inv in Hstep as (h & out & Hh & Hout & ->).
  cbn [mutexes procs].
  destruct (handleCmd_names _ _ _ _ _ _ _ Hout) as [_ Hmname].
  assert (Hself : mutex_at (userShareMemMutexName_ h) (o_mutexes out)
                  = MutexFree
                  \/ (mutex_at (userShareMemMutexName_ h) (o_mutexes out)
                      = MutexHeld p 0
                      /\ in_critical (pc (o_self out)) = true) ->
            mutex_at (userShareMemMutexName_ h) (o_mutexes out) = MutexFree
            \/ exists q hq,
                 mutex_at (userShareMemMutexName_ h) (o_mutexes out)
                 = MutexHeld q 0
                 /\ <[p := o_self out]> (procs w) !! q = Some hq
                 /\ in_critical (pc hq) = true
                 /\ userShareMemMutexName_ hq = userShareMemMutexName_ h).
  { intros [Hfree|[Hheld Hcrit]]; [auto|].
    right. exists p, (o_self out). split; [assumption|].
    split; [|auto].
    apply list_lookup_insert_eq. eapply lookup_lt_Some; eassumption. }
  destruct (Hinv m) as [Hfree|(q & hq & Hheld & Hq & Hcrit & Hname)].
  - destruct (decide (m = userShareMemMutexName_ h)) as [->|Hne].
    + apply Hself. eapply handleCmd_own_mutex; [eassumption|].
      right. split; [assumption|].
      destruct (in_critical (pc h)) eqn:Hc; [|reflexivity].
      destruct (li_owner _ Hlock p h Hh Hc) as [k Hk]. congruence.
    + left. rewrite (handleCmd_other_mutex _ _ _ _ _ _ _ _ Hout Hne).
      assumption.
  - destruct (decide (q = p)) as [->|Hne].
    + assert (hq = h) by congruence. subst hq m.
      apply Hself. eapply handleCmd_own_mutex; [eassumption|]. auto.
    + right. exists q, hq.
      split; [eapply handleCmd_keeps_owner; eauto|].
      split; [|auto].
      rewrite list_lookup_insert_ne by congruence. assumption.
Qed.

Lemma mutexes_owned_exec SZ s1 s2 accounts sched :
  mutexes_owned (exec SZ sched (launch s1 s2 accounts)).
Proof.
  pose (P := fun w => lock_inv w /\ mutexes_owned w).
  enough (P (exec SZ sched (launch s1 s2 accounts))) as [_ H] by exact H.
  apply exec_invariant_any.
  - intros w p o w' [Hl Hm] Hstep. split.
    + eapply lock_inv_step; eassumption.
    + eapply mutexes_owned_step; eassumption.
  - split; [apply lock_inv_launch|]. intros m. left. reflexivity.
Qed.

(** X2.  In every execution a mutex is free, or owned once by a running
    process that is between its acquisition and its release (lines 113-115
    of the Leader, 135-136 of a Follower): on every path the code releases
    what it acquired before the process waits again or ends, so that no
    mutex is ever abandoned or owned twice over, and no wait returns
    [WAIT_ABANDONED], as long as no process is ended from outside. *)
Theorem mutex_free_or_in_critical_section
    (SHARED_MEM_SIZE sizeof_mem sizeof_mutex : nat)
    (accounts : list (option string)) (sched : list (nat * Oracle))
    (m : string) :
  let w := exec SHARED_MEM_SIZE sched
             (launch sizeof_mem sizeof_mutex accounts) in
  (mutex_at m (mutexes w) = MutexFree
   \/ exists p h, mutex_at m (mutexes w) = MutexHeld p 0
        /\ procs w !! p = Some h /\ in_critical (pc h) = true
        /\ userShareMemMutexName_ h = m)
  /\ forall p timeout wait_result m',
       WaitForSingleObject p (mutex_at m (mutexes w)) timeout
       = Some (wait_result, m') ->
       wait_result = WAIT_OBJECT_0 \/ wait_result = WAIT_TIMEOUT.
Proof.
  intros w.
  pose proof (mutexes_owned_exec SHARED_MEM_SIZE sizeof_mem sizeof_mutex
                accounts sched m) as Hm.
  fold w in Hm. split; [exact Hm|].
  intros p timeout r m' Hwait.
  destruct Hm as [Hfree|(q & hq & Hheld & _)].
  - rewrite Hfree in Hwait. injection Hwait as <- _. auto.
  - rewrite Hheld in Hwait. cbn in Hwait.
    repeat case_match; simplify_eq; auto.
Qed.

Lemma mutex_free_or_in_critical_section_witness :
  let w := exec sample_SIZE
             (flag_set_schedule ++ replicate 3 (0%nat, oracle_quiet))
             (launch 64 64 (replicate 3 (Some "LAB\amy"))) in
  mutex_at sample_mutex (mutexes w) = MutexHeld 0 0
  /\ (mutex_at sample_mutex (mutexes w) = MutexFree
      \/ exists p h, mutex_at sample_mutex (mutexes w) = MutexHeld p 0
           /\ procs w !! p = Some h /\ in_critical (pc h) = true
           /\ userShareMemMutexName_ h = sample_mutex).
Proof.
  intros w. split; [vm_compute; reflexivity|].
  apply (mutex_free_or_in_critical_section sample_SIZE 64 64
           (replicate 3 (Some "LAB\amy"))
           (flag_set_schedule ++ replicate 3 (0%nat, oracle_quiet))
           sample_mutex).
Defined.

(** ** The flag and the region *)

(** X3.  In every execution, a step that changes the flag of a region is
    the write of 1 at line 135 by a Follower that owns the mutex, the write
    of 0 at line 113 by a Leader that owns the mutex, or the [memset] of
    line 98 by a Leader, which owns nothing. *)
Theorem flag_written_three_ways
    (SHARED_MEM_SIZE sizeof_mem sizeof_mutex : nat)
    (accounts : list (option string)) (sched : list (nat * Oracle))
    (p : nat) (o : Oracle) (w' : World) (n : string) (v v' : Z) :
  let w := exec SHARED_MEM_SIZE sched
             (launch sizeof_mem sizeof_mutex accounts) in
  step SHARED_MEM_SIZE p o w = Some w' ->
  read_flag n (mappings w) = Some v ->
  read_flag n (mappings w') = Some v' ->
  v <> v' ->
  flag_change w p n v'.
Proof. intros w. apply flag_changes. Qed.

Lemma flag_written_three_ways_witness :
  let sched := leader_up ++ follower_up 1 ++ replicate 2 (1%nat, oracle_quiet) in
  let w := exec sample_SIZE sched
             (launch 64 64 (replicate 3 (Some "LAB\amy"))) in
  flag_change w 1 sample_region 1.
Proof.
  intros sched w.
  destruct (step sample_SIZE 1 oracle_quiet w) as [w'|] eqn:Hstep;
    [|vm_compute in Hstep; discriminate].
  apply (flag_written_three_ways sample_SIZE 64 64
           (replicate 3 (Some "LAB\amy")) sched 1 oracle_quiet w'
           sample_region 0 1).
  - exact Hstep.
  - vm_compute; reflexivity.
  - vm_compute in Hstep. injection Hstep as <-. vm_compute; reflexivity.
  - discriminate.
Defined.

(** X4.  In every interleaving of the processes of one account, from the
    Leader's write of 0 at line 113 until its release at line 115 the flag
    of its region is 0: no Follower sets it while [createNewSession] runs. *)
Theorem flag_clear_during_session
    (SHARED_MEM_SIZE sizeof_mem sizeof_mutex N : nat) (account : string)
    (sched : list (nat * Oracle)) (l : nat) (hl : CmdLineHandler) :
  let w := exec SHARED_MEM_SIZE sched
             (launch sizeof_mem sizeof_mutex (replicate N (Some account))) in
  procs w !! l = Some hl ->
  pc hl = L114_createNewSession \/ pc hl = L115_ReleaseMutex ->
  forall v, read_flag (userShareMemName_ hl) (mappings w) = Some v -> v = 0.
Proof.
  intros w Hl Hpc v Hv.
  exact (flag_clear_until_release SHARED_MEM_SIZE sizeof_mem sizeof_mutex N
           account sched l hl v Hl Hpc Hv).
Qed.

Lemma flag_clear_during_session_witness :
  let w := exec sample_SIZE
             (flag_set_schedule ++ replicate 3 (0%nat, oracle_quiet)
              ++ replicate 2 (2%nat, oracle_quiet))
             (launch 64 64 (replicate 3 (Some "LAB\amy"))) in
  read_flag sample_region (mappings w) = Some 0.
Proof.
  intros w.
  destruct (read_flag sample_region (mappings w)) as [v|] eqn:Hv;
    [|vm_compute in Hv; discriminate].
  f_equal.
  apply (flag_clear_during_session sample_SIZE 64 64 3 "LAB\amy"
           (flag_set_schedule ++ replicate 3 (0%nat, oracle_quiet)
            ++ replicate 2 (2%nat, oracle_quiet))
           0 (sample_leader_at L114_createNewSession)).
  - vm_compute; reflexivity.
  - left; reflexivity.
  - exact Hv.
Defined.

(** X5.  In every execution a region that exists has exactly
    [SHARED_MEM_SIZE] bytes, its flag at offset 0 is 0 or 1, and every byte
    beyond the flag is 0. *)
Theorem region_keeps_its_shape
    (SHARED_MEM_SIZE sizeof_mem sizeof_mutex : nat)
    (accounts : list (option string)) (sched : list (nat * Oracle))
    (n : string) (fm : FileMapping) :
  let w := exec SHARED_MEM_SIZE sched
             (launch sizeof_mem sizeof_mutex accounts) in
  mappings w !! n = Some fm ->
  List.length (fm_bytes fm) = SHARED_MEM_SIZE
  /\ (forall v, fm_bytes fm !! 0%nat = Some v -> v = 0 \/ v = 1)
  /\ (forall i v, (0 < i)%nat -> fm_bytes fm !! i = Some v -> v = 0).
Proof.
  intros w Hn.
  destruct (regions_shaped_exec SHARED_MEM_SIZE sizeof_mem sizeof_mutex
              accounts sched n fm Hn) as [Hsize Hflag Hres].
  split; [assumption|]. split; [assumption|].
  intros [|i] v Hi; [lia|]. apply Hres.
Qed.

Lemma region_keeps_its_shape_witness :
  let w := exec sample_SIZE flag_set_schedule
             (launch 64 64 (replicate 3 (Some "LAB\amy"))) in
  exists fm, mappings w !! sample_region = Some fm
    /\ fm_bytes fm !! 0%nat = Some 1
    /\ List.length (fm_bytes fm) = sample_SIZE
    /\ (forall v, fm_bytes fm !! 0%nat = Some v -> v = 0 \/ v = 1)
    /\ (forall i v, (0 < i)%nat -> fm_bytes fm !! i = Some v -> v = 0).
Proof.
  intros w.
  destruct (mappings w !! sample_region) as [fm|] eqn:E;
    [|vm_compute in E; discriminate].
  exists fm. split; [reflexivity|].
  split; [vm_compute in E; injection E as <-; reflexivity|].
  exact (region_keeps_its_shape sample_SIZE 64 64
           (replicate 3 (Some "LAB\amy")) flag_set_schedule sample_region fm E).
Defined.

(** ** The life of a region and the roles *)

(** The handles on every region, before and after a step: a step other than
    the creation and the exit changes no handle. *)
Lemma handles_write_flag name v (ns : gmap string FileMapping) n :
  fm_handles <$> (write_flag name v ns !! n) = fm_handles <$> (ns !! n).
Proof.
  unfold write_flag. destruct (ns !! name) as [fm0|] eqn:E; [|reflexivity].
  destruct (decide (name = n)) as [->|Hne].
  - rewrite lookup_insert_eq, E. reflexivity.
  - rewrite lookup_insert_ne by done. reflexivity.
Qed.

Lemma handles_memset0 name size (ns : gmap string FileMapping) n :
  fm_handles <$> (memset0 name size ns !! n) = fm_handles <$> (ns !! n).
Proof.
  unfold memset0. destruct (ns !! name) as [fm0|] eqn:E; [|reflexivity].
  destruct (decide (name = n)) as [->|Hne].
  - rewrite lookup_insert_eq, E. reflexivity.
  - rewrite lookup_insert_ne by done. reflexivity.
Qed.

Lemma CloseHandle_lookup self name (ns : gmap string FileMapping) n fm' :
  CloseHandle self name ns !! n = Some fm' ->
  exists fm, ns !! n = Some fm
    /\ ((n <> name /\ fm' = fm)
        \/ (n = name /\ fm_handles fm' = fm_handles fm ∖ {[self]}
            /\ fm_handles fm' <> ∅ /\ fm_bytes fm' = fm_bytes fm)).
Proof.
  unfold CloseHandle. destruct (ns !! name) as [fm0|] eqn:E.
  - case_decide as Hempty.
    + destruct (decide (name = n)) as [->|Hne].
      * rewrite lookup_delete_eq. discriminate.
      * rewrite lookup_delete_ne by done. eauto 10.
    + destruct (decide (name = n)) as [->|Hne].
      * rewrite lookup_insert_eq. intros [= <-]. cbn. eauto 10.
      * rewrite lookup_insert_ne by done. eauto 10.
  - intros Hn. exists fm'. split; [assumption|]. left.
    split; [congruence|reflexivity].
Qed.


(** A step is the exit of the process, its creation of a handle, or a step
    that changes no handle and leaves the process running. *)
Lemma handleCmd_handles SZ p o h ns ms out :
  handleCmd SZ p o h ns ms = Some out ->
  (exists status, pc (o_self out) = Exited status
     /\ o_mappings out = CloseHandle p (userShareMemName_ h) ns)
  \/ (exists fm, pc h = L73_CreateFileMapping
        /\ pc (o_self out) = L86_MapViewOfFile
        /\ o_mappings out = <[userShareMemName_ h := fm]> ns
        /\ fm_handles fm
           = {[p]} ∪ default ∅ (fm_handles <$> (ns !! userShareMemName_ h)))
  \/ (pc h <> L73_CreateFileMapping
      /\ live (o_self out) /\ pc (o_self out) <> L73_CreateFileMapping
      /\ forall n, fm_handles <$> (o_mappings out !! n)
                   = fm_handles <$> (ns !! n)).
Proof.
  intros H. handle_cases H.
  all: try (left; eexists; split; [reflexivity|]; try reflexivity;
            cfm_cases; reflexivity).
  all: try (right; left; cfm_cases; eexists;
            (split; [first [assumption|reflexivity]|]); (split; [reflexivity|]);
            (split; [reflexivity|]);
            match goal with
            | E : _ !! _ = _ |- _ =>
                rewrite E; cbn;
                first [reflexivity | symmetry; apply (right_id_L ∅ (∪))]
            end).
  all: right; right; (split; [congruence|]); (split; [|split]).
  all: try (intros n; first [ reflexivity | apply handles_memset0
                            | apply handles_write_flag ]).
  all: unfold live, not; intros; cbn in *;
    unfold timer_fires_again, after_wait in *;
    repeat case_match; congruence.
Qed.

Lemma handles_of_running_step SZ w p o w' :
  handles_of_running w -> step SZ p o w = Some w' -> handles_of_running w'.
Proof.
  intros Hinv Hstep.
  apply step_inv in Hstep as (h & out & Hh & Hout & ->).
  pose proof (handleCmd_names _ _ _ _ _ _ _ Hout) as [Hname _].
  assert (Hother : forall q hq n, q <> p -> procs w !! q = Some hq ->
            running_holder n hq ->
            exists h', <[p := o_self out]> (procs w) !! q = Some h'
                       /\ running_holder n h').
  { intros q hq n Hq Hhq Hrun. exists hq.
    rewrite list_lookup_insert_ne by congruence. auto. }
  assert (Hself : forall n, live (o_self out) -> userShareMemName_ h = n ->
            exists h', <[p := o_self out]> (procs w) !! p = Some h'
                       /\ running_holder n h').
  { intros n Hlive Hn. exists (o_self out).
    rewrite list_lookup_insert_eq by (eapply lookup_lt_Some; eassumption).
    split; [reflexivity|]. split; [assumption|].
    split; [eapply handleCmd_pc; eassumption|congruence]. }
  intros n fm' Hn. cbn [mappings procs] in *.
  apply handleCmd_handles in Hout
    as [(status & Hpc & Hmap)|[(fm & Hpc & Hpc' & Hmap & Hfm)
                              |(Hpc & Hlive & Hpc' & Hmap)]].
  - rewrite Hmap in Hn.
    apply CloseHandle_lookup in Hn
      as (fm & Hfm & [[Hne ->]|(-> & Hhs & Hnonempty & _)]).
    + destruct (Hinv n fm Hfm) as [Hnon Hall]. split; [assumption|].
      intros q Hq. destruct (Hall q Hq) as (hq & Hhq & Hrun).
      destruct (decide (q = p)) as [->|Hqp]; [|eauto].
      destruct Hrun as (_ & _ & Hnq). congruence.
    + split; [assumption|]. intros q Hq. rewrite Hhs in Hq.
      destruct (Hinv _ fm Hfm) as [_ Hall].
      apply elem_of_difference in Hq as [Hq Hqp].
      destruct (Hall q Hq) as (hq & Hhq & Hrun).
      apply (Hother q hq); [|assumption..].
      intros ->. apply Hqp, elem_of_singleton. reflexivity.
  - assert (Hlive : live (o_self out)) by (intros s; rewrite Hpc'; discriminate).
    assert (Hfree : forall n0 fm0 , (mappings w) !! n0 = Some fm0 ->
              p ∉ fm_handles fm0).
    { intros n0 fm0 Hfm0 Hp. destruct (Hinv n0 fm0 Hfm0) as [_ Hall].
      destruct (Hall p Hp) as (hq & Hhq & _ & Hnot & _). congruence. }
    rewrite Hmap in Hn.
    destruct (decide (userShareMemName_ h = n)) as [Heq|Hne].
    + rewrite Heq, lookup_insert_eq in Hn. injection Hn as <-.
      split.
      { apply (non_empty_inhabited_L p). rewrite Hfm.
        apply elem_of_union_l, elem_of_singleton. reflexivity. }
      intros q Hq. rewrite Hfm in Hq.
      destruct (decide (q = p)) as [->|Hqp]; [auto|].
      apply elem_of_union in Hq as [Hq|Hq];
        [apply elem_of_singleton in Hq; congruence|].
      destruct (mappings w !! userShareMemName_ h) as [fm0|] eqn:Hfm0;
        cbn in Hq; [|apply elem_of_empty in Hq; destruct Hq].
      destruct (Hinv _ fm0 Hfm0) as [_ Hall].
      destruct (Hall q Hq) as (hq & Hhq & Hrun).
      rewrite <- Heq. eauto.
    + rewrite lookup_insert_ne in Hn by done.
      destruct (Hinv n fm' Hn) as [Hnon Hall]. split; [assumption|].
      intros q Hq. destruct (Hall q Hq) as (hq & Hhq & Hrun).
      destruct (decide (q = p)) as [->|Hqp]; [|eauto].
      exfalso. eapply Hfree; eassumption.
  - pose proof (Hmap n) as Hhs. rewrite Hn in Hhs. cbn in Hhs.
    destruct (mappings w !! n) as [fm|] eqn:Hfm; [|discriminate].
    injection Hhs as Hhs. rewrite Hhs.
    destruct (Hinv n fm Hfm) as [Hnon Hall]. split; [assumption|].
    intros q Hq. destruct (Hall q Hq) as (hq & Hhq & Hrun).
    destruct (decide (q = p)) as [->|Hqp]; [|eauto].
    apply Hself; [assumption|]. destruct Hrun as (_ & _ & Hnq). congruence.
Qed.

Lemma handles_of_running_exec SZ s1 s2 accounts sched :
  handles_of_running (exec SZ sched (launch s1 s2 accounts)).
Proof.
  apply exec_invariant_any.
  - intros w p o w' Hinv Hstep. eapply handles_of_running_step; eassumption.
  - intros n fm Hn. cbn in Hn. rewrite lookup_empty in Hn. discriminate.
Qed.

(** A region exists exactly while one of the processes that created a
    handle on it is running. *)
Lemma region_holders SZ s1 s2 accounts sched (n : string) :
  let w := exec SZ sched (launch s1 s2 accounts) in
  (forall fm, mappings w !! n = Some fm ->
     forall p, p ∈ fm_handles fm
               <-> exists h, procs w !! p = Some h /\ running_holder n h)
  /\ (mappings w !! n = None
      <-> forall p h, procs w !! p = Some h -> ~ running_holder n h).
Proof.
  intros w.
  pose proof (handles_of_running_exec SZ s1 s2 accounts sched) as Hrun.
  pose proof (election_inv_exec SZ s1 s2 accounts sched) as Hinv.
  fold w in Hrun, Hinv.
  assert (Hback : forall p h, procs w !! p = Some h -> running_holder n h ->
            exists fm, mappings w !! n = Some fm /\ p ∈ fm_handles fm).
  { intros p h Hh (Hlive & Hpc & Hname).
    rewrite <- Hname. eapply inv_handle; eassumption. }
  split.
  - intros fm Hfm p. split.
    + intros Hp. destruct (Hrun n fm Hfm) as [_ Hall]. auto.
    + intros (h & Hh & Hholder).
      destruct (Hback p h Hh Hholder) as (fm' & Hfm' & Hp). congruence.
  - split.
    + intros Hnone p h Hh Hholder.
      destruct (Hback p h Hh Hholder) as (fm' & Hfm' & _). congruence.
    + intros Hnobody. destruct (mappings w !! n) as [fm|] eqn:Hfm;
        [|reflexivity].
      destruct (Hrun n fm Hfm) as [Hnon Hall].
      apply set_choose_L in Hnon as [p Hp].
      destruct (Hall p Hp) as (h & Hh & Hholder).
      destruct (Hnobody p h Hh Hholder).
Qed.

(** X6.  In every execution a region exists exactly while some process that
    has created its handle on it is still running, and its handles are those
    of exactly these processes: each way a process ends (the status 0 of a
    Follower, the two fatal errors) gives the handle back, and nothing else
    does. *)
Theorem region_lives_with_its_holders
    (SHARED_MEM_SIZE sizeof_mem sizeof_mutex : nat)
    (accounts : list (option string)) (sched : list (nat * Oracle))
    (n : string) :
  let w := exec SHARED_MEM_SIZE sched
             (launch sizeof_mem sizeof_mutex accounts) in
  (forall fm, mappings w !! n = Some fm ->
     forall p, p ∈ fm_handles fm
               <-> exists h, procs w !! p = Some h /\ running_holder n h)
  /\ (mappings w !! n = None
      <-> forall p h, procs w !! p = Some h -> ~ running_holder n h).
Proof. apply region_holders. Qed.

Lemma region_lives_with_its_holders_witness :
  let w := exec sample_SIZE leader_fails_to_map
             (launch 64 64 (replicate 2 (Some "LAB\amy"))) in
  procs w !! 0%nat = Some (sample_leader_at (Exited (-1)))
  /\ mappings w !! sample_region = None.
Proof.
  intros w. split; [vm_compute; reflexivity|].
  apply (proj2 (region_lives_with_its_holders sample_SIZE 64 64
                  (replicate 2 (Some "LAB\amy")) leader_fails_to_map
                  sample_region)).
  intros p h Hh (Hlive & Hpc & _).
  destruct p as [|[|p]]; vm_compute in Hh; [| |discriminate];
    injection Hh as <-.
  - apply (Hlive (-1)). reflexivity.
  - apply Hpc. reflexivity.
Defined.

(** X7.  The role a starting process takes at lines 73-84, when the creation
    does not fail, is decided by the processes running at that moment: it
    becomes Leader exactly when no running process holds the region of its
    name (none was started, or all have ended), and Follower exactly when
    one does, be that one a Leader or a Follower.  So the end of a Leader
    makes the next process Leader only if no Follower holds the region
    then. *)
Theorem role_decided_by_running_holders
    (SHARED_MEM_SIZE sizeof_mem sizeof_mutex : nat)
    (accounts : list (option string)) (sched : list (nat * Oracle))
    (q : nat) (hq : CmdLineHandler) (o : Oracle) :
  let w := exec SHARED_MEM_SIZE sched
             (launch sizeof_mem sizeof_mutex accounts) in
  procs w !! q = Some hq -> pc hq = L73_CreateFileMapping ->
  CreateFileMapping_fails o = false ->
  exists w' hq',
    step SHARED_MEM_SIZE q o w = Some w'
    /\ procs w' !! q = Some hq'
    /\ (sharedType_ hq' = Some SHARED_TYPE_LEADER
        <-> forall p h, procs w !! p = Some h ->
                        ~ running_holder (userShareMemName_ hq) h)
    /\ (sharedType_ hq' = Some SHARED_TYPE_FOLLOWER
        <-> exists p h, procs w !! p = Some h
                        /\ running_holder (userShareMemName_ hq) h).
Proof.
  intros w Hq Hpc Hok.
  destruct (region_holders SHARED_MEM_SIZE sizeof_mem sizeof_mutex accounts
              sched (userShareMemName_ hq)) as [Hsome Hnone].
  pose proof (handles_of_running_exec SHARED_MEM_SIZE sizeof_mem sizeof_mutex
                accounts sched) as Hrun.
  fold w in Hsome, Hnone, Hrun.
  rewrite (step_eq _ _ _ _ _ Hq).
  unfold handleCmd, toBeLeader. rewrite Hpc, Hok.
  unfold CreateFileMapping.
  destruct (mappings w !! userShareMemName_ hq) as [fm|] eqn:Hfm; cbn.
  - destruct (Hrun _ fm Hfm) as [Hnon Hall].
    apply set_choose_L in Hnon as [p Hp].
    destruct (Hall p Hp) as (h & Hh & Hholder).
    eexists _, _. split; [reflexivity|].
    split; [eapply after_lookup; eassumption|].
    cbn. split; split.
    + discriminate.
    + intros Hnobody. destruct (Hnobody p h Hh Hholder).
    + eauto.
    + reflexivity.
  - eexists _, _. split; [reflexivity|].
    split; [eapply after_lookup; eassumption|].
    cbn. split; split.
    + intros _. apply Hnone. reflexivity.
    + reflexivity.
    + discriminate.
    + intros (p & h & Hh & Hholder).
      exfalso. eapply (proj1 Hnone); [reflexivity|eassumption..].
Qed.

Lemma role_decided_by_running_holders_witness :
  let alone := exec sample_SIZE leader_fails_to_map
                 (launch 64 64 (replicate 2 (Some "LAB\amy"))) in
  let beside := exec sample_SIZE leader_fails_beside_follower
                  (launch 64 64 (replicate 3 (Some "LAB\amy"))) in
  (exists w' hq',
     step sample_SIZE 1 oracle_quiet alone = Some w'
     /\ procs w' !! 1%nat = Some hq'
     /\ sharedType_ hq' = Some SHARED_TYPE_LEADER)
  /\ (exists w' hq',
        step sample_SIZE 2 oracle_quiet beside = Some w'
        /\ procs w' !! 2%nat = Some hq'
        /\ sharedType_ hq' = Some SHARED_TYPE_FOLLOWER).
Proof.
  intros alone beside. split.
  - destruct (role_decided_by_running_holders sample_SIZE 64 64
                (replicate 2 (Some "LAB\amy")) leader_fails_to_map 1
                sample_fresh oracle_quiet)
      as (w' & hq' & Hstep & Hq' & Hleader & _);
      [vm_compute; reflexivity|reflexivity|reflexivity|].
    exists w', hq'. split; [exact Hstep|]. split; [exact Hq'|].
    apply Hleader. intros p h Hh (Hlive & Hpc & _).
    destruct p as [|[|p]]; vm_compute in Hh; [| |discriminate];
      injection Hh as <-.
    + apply (Hlive (-1)). reflexivity.
    + apply Hpc. reflexivity.
  - destruct (role_decided_by_running_holders sample_SIZE 64 64
                (replicate 3 (Some "LAB\amy")) leader_fails_beside_follower 2
                sample_fresh oracle_quiet)
      as (w' & hq' & Hstep & Hq' & _ & Hfollower);
      [vm_compute; reflexivity|reflexivity|reflexivity|].
    exists w', hq'. split; [exact Hstep|]. split; [exact Hq'|].
    apply Hfollower.
    exists 1%nat, (sample_follower_at L86_MapViewOfFile).
    split; [vm_compute; reflexivity|].
    split; [intros s; discriminate|]. split; [discriminate|reflexivity].
Defined.

(** The events of a step tell the role of the process that takes it. *)
Lemma handleCmd_event_role SZ p o h ns ms out e r :
  handleCmd SZ p o h ns ms = Some out ->
  (follower_pc (pc h) = true -> sharedType_ h = Some SHARED_TYPE_FOLLOWER) ->
  (leader_only_pc (pc h) = true -> sharedType_ h = Some SHARED_TYPE_LEADER) ->
  e ∈ o_events out -> event_role e = Some r ->
  sharedType_ (o_self out) = Some r.
Proof.
  intros H Hfol Hlead He Hr.
  handle_cases H;
    repeat match goal with
    | He : _ ∈ _ ++ _ |- _ => apply elem_of_app in He as [He|He]
    | He : _ ∈ _ :: _ |- _ => apply elem_of_cons in He as [->|He]
    | He : _ ∈ [] |- _ => apply elem_of_nil in He; destruct He
    end;
    cbn in Hr; simplify_eq; auto.
  match goal with
  | E : isLeader _ = true |- _ =>
      unfold isLeader in E; apply bool_decide_eq_true in E; exact E
  end.
Qed.

Lemma events_by_role_step SZ w p o w' :
  election_inv w -> lock_inv w -> events_by_role w ->
  step SZ p o w = Some w' -> events_by_role w'.
Proof.
  intros Helect Hlock Hinv Hstep q e r Hqe Hr.
  pose proof Hstep as Hstep'.
  apply step_inv in Hstep' as (h & out & Hh & Hout & ->).
  cbn [log] in Hqe. apply elem_of_app in Hqe as [Hqe|Hqe].
  - destruct (Hinv q e r Hqe Hr) as (hq & Hhq & Hrole).
    eapply role_kept_step; eassumption.
  - apply list_elem_of_fmap in Hqe as (e' & [= -> ->] & He).
    exists (o_self out). cbn [procs].
    rewrite list_lookup_insert_eq by (eapply lookup_lt_Some; eassumption).
    split; [reflexivity|].
    eapply handleCmd_event_role; try eassumption.
    + eapply li_follower; eassumption.
    + eapply li_leader; eassumption.
Qed.

Lemma events_by_role_exec SZ s1 s2 accounts sched :
  events_by_role (exec SZ sched (launch s1 s2 accounts)).
Proof.
  pose (P := fun w => election_inv w /\ lock_inv w /\ events_by_role w).
  enough (P (exec SZ sched (launch s1 s2 accounts))) as (_ & _ & H)
    by exact H.
  apply exec_invariant_any.
  - intros w p o w' (He & Hl & Hr) Hstep. split; [|split].
    + eapply election_inv_step; eassumption.
    + eapply lock_inv_step; eassumption.
    + eapply events_by_role_step; eassumption.
  - split; [apply election_inv_launch|]. split; [apply lock_inv_launch|].
    intros p e r Hpe. cbn in Hpe. apply elem_of_nil in Hpe. destruct Hpe.
Qed.

(** X8.  What a process does tells its role, in every execution: only a
    process whose role is Leader starts the timer, reads or clears the flag,
    zeroes the region, waits for the mutex without a limit or calls
    [createNewSession]; only a process whose role is Follower tries the mutex
    with a zero wait, sets the flag, brings a window to the foreground or
    exits with status 0. *)
Theorem events_tell_the_role
    (SHARED_MEM_SIZE sizeof_mem sizeof_mutex : nat)
    (accounts : list (option string)) (sched : list (nat * Oracle))
    (p : nat) (e : Event) (r : SharedType) :
  let w := exec SHARED_MEM_SIZE sched
             (launch sizeof_mem sizeof_mutex accounts) in
  (p, e) ∈ log w -> event_role e = Some r ->
  exists h, procs w !! p = Some h /\ sharedType_ h = Some r.
Proof.
  intros w. apply events_by_role_exec.
Qed.

Lemma events_tell_the_role_witness :
  let w := exec sample_SIZE
             (flag_set_schedule ++ replicate 3 (0%nat, oracle_quiet))
             (launch 64 64 (replicate 3 (Some "LAB\amy"))) in
  (exists h, procs w !! 0%nat = Some h
             /\ sharedType_ h = Some SHARED_TYPE_LEADER)
  /\ (exists h, procs w !! 1%nat = Some h
                /\ sharedType_ h = Some SHARED_TYPE_FOLLOWER).
Proof.
  intros w. split.
  - apply (events_tell_the_role sample_SIZE 64 64
             (replicate 3 (Some "LAB\amy"))
             (flag_set_schedule ++ replicate 3 (0%nat, oracle_quiet))
             0%nat (EvWriteFlag 0) SHARED_TYPE_LEADER);
      [vm_compute; repeat constructor|reflexivity].
  - apply (events_tell_the_role sample_SIZE 64 64
             (replicate 3 (Some "LAB\amy"))
             (flag_set_schedule ++ replicate 3 (0%nat, oracle_quiet))
             1%nat (EvWriteFlag 1) SHARED_TYPE_FOLLOWER);
      [vm_compute; repeat constructor|reflexivity].
Defined.

(** ** What the log of a process adds up to *)

Lemma events_of_app p l1 l2 :
  events_of p (l1 ++ l2) = events_of p l1 ++ events_of p l2.
Proof. unfold events_of. rewrite filter_app, fmap_app. reflexivity. Qed.

Lemma events_of_self p evs : events_of p (pair p <$> evs) = evs.
Proof.
  unfold events_of. induction evs as [|e evs IH]; [reflexivity|].
  cbn [fmap list_fmap]. rewrite filter_cons_True by reflexivity.
  cbn [fmap list_fmap]. f_equal. exact IH.
Qed.

Lemma events_of_other p q evs : q <> p -> events_of q (pair p <$> evs) = [].
Proof.
  intros Hne. unfold events_of. induction evs as [|e evs IH]; [reflexivity|].
  cbn [fmap list_fmap]. rewrite filter_cons_False by (cbn; congruence).
  exact IH.
Qed.

Lemma count_if_app f l1 l2 :
  count_if f (l1 ++ l2) = (count_if f l1 + count_if f l2)%nat.
Proof. unfold count_if. rewrite List.filter_app, length_app. reflexivity. Qed.

(** The events of process [q] after a step of [p]. *)
Lemma events_of_after w p h' ns ms evs q :
  events_of q (log (after w p h' ns ms evs))
  = events_of q (log w) ++ (if decide (q = p) then evs else []).
Proof.
  cbn [log after]. rewrite events_of_app. f_equal.
  case_decide as Hq; [subst; apply events_of_self|].
  apply events_of_other. assumption.
Qed.

Lemma sessions_accounted_step SZ w p o w' :
  sessions_accounted w -> step SZ p o w = Some w' -> sessions_accounted w'.
Proof.
  intros Hinv Hstep q hq' Hq'.
  apply step_inv in Hstep as (h & out & Hh & Hout & ->).
  change (mkWorld (o_mappings out) (o_mutexes out)
            (<[p:=o_self out]> (procs w))
            (log w ++ (pair p <$> o_events out)))
    with (after w p (o_self out) (o_mappings out) (o_mutexes out)
            (o_events out)) in *.
  unfold clears, sessions, observations.
  rewrite events_of_after, !count_event_app, count_if_app.
  cbn [procs after] in Hq'.
  destruct (lookup_after_step _ _ _ _ _ _ Hh Hq') as [[-> ->]|[Hne Hq]].
  - destruct (Hinv p h Hh) as [Hc Ho].
    unfold clears, sessions, observations in Hc, Ho.
    rewrite decide_True by reflexivity.
    revert Hc Ho. generalize (events_of p (log w)). intros l Hc Ho.
    unfold at_one_of in *.
    handle_cases Hout; cbn in *;
      unfold timer_fires_again, after_wait in *;
      repeat (case_bool_decide || case_match); simplify_eq/=;
      repeat match goal with
      | H : _ ∈ _ |- _ => inversion H; subst; clear H
      | H : ¬ (_ ∈ _) |- _ => solve [exfalso; apply H; repeat constructor]
      end; try lia.
  - rewrite decide_False by assumption. cbn.
    rewrite !Nat.add_0_r. apply Hinv. assumption.
Qed.

Lemma sessions_accounted_exec SZ s1 s2 accounts sched :
  sessions_accounted (exec SZ sched (launch s1 s2 accounts)).
Proof.
  apply exec_invariant_any.
  - intros w p o w' Hinv Hstep. eapply sessions_accounted_step; eassumption.
  - intros p h Hh. apply launch_fresh in Hh as [Hpc _].
    unfold at_one_of. rewrite Hpc.
    rewrite !bool_decide_eq_false_2; [split; reflexivity|..];
      intros Hin;
      repeat match goal with
      | H : _ ∈ _ |- _ => inversion H; subst; clear H
      end.
Qed.

(** X9.  In every execution, each poll of a Leader that finds the flag set
    leads to exactly one clearing of the flag and one call of
    [createNewSession]: the clearings of a process are its calls of
    [createNewSession], and one more while it is about to make the call
    (line 114); the polls that found the flag set are its clearings, and one
    more while it is between the read and the clearing (lines 112, 113). *)
Theorem one_session_per_observed_flag
    (SHARED_MEM_SIZE sizeof_mem sizeof_mutex : nat)
    (accounts : list (option string)) (sched : list (nat * Oracle))
    (p : nat) (h : CmdLineHandler) :
  let w := exec SHARED_MEM_SIZE sched
             (launch sizeof_mem sizeof_mutex accounts) in
  procs w !! p = Some h ->
  clears p w = (sessions p w + at_one_of [L114_createNewSession] h)%nat
  /\ observations p w
     = (clears p w
        + at_one_of [L112_WaitForSingleObject; L113_clear_flag] h)%nat.
Proof.
  intros w. apply sessions_accounted_exec.
Qed.

Lemma one_session_per_observed_flag_witness :
  let w := exec sample_SIZE
             (flag_set_schedule ++ replicate 3 (0%nat, oracle_quiet))
             (launch 64 64 (replicate 3 (Some "LAB\amy"))) in
  observations 0 w = 1%nat
  /\ clears 0 w
     = (sessions 0 w
        + at_one_of [L114_createNewSession]
            (sample_leader_at L114_createNewSession))%nat
  /\ observations 0 w
     = (clears 0 w
        + at_one_of [L112_WaitForSingleObject; L113_clear_flag]
            (sample_leader_at L114_createNewSession))%nat.
Proof.
  intros w. split; [vm_compute; reflexivity|].
  apply (one_session_per_observed_flag sample_SIZE 64 64
           (replicate 3 (Some "LAB\amy"))
           (flag_set_schedule ++ replicate 3 (0%nat, oracle_quiet))
           0%nat (sample_leader_at L114_createNewSession)).
  vm_compute. reflexivity.
Defined.

Lemma exits_accounted_step SZ w p o w' :
  lock_inv w -> exits_accounted w -> step SZ p o w = Some w' ->
  exits_accounted w'.
Proof.
  intros Hlock Hinv Hstep q hq' Hq'.
  apply step_inv in Hstep as (h & out & Hh & Hout & ->).
  change (mkWorld (o_mappings out) (o_mutexes out)
            (<[p:=o_self out]> (procs w))
            (log w ++ (pair p <$> o_events out)))
    with (after w p (o_self out) (o_mappings out) (o_mutexes out)
            (o_events out)) in *.
  unfold fatalboxes. rewrite events_of_after, count_if_app.
  cbn [procs after] in Hq'.
  destruct (lookup_after_step _ _ _ _ _ _ Hh Hq') as [[-> ->]|[Hne Hq]].
  - destruct (Hinv p h Hh) as [Hlive _].
    assert (Hzero : fatalboxes p w = 0%nat).
    { apply Hlive. intros s Hs. unfold handleCmd in Hout. rewrite Hs in Hout.
      discriminate. }
    unfold fatalboxes in Hzero. rewrite Hzero.
    rewrite decide_True by reflexivity.
    pose proof (li_follower _ Hlock p h Hh) as Hfol.
    unfold live.
    handle_cases Hout; cbn in *;
      unfold timer_fires_again, after_wait in *;
      (split; [intros Hl; try reflexivity;
               try (exfalso; eapply Hl; reflexivity)
              |intros s Hs; repeat case_match; simplify_eq/=; auto]).
  - rewrite decide_False by assumption. cbn.
    rewrite !Nat.add_0_r. apply Hinv. assumption.
Qed.

Lemma exits_accounted_exec SZ s1 s2 accounts sched :
  exits_accounted (exec SZ sched (launch s1 s2 accounts)).
Proof.
  pose (P := fun w => lock_inv w /\ exits_accounted w).
  enough (P (exec SZ sched (launch s1 s2 accounts))) as [_ H] by exact H.
  apply exec_invariant_any.
  - intros w p o w' [Hl He] Hstep. split.
    + eapply lock_inv_step; eassumption.
    + eapply exits_accounted_step; eassumption.
  - split; [apply lock_inv_launch|].
    intros p h Hh. apply launch_fresh in Hh as [Hpc _].
    split; [reflexivity|]. intros s Hs. congruence.
Qed.

(** X10.  The calls of [exit] that [handleCmd] and [toBeLeader] make, in
    every execution: a process that has made none has shown no [fatalbox];
    [exit(0)] (line 62) is called only by a Follower that has shown no
    [fatalbox]; [exit(-1)] (lines 82 and 94) only by a process that has
    shown exactly one.  (The end of a Leader that shuts down is not in
    these functions.) *)
Theorem exit_status_tells_the_end
    (SHARED_MEM_SIZE sizeof_mem sizeof_mutex : nat)
    (accounts : list (option string)) (sched : list (nat * Oracle))
    (p : nat) (h : CmdLineHandler) :
  let w := exec SHARED_MEM_SIZE sched
             (launch sizeof_mem sizeof_mutex accounts) in
  procs w !! p = Some h ->
  (live h -> fatalboxes p w = 0%nat)
  /\ (forall status, pc h = Exited status ->
        (status = 0 /\ fatalboxes p w = 0%nat
         /\ sharedType_ h = Some SHARED_TYPE_FOLLOWER)
        \/ (status = -1 /\ fatalboxes p w = 1%nat)).
Proof.
  intros w Hh.
  destruct (exits_accounted_exec SHARED_MEM_SIZE sizeof_mem sizeof_mutex
              accounts sched p h Hh) as [Hlive Hend].
  split; assumption.
Qed.

Lemma exit_status_tells_the_end_witness :
  let w := exec sample_SIZE leader_fails_to_map
             (launch 64 64 (replicate 2 (Some "LAB\amy"))) in
  let h := sample_leader_at (Exited (-1)) in
  (live h -> fatalboxes 0 w = 0%nat)
  /\ (forall status, pc h = Exited status ->
        (status = 0 /\ fatalboxes 0 w = 0%nat
         /\ sharedType_ h = Some SHARED_TYPE_FOLLOWER)
        \/ (status = -1 /\ fatalboxes 0 w = 1%nat)).
Proof.
  intros w h.
  apply (exit_status_tells_the_end sample_SIZE 64 64
           (replicate 2 (Some "LAB\amy")) leader_fails_to_map 0%nat h).
  vm_compute. reflexivity.
Defined.

(** ** Progress *)

(** X11.  A Follower never hangs: from line 124, in any world and whatever
    the desktop, the mutex and the region are, [sendMsgToLeader] and line 62
    take at most 5 steps, none of which waits, and end the process with
    status 0; no other process is touched. *)
Theorem follower_always_ends (SHARED_MEM_SIZE : nat) (w : World) (p : nat)
    (h : CmdLineHandler) (os : list Oracle) :
  procs w !! p = Some h -> pc h = L124_FindWindowA ->
  List.length os = 5%nat ->
  exists k w',
    (2 <= k <= 5)%nat
    /\ run SHARED_MEM_SIZE p (take k os) w = Some w'
    /\ procs w' !! p = Some (at_pc h (Exited 0))
    /\ forall q, q <> p -> procs w' !! q = procs w !! q.
Proof.
  intros Hh Hpc Hlen.
  destruct os as [|o1 [|o2 [|o3 [|o4 [|o5 [|]]]]]]; try discriminate.
  assert (Hexit : forall w1 o, procs w1 !! p = Some (at_pc h L62_exit) ->
            exists w', step SHARED_MEM_SIZE p o w1 = Some w'
              /\ procs w' !! p = Some (at_pc h (Exited 0))
              /\ forall q, q <> p -> procs w' !! q = procs w1 !! q).
  { intros w1 o H1. rewrite (step_L62 _ _ _ _ _ H1 eq_refl).
    eexists. split; [reflexivity|]. split.
    - eapply after_lookup. eassumption.
    - intros q Hq. cbn. apply list_lookup_insert_ne. congruence. }
  pose proof (step_L124 SHARED_MEM_SIZE w p o1 h Hh Hpc) as H1.
  destruct (FindWindowA _ _ _) as [wnd|].
  - (* a window: lines 125-127, then line 62 *)
    match type of H1 with _ = Some ?x => set (w1 := x) in * end.
    assert (Hh1 : procs w1 !! p = Some (at_pc h L62_exit))
      by (eapply after_lookup; eassumption).
    destruct (Hexit _ o2 Hh1) as (w' & H2 & Hp & Hq).
    exists 2%nat, w'. split; [lia|]. split; [|split; [exact Hp|]].
    + cbn [take]. rewrite (run_cons _ _ _ _ _ _ H1), (run_cons _ _ _ _ _ _ H2).
      reflexivity.
    + intros q Hne. rewrite (Hq q Hne). cbn.
      apply list_lookup_insert_ne. congruence.
  - (* no window: the zero wait of line 130 *)
    match type of H1 with _ = Some ?x => set (w1 := x) in * end.
    assert (Hh1 : procs w1 !! p = Some (at_pc h L130_WaitForSingleObject))
      by (eapply after_lookup; eassumption).
    assert (Hq1 : forall q, q <> p -> procs w1 !! q = procs w !! q)
      by (intros q Hne; cbn; apply list_lookup_insert_ne; congruence).
    pose proof (step_L130 SHARED_MEM_SIZE w1 p o2 _ Hh1 eq_refl) as H2.
    assert (Hwait : exists r m,
              WaitForSingleObject p
                (mutex_at (userShareMemMutexName_
                             (at_pc h L130_WaitForSingleObject)) (mutexes w1))
                0 = Some (r, m)).
    { destruct (mutex_at _ _) as [| |owner n]; cbn; eauto.
      case_decide; eauto. }
    destruct Hwait as (r & m & Hwait). rewrite Hwait in H2. cbn in H2.
    match type of H2 with _ = Some ?x => set (w2 := x) in * end.
    assert (Hh2 : procs w2 !! p = Some (at_pc h (after_wait r)))
      by (eapply (after_lookup w1); eassumption).
    assert (Hq2 : forall q, q <> p -> procs w2 !! q = procs w !! q).
    { intros q Hne. rewrite <- (Hq1 q Hne). cbn.
      apply list_lookup_insert_ne. congruence. }
    unfold after_wait in Hh2. destruct (negb (WAIT_OBJECT_0 =? r)).
    + (* the mutex was not acquired: line 133, then line 62 *)
      destruct (Hexit _ o3 Hh2) as (w' & H3 & Hp & Hq).
      exists 3%nat, w'. split; [lia|]. split; [|split; [exact Hp|]].
      * cbn [take].
        rewrite (run_cons _ _ _ _ _ _ H1), (run_cons _ _ _ _ _ _ H2),
          (run_cons _ _ _ _ _ _ H3).
        reflexivity.
      * intros q Hne. rewrite (Hq q Hne). auto.
    + (* lines 135 and 136, then line 62 *)
      pose proof (step_L135 SHARED_MEM_SIZE w2 p o3 _ Hh2 eq_refl) as H3.
      match type of H3 with _ = Some ?x => set (w3 := x) in * end.
      assert (Hh3 : procs w3 !! p = Some (at_pc h L136_ReleaseMutex))
        by (eapply (after_lookup w2); eassumption).
      pose proof (step_L136 SHARED_MEM_SIZE w3 p o4 _ Hh3 eq_refl) as H4.
      match type of H4 with _ = Some ?x => set (w4 := x) in * end.
      assert (Hh4 : procs w4 !! p = Some (at_pc h L62_exit))
        by (eapply (after_lookup w3); eassumption).
      destruct (Hexit _ o5 Hh4) as (w' & H5 & Hp & Hq).
      exists 5%nat, w'. split; [lia|]. split; [|split; [exact Hp|]].
      * cbn [take].
        rewrite (run_cons _ _ _ _ _ _ H1), (run_cons _ _ _ _ _ _ H2),
          (run_cons _ _ _ _ _ _ H3), (run_cons _ _ _ _ _ _ H4),
          (run_cons _ _ _ _ _ _ H5).
        reflexivity.
      * intros q Hne. rewrite (Hq q Hne). rewrite <- (Hq2 q Hne). cbn.
        rewrite !list_lookup_insert_ne by congruence. reflexivity.
Qed.

Lemma follower_always_ends_witness :
  exists k w',
    (2 <= k <= 5)%nat
    /\ run sample_SIZE 2 (take k (replicate 5 oracle_quiet)) world_leader_busy
       = Some w'
    /\ procs w' !! 2%nat = Some (at_pc (sample_follower_at L124_FindWindowA)
                                   (Exited 0))
    /\ forall q, q <> 2%nat -> procs w' !! q = procs world_leader_busy !! q.
Proof.
  apply (follower_always_ends sample_SIZE world_leader_busy 2
           (sample_follower_at L124_FindWindowA) (replicate 5 oracle_quiet));
    vm_compute; reflexivity.
Defined.

(** The only program points at which a running process may be unable to
    move: the read of line 107 when there is no flag to read, and the wait
    of line 112 while another process owns the mutex. *)
Lemma handleCmd_blocked SZ p o h ns ms :
  handleCmd SZ p o h ns ms = None ->
  (exists status, pc h = Exited status)
  \/ (pc h = L107_read_flag /\ read_flag (userShareMemName_ h) ns = None)
  \/ (pc h = L112_WaitForSingleObject
      /\ exists q k, mutex_at (userShareMemMutexName_ h) ms = MutexHeld q k
                     /\ q <> p).
Proof.
  unfold handleCmd, toBeLeader, leaderTimerCallback, sendMsgToLeader.
  destruct (pc h) eqn:Hpc; try solve [repeat case_match; discriminate].
  - destruct (read_flag _ _); [cbn; case_match; discriminate|]. auto.
  - unfold WaitForSingleObject.
    destruct (mutex_at _ _) as [| |q k]; try discriminate.
    case_decide; [discriminate|]. intros _. right; right. eauto.
  - unfold WaitForSingleObject.
    destruct (mutex_at _ _) as [| |q k]; try discriminate.
    case_decide; discriminate.
  - eauto.
Qed.

(** X15.  No deadlock.  With a region of at least one byte, in every
    execution every running process can take its next step, whatever the
    system decides for it, with one exception: a Leader at the wait of line
    112 while another process is between its acquisition of the mutex and
    its release; and that process can take its next step. *)
Theorem no_deadlock (SHARED_MEM_SIZE sizeof_mem sizeof_mutex : nat)
    (accounts : list (option string)) (sched : list (nat * Oracle))
    (p : nat) (h : CmdLineHandler) (o : Oracle) :
  let w := exec SHARED_MEM_SIZE sched
             (launch sizeof_mem sizeof_mutex accounts) in
  (0 < SHARED_MEM_SIZE)%nat ->
  procs w !! p = Some h -> live h ->
  (exists w', step SHARED_MEM_SIZE p o w = Some w')
  \/ (pc h = L112_WaitForSingleObject
      /\ exists q hq,
           q <> p /\ procs w !! q = Some hq
           /\ in_critical (pc hq) = true
           /\ userShareMemMutexName_ hq = userShareMemMutexName_ h
           /\ forall o', exists w', step SHARED_MEM_SIZE q o' w = Some w').
Proof.
  intros w Hsize Hh Hlive.
  pose proof (election_inv_exec SHARED_MEM_SIZE sizeof_mem sizeof_mutex
                accounts sched) as Helect.
  pose proof (regions_shaped_exec SHARED_MEM_SIZE sizeof_mem sizeof_mutex
                accounts sched) as Hshape.
  pose proof (mutexes_owned_exec SHARED_MEM_SIZE sizeof_mem sizeof_mutex
                accounts sched) as Hmutex.
  fold w in Helect, Hshape, Hmutex.
  rewrite (step_eq _ _ _ _ _ Hh).
  destruct (handleCmd SHARED_MEM_SIZE p o h (mappings w) (mutexes w))
    as [out|] eqn:Hout; [left; cbn; eauto|].
  apply handleCmd_blocked in Hout
    as [[status Hpc]|[[Hpc Hflag]|(Hpc & q & k & Hheld & Hqp)]].
  - destruct (Hlive status Hpc).
  - (* the region of a running Leader exists and has a first byte *)
    exfalso.
    destruct (inv_handle _ Helect p h Hh Hlive) as (fm & Hfm & _);
      [rewrite Hpc; discriminate|].
    unfold read_flag in Hflag. rewrite Hfm in Hflag. cbn in Hflag.
    apply lookup_ge_None in Hflag.
    rewrite (rs_size _ _ (Hshape _ fm Hfm)) in Hflag. lia.
  - right. split; [assumption|].
    destruct (Hmutex (userShareMemMutexName_ h))
      as [Hfree|(q' & hq & Hheld' & Hq & Hcrit & Hname)]; [congruence|].
    assert (q' = q) by congruence. subst q'.
    exists q, hq. repeat (split; [assumption|]).
    intros o'. rewrite (step_eq _ _ _ _ _ Hq).
    destruct (handleCmd SHARED_MEM_SIZE q o' hq (mappings w) (mutexes w))
      as [out|] eqn:Hout; [cbn; eauto|].
    exfalso.
    apply handleCmd_blocked in Hout
      as [[status Hpc']|[[Hpc' _]|[Hpc' _]]];
      rewrite Hpc' in Hcrit; discriminate.
Qed.

Lemma no_deadlock_witness :
  let w := exec sample_SIZE
             (flag_set_schedule ++ replicate 3 (0%nat, oracle_quiet))
             (launch 64 64 (replicate 3 (Some "LAB\amy"))) in
  let h := sample_follower_at L124_FindWindowA in
  (exists w', step sample_SIZE 2 oracle_quiet w = Some w')
  \/ (pc h = L112_WaitForSingleObject
      /\ exists q hq,
           q <> 2%nat /\ procs w !! q = Some hq
           /\ in_critical (pc hq) = true
           /\ userShareMemMutexName_ hq = userShareMemMutexName_ h
           /\ forall o', exists w', step sample_SIZE q o' w = Some w').
Proof.
  intros w h.
  apply (no_deadlock sample_SIZE 64 64 (replicate 3 (Some "LAB\amy"))
           (flag_set_schedule ++ replicate 3 (0%nat, oracle_quiet))
           2%nat h oracle_quiet).
  - vm_compute. lia.
  - vm_compute. reflexivity.
  - intros status. discriminate.
Defined.

(** ** An abandoned mutex *)

(** What a step makes of the mutex of a world that is locked out. *)
Lemma handleCmd_locked_out SZ p o h ns ms out m :
  handleCmd SZ p o h ns ms = Some out ->
  outside_lock (pc h) = true ->
  userShareMemMutexName_ h = m ->
  (forall v, read_flag (userShareMemName_ h) ns = Some v -> v = 0) ->
  (mutex_at m ms = MutexAbandoned
   \/ exists f k, mutex_at m ms = MutexHeld f k
                  /\ (f = p -> pc h = L62_exit)) ->
  outside_lock (pc (o_self out)) = true
  /\ count_if is_delivery (o_events out) = 0%nat
  /\ (mutex_at m (o_mutexes out) = MutexAbandoned
      \/ (exists k, mutex_at m (o_mutexes out) = MutexHeld p k
                    /\ pc (o_self out) = L62_exit)
      \/ (exists f k, f <> p /\ mutex_at m ms = MutexHeld f k
                      /\ mutex_at m (o_mutexes out) = MutexHeld f k)).
Proof.
  intros H Hpc Hm Hflag Hmutex. subst m. unfold mutex_at in *.
  handle_cases H; rewrite ?lookup_insert_eq; cbn [default].
  all: try match goal with
       | E : read_flag _ _ = Some ?v, F : (?v =? 0) = false |- _ =>
           apply Hflag in E; subst v; discriminate
       end.
  all: try match goal with
       | E : WaitForSingleObject _ _ _ = Some _ |- _ =>
           unfold WaitForSingleObject in E
       end.
  all: destruct Hmutex as [Hab|(f & k & Hheld & Hf)];
    repeat match goal with
    | E : ?x = Some _, F : context [?x] |- _ => rewrite E in F; cbn in F
    | E : ?x = None, F : context [?x] |- _ => rewrite E in F; cbn in F
    end; simplify_eq/=.
  all: try (destruct (decide (f = p)) as [->|Hne];
            [try (specialize (Hf eq_refl); discriminate)|]).
  all: repeat case_decide; simplify_eq/=.
  all: try (split; [reflexivity|split; [reflexivity|]]).
  all: try first
    [ solve [left; first [reflexivity|assumption]]
    | solve [right; left; eexists; split; reflexivity]
    | solve [right; right; eexists _, _; split; [eassumption|];
             split; first [reflexivity|eassumption]] ].
  1, 2: pose proof (Hflag _ eq_refl); subst; discriminate.
  - unfold mutex_at in *. rewrite Hab in *. simplify_eq.
    split; [reflexivity|]. split; [reflexivity|]. right; left. eauto.
  - unfold mutex_at in *. rewrite Hheld in *.
    match goal with
    | E : context [decide (f = p)] |- _ =>
        rewrite decide_False in E by assumption
    end.
    simplify_eq.
    split; [reflexivity|]. split; [reflexivity|]. right; right. eauto.
Qed.

Lemma locked_out_step SZ n m w p o w' :
  locked_out n m w -> step SZ p o w = Some w' ->
  locked_out n m w' /\ deliveries w' = deliveries w.
Proof.
  intros [Hnames Hout_pc Hmutex Hflag] Hstep.
  pose proof (all_named_step _ _ _ _ _ _ _ Hnames Hstep) as Hnames'.
  apply step_inv in Hstep as (h & out & Hh & Hout & ->).
  destruct (Hnames p h Hh) as [Hn Hm].
  assert (Hlocked : mutex_at m (mutexes w) = MutexAbandoned
            \/ exists f k, mutex_at m (mutexes w) = MutexHeld f k
                           /\ (f = p -> pc h = L62_exit)).
  { destruct Hmutex as [Hab|(f & hf & k & Hheld & Hf & Hfpc)]; [auto|].
    right. exists f, k. split; [assumption|]. intros ->. congruence. }
  destruct (handleCmd_locked_out _ _ _ _ _ _ _ m Hout (Hout_pc p h Hh) Hm
              ltac:(rewrite Hn; exact Hflag) Hlocked)
    as (Hpc' & Hev & Hmutex').
  split; [split|].
  - exact Hnames'.
  - intros q hq Hq. cbn [procs] in Hq.
    destruct (lookup_after_step _ _ _ _ _ _ Hh Hq) as [[-> ->]|[Hne Hq']];
      eauto.
  - cbn [mutexes procs].
    destruct Hmutex' as [Hab|[(k & Hheld & Hpc62)|(f & k & Hne & Hold & Hnew)]].
    + auto.
    + right. exists p, (o_self out), k. split; [assumption|].
      split; [|assumption].
      apply list_lookup_insert_eq. eapply lookup_lt_Some; eassumption.
    + destruct Hmutex as [Hab|(f0 & hf & k0 & Hheld & Hf & Hfpc)];
        [congruence|].
      assert (f0 = f) by congruence. subst f0.
      right. exists f, hf, k. split; [assumption|].
      split; [|assumption].
      rewrite list_lookup_insert_ne by congruence. assumption.
  - intros v' Hv'. cbn [mappings] in Hv'.
    destruct (decide (v' = 0)) as [|Hne]; [assumption|].
    destruct (read_flag n (mappings w)) as [v|] eqn:Hv.
    + pose proof (Hflag v eq_refl) as ->.
      destruct (handleCmd_flag _ _ _ _ _ _ _ _ _ _ Hout Hv Hv'
                  ltac:(congruence))
        as (_ & [(Hpc & _)|[(_ & ?)|(_ & ? & _)]]); try assumption.
      pose proof (Hout_pc p h Hh) as Ho. rewrite Hpc in Ho. discriminate.
    + eapply handleCmd_flag_new; eassumption.
  - unfold deliveries. cbn [log].
    rewrite fmap_app, count_if_app, <- list_fmap_compose.
    replace (snd ∘ pair p) with (@id Event) by reflexivity.
    rewrite list_fmap_id, Hev. lia.
Qed.

Lemma locked_out_exec SZ n m sched w :
  locked_out n m w ->
  locked_out n m (exec SZ sched w)
  /\ deliveries (exec SZ sched w) = deliveries w.
Proof.
  intros Hw.
  apply (exec_invariant_any SZ
           (fun w' => locked_out n m w' /\ deliveries w' = deliveries w));
    [|split; [assumption|reflexivity]].
  intros w1 p o w2 [Hl Hd] Hstep.
  destruct (locked_out_step _ _ _ _ _ _ _ Hl Hstep) as [Hl' Hd'].
  split; [assumption|congruence].
Qed.

(** X12.  Lines 130-134 take [WAIT_ABANDONED] for a failure although the
    caller then owns the mutex, and return without releasing it.  So let,
    in some world, every process use the region name [n] and the mutex name
    [m]; the mutex be abandoned (its owner was ended from outside), or
    owned by a process at line 62; the flag of the region, if the region
    exists, be 0; and no process stand at lines 112-115 or 135-136, that is,
    none waits for the mutex without a limit and none is between an
    acquisition and its release.  Then the mutex stays out of reach: in
    every execution from there, with any processes of these names starting,
    running and ending, the mutex is abandoned or owned by a process at line
    62, the flag stays 0, and no request is delivered (no flag set, no call
    of [createNewSession]). *)
Theorem abandoned_mutex_locks_out (SHARED_MEM_SIZE : nat) (n m : string)
    (w : World) (sched : list (nat * Oracle)) :
  locked_out n m w ->
  let w' := exec SHARED_MEM_SIZE sched w in
  deliveries w' = deliveries w
  /\ (forall v, read_flag n (mappings w') = Some v -> v = 0)
  /\ (mutex_at m (mutexes w') = MutexAbandoned
      \/ exists f h k, mutex_at m (mutexes w') = MutexHeld f k
                       /\ procs w' !! f = Some h /\ pc h = L62_exit).
Proof.
  intros Hw w'.
  destruct (locked_out_exec SHARED_MEM_SIZE n m sched w Hw)
    as [[_ _ Hmutex Hflag] Hd].
  auto.
Qed.

Lemma abandoned_mutex_locks_out_witness :
  let w' := exec sample_SIZE
              (replicate 4 (1%nat, oracle_quiet)
               ++ replicate 5 (2%nat, oracle_quiet)
               ++ replicate 3 (0%nat, oracle_quiet))
              world_abandoned in
  deliveries w' = deliveries world_abandoned
  /\ (forall v, read_flag sample_region (mappings w') = Some v -> v = 0)
  /\ (mutex_at sample_mutex (mutexes w') = MutexAbandoned
      \/ exists f h k, mutex_at sample_mutex (mutexes w') = MutexHeld f k
                       /\ procs w' !! f = Some h /\ pc h = L62_exit).
Proof.
  apply (abandoned_mutex_locks_out sample_SIZE sample_region sample_mutex
           world_abandoned).
  split.
  - intros p h Hh.
    destruct p as [|[|[|p]]]; vm_compute in Hh; [| | |discriminate];
      injection Hh as <-; split; reflexivity.
  - intros p h Hh.
    destruct p as [|[|[|p]]]; vm_compute in Hh; [| | |discriminate];
      injection Hh as <-; reflexivity.
  - left. vm_compute. reflexivity.
  - intros v Hv. vm_compute in Hv. congruence.
Defined.

(** ** The names of two accounts *)

(** The two names in closed form, for every account name that fits
    [userId] and for arrays of any size. *)
Lemma CmdLineHandler_new_names (s1 s2 : nat) (account : string) :
  let chars := list_ascii_of_string account in
  (List.length chars < sizeof_userId)%nat ->
  CmdLineHandler_new s1 s2 (Some account)
  = Some {| userShareMemName_ :=
              string_of_list_ascii
                (take s1 (list_ascii_of_string SHARED_MEM_NAME
                          ++ "_"%char :: map sanitize_char chars));
            userShareMemMutexName_ :=
              string_of_list_ascii
                (take s2 (list_ascii_of_string SHARED_MEM_MUTEX_NAME
                          ++ "_"%char :: map sanitize_char chars));
            sharedType_ := None;
            pc := L73_CreateFileMapping |}.
Proof.
  intros chars Hlen. unfold CmdLineHandler_new, GetUserNameExA. fold chars.
  destruct (decide (List.length chars < sizeof_userId)%nat); [|lia].
  cbv zeta. rewrite sanitize_name. unfold _snprintf.
  rewrite c_str_sanitized. reflexivity.
Qed.

Lemma string_of_list_ascii_inj (l1 l2 : list ascii) :
  string_of_list_ascii l1 = string_of_list_ascii l2 -> l1 = l2.
Proof.
  intros H. rewrite <- (list_ascii_of_string_of_list_ascii l1),
              <- (list_ascii_of_string_of_list_ascii l2), H.
  reflexivity.
Qed.

(** X13.  Two accounts whose names fit have the same region name exactly
    when their names are the same once every character that is not a
    letter or digit is replaced by [_], and then they have the same lock
    name too: accounts that differ only in such characters share one
    Leader. *)
Theorem names_shared_iff_same_identity
    (sizeof_mem sizeof_mutex : nat) (a b : string)
    (ha hb : CmdLineHandler) :
  let fits (account : string) :=
    (String.length account < sizeof_userId
     /\ String.length SHARED_MEM_NAME + 1 + String.length account
        < sizeof_mem
     /\ String.length SHARED_MEM_MUTEX_NAME + 1 + String.length account
        < sizeof_mutex)%nat in
  fits a -> fits b ->
  CmdLineHandler_new sizeof_mem sizeof_mutex (Some a) = Some ha ->
  CmdLineHandler_new sizeof_mem sizeof_mutex (Some b) = Some hb ->
  (userShareMemName_ ha = userShareMemName_ hb
   <-> replace_non_alphanumeric (list_ascii_of_string a)
       = replace_non_alphanumeric (list_ascii_of_string b))
  /\ (userShareMemMutexName_ ha = userShareMemMutexName_ hb
      <-> userShareMemName_ ha = userShareMemName_ hb).
Proof.
  intros fits (Ha & Ha1 & Ha2) (Hb & Hb1 & Hb2) Hnewa Hnewb.
  rewrite <- !sanitize_replaces.
  rewrite <- (length_list_ascii_of_string a) in Ha, Ha1, Ha2.
  rewrite <- (length_list_ascii_of_string b) in Hb, Hb1, Hb2.
  rewrite (CmdLineHandler_new_names _ _ a Ha) in Hnewa.
  rewrite (CmdLineHandler_new_names _ _ b Hb) in Hnewb.
  apply (inj Some) in Hnewa, Hnewb. subst ha hb.
  unfold userShareMemName_, userShareMemMutexName_.
  rewrite !take_ge
    by (rewrite length_app, length_list_ascii_of_string;
        cbn [List.length]; rewrite length_map; lia).
  assert (Hinj : forall prefix l1 l2,
            string_of_list_ascii (prefix ++ "_"%char :: l1)
            = string_of_list_ascii (prefix ++ "_"%char :: l2) <-> l1 = l2).
  { intros prefix l1 l2. split; [|intros ->; reflexivity].
    intros H. apply string_of_list_ascii_inj, app_inv_head in H.
    congruence. }
  rewrite !Hinj. tauto.
Qed.

Lemma names_shared_iff_same_identity_witness :
  let ha := mkCmdLineHandler "PuttySharedMem_LAB_amy"
              "PuttySharedMemMutex_LAB_amy" None L73_CreateFileMapping in
  (userShareMemName_ ha = userShareMemName_ ha
   <-> replace_non_alphanumeric (list_ascii_of_string "LAB\amy")
       = replace_non_alphanumeric (list_ascii_of_string "LAB/amy"))
  /\ (userShareMemMutexName_ ha = userShareMemMutexName_ ha
      <-> userShareMemName_ ha = userShareMemName_ ha).
Proof.
  intros ha.
  apply (names_shared_iff_same_identity 64 64 "LAB\amy" "LAB/amy" ha ha);
    [vm_compute; lia | vm_compute; lia | reflexivity | reflexivity].
Defined.
